(** * The disk cache coordinator ([cacheObjects]) of the object server

    A shallow embedding of the cache object layer: the coordinator that sits
    in front of the backend object layer, routes every object to one of its
    cache drives, revalidates cached entries and deletes them when the
    backend object is gone.

    The coordinator talks to three collaborators that are defined in other
    files of the repository: the backend (reached through the function
    fields of [cacheObjects]), the cache drives ([diskCache]) and the
    namespace lock map.  Every call to one of them is an event of [CacheE];
    a method of the coordinator is a program of the free monad [Prog] over
    these events, and [run] executes a program against an arbitrary
    implementation (a [Handler]) of the collaborators, recording the calls
    made and the answers received. *)

From Stdlib Require Import ZArith List String Ascii Bool Lia DecimalString.
From stdpp Require Import base list strings gmap.
Import ListNotations.
Local Open Scope string_scope.
Local Open Scope Z_scope.
Local Open Scope list_scope.

(** ** Data *)

(** [time.Time], as seconds since the epoch. *)
Definition Time := Z.

(** Go's [error] values that the coordinator distinguishes; a nil [error]
    is [None] of [option error]. *)
Inductive error : Type :=
| ObjectNotFound (bucket object : string)
| BackendDown
| errDiskNotFound
| OperationTimedOut (path : string)
| errorString (msg : string).

(** A Go result pair [(T, error)]: the value when the error is nil. *)
Definition res (A : Type) : Type := (A + error)%type.

(** The [error] half of a result pair. *)
Definition errOf {A : Type} (r : res A) : option error :=
  match r with inl _ => None | inr e => Some e end.

(** The fields of [ObjectInfo] that the coordinator reads. *)
Record ObjectInfo := mkObjectInfo {
  ModTime : Time;
  Size : Z;
  ETag : string;
  ContentType : string;
  ContentEncoding : string;
  Expires : Time;
  UserDefined : gmap string string
}.

Definition timeSentinel : Time := 0.

Record HTTPRangeSpec := mkRange {
  IsSuffixLength : bool;
  Start : Z;
  End : Z
}.

Definition Header := list (string * string).

Variant LockType := noLock | readLock | writeLock.

Record ObjectOptions := mkOpts {
  optUserDefined : gmap string string;
  CheckCopyPrecondFn : option (ObjectInfo -> string -> bool)
}.

(** [*GetObjectReader]: an open stream together with the object's info. *)
Record GetObjectReader := mkReader {
  stream : nat;
  ObjInfo : ObjectInfo
}.

(** The halves of an [io.Pipe] and the [io.Reader] values built on them. *)
Definition Pipe := nat.

Inductive ioReader : Type :=
| readerOf (gr : GetObjectReader)
| PipeReader (p : Pipe)
| LimitReader (r : ioReader) (n : Z)
| TeeReader (r : ioReader) (w : Pipe).

(** The cleanup closures handed to [NewGetObjectReaderFromReader]. *)
Variant Cleanup := closeReader (gr : GetObjectReader) | closePipeReader (p : Pipe).

(** [*diskCache]: one cache drive, named by its directory. *)
Record diskCache := mkDiskCache { dir : string }.

(** The lock deadline; every lock of the coordinator is taken with
    [globalObjectTimeout]. *)
Variant dynamicTimeout := globalObjectTimeout | otherTimeout (d : Z).

(** [cacheObjects]: the slice of cache drives (a nil slot is [None]) and the
    exclude patterns.  The [migrating] flag is the coordinator's mutable
    state and is threaded by [run]; the lock map and the backend function
    fields are reached through events. *)
Record cacheObjects := mkCacheObjects {
  cache : list (option diskCache);
  exclude : list string
}.

(** Helpers that the coordinator calls and that are defined in other files
    of the repository.  They are pure, and taken as parameters. *)
Class Externals := {
  (** the parsed cache directives of an entry *)
  cacheControl : Type;
  cacheControlOpts : ObjectInfo -> cacheControl;
  isEmpty : cacheControl -> bool;
  (** [ObjectInfo.IsCacheable] *)
  IsCacheable : ObjectInfo -> bool;
  (** [backendDownError(err)] *)
  backendDownError : option error -> bool;
  (** [wildcard.MatchSimple(pattern, name)] *)
  MatchSimple : string -> string -> bool;
  (** [t.Format(http.TimeFormat)] *)
  formatHTTPTime : Time -> string
}.

(** Goroutines started with [go] and not joined. *)
Variant Task :=
| rangeFillTask (dcache : diskCache) (bucket object : string) (h : Header)
                (lockType : LockType) (opts : ObjectOptions)
| teeFillTask (dcache : diskCache) (bucket object : string) (p : Pipe)
              (bkReader : GetObjectReader)
| purgeTask (dcache : diskCache).

(** ** Events: the calls that leave the coordinator *)

Section Events.
Context `{Externals}.

Inductive CacheE : Type -> Type :=
(* the backend, through the function fields of cacheObjects *)
| GetObjectNInfoFn (bucket object : string) (rs : option HTTPRangeSpec) (h : Header)
    (lockType : LockType) (opts : ObjectOptions) : CacheE (res GetObjectReader)
| GetObjectInfoFn (bucket object : string) (opts : ObjectOptions) : CacheE (res ObjectInfo)
| DeleteObjectFn (bucket object : string) : CacheE (option error)
(* c.nsMutex.NewNSLock(ctx, bucket, object) and the calls on the lock *)
| cLock_GetLock (bucket object : string) (timeout : dynamicTimeout) : CacheE (option error)
| cLock_Unlock (bucket object : string) : CacheE unit
| cLock_GetRLock (bucket object : string) (timeout : dynamicTimeout) : CacheE (option error)
| cLock_RUnlock (bucket object : string) : CacheE unit
(* a cache drive *)
| dcache_IsOnline (d : diskCache) : CacheE bool
| dcache_Exists (d : diskCache) (bucket object : string) : CacheE bool
| dcache_Get (d : diskCache) (bucket object : string) (rs : option HTTPRangeSpec)
    (h : Header) (opts : ObjectOptions) : CacheE (res GetObjectReader)
| dcache_Stat (d : diskCache) (bucket object : string) : CacheE (res ObjectInfo)
| dcache_Put (d : diskCache) (bucket object : string) (data : ioReader) (size : Z)
    (opts : ObjectOptions) : CacheE (option error)
| dcache_Delete (d : diskCache) (bucket object : string) : CacheE (option error)
| dcache_updateMetadataIfChanged (d : diskCache) (bucket object : string)
    (newInfo oldInfo : ObjectInfo) : CacheE (option error)
| dcache_diskUsageLow (d : diskCache) : CacheE bool
| dcache_diskAvailable (d : diskCache) (size : Z) : CacheE bool
(* select { case dcache.purgeChan <- struct{}{}: default: }; true when sent *)
| purgeChan_trySend (d : diskCache) : CacheE bool
| migrateOldCache (d : diskCache) : CacheE (option error)
(* readers and pipes *)
| reader_Close (gr : GetObjectReader) : CacheE (option error)
| io_Pipe : CacheE Pipe
| pipeWriter_CloseWithError (p : Pipe) (err : option error) : CacheE unit
| NewGetObjectReaderFromReader (r : ioReader) (oi : ObjectInfo)
    (pcfn : option (ObjectInfo -> string -> bool)) (cleanUpFns : list Cleanup)
    : CacheE (res GetObjectReader)
(* cc.isStale(modTime) reads the clock *)
| cc_isStale (cc : cacheControl) (modTime : Time) : CacheE bool
(* the coordinator's own migration flag and its mutex *)
| migMutex_Lock : CacheE unit
| migMutex_Unlock : CacheE unit
| load_migrating : CacheE bool
| store_migrating (b : bool) : CacheE unit
(* goroutines and the logger *)
| go (t : Task) : CacheE unit
| logger_StartupMessage (msg : string) : CacheE unit
| logger_LogIf (err : option error) : CacheE unit.

(** ** Programs *)

Inductive Prog (R : Type) : Type :=
| Ret (r : R)
| Panic (msg : string)
| Vis {T : Type} (e : CacheE T) (k : T -> Prog R).
Global Arguments Ret {R} r.
Global Arguments Panic {R} msg.
Global Arguments Vis {R T} e k.

Fixpoint bind {A B : Type} (p : Prog A) (f : A -> Prog B) : Prog B :=
  match p with
  | Ret a => f a
  | Panic msg => Panic msg
  | Vis e k => Vis e (fun x => bind (k x) f)
  end.

Definition trigger {T : Type} (e : CacheE T) : Prog T := Vis e Ret.

(** ** Running a program *)

(** One recorded call: the event and the answer it got. *)
Record Entry := Call { callT : Type; callE : CacheE callT; callA : callT }.
Global Arguments Call {callT} callE callA.

Definition Trace := list Entry.

(** An implementation of the collaborators over a world [W]. *)
Definition Handler (W : Type) : Type := forall T : Type, CacheE T -> W -> W * T.

Variant Outcome (R : Type) : Type :=
| Returned (r : R)
| Panicked (msg : string).
Global Arguments Returned {R} r.
Global Arguments Panicked {R} msg.

Record Run (W R : Type) := mkRun {
  migrating : bool;
  world : W;
  trace : Trace;
  outcome : Outcome R
}.
Global Arguments mkRun {W R}.
Global Arguments migrating {W R}.
Global Arguments world {W R}.
Global Arguments trace {W R}.
Global Arguments outcome {W R}.

(** The flag [c.migrating] and its mutex belong to the coordinator: [step]
    answers them from the flag [m]; every other event goes to the handler. *)
Definition step {W T : Type} (h : Handler W) (e : CacheE T) (m : bool) (w : W)
  : bool * W * T :=
  match e in CacheE T0 return (W * T0) -> bool * W * T0 with
  | load_migrating => fun _ => (m, w, m)
  | store_migrating b => fun _ => (b, w, tt)
  | migMutex_Lock => fun _ => (m, w, tt)
  | migMutex_Unlock => fun _ => (m, w, tt)
  | _ => fun wa => (m, fst wa, snd wa)
  end (h T e w).

Fixpoint run {W R : Type} (h : Handler W) (p : Prog R) (m : bool) (w : W) : Run W R :=
  match p with
  | Ret r => mkRun m w [] (Returned r)
  | Panic msg => mkRun m w [] (Panicked msg)
  | Vis e k =>
      let s := step h e m w in
      let r := run h (k (snd s)) (fst (fst s)) (snd (fst s)) in
      mkRun (migrating r) (world r) (Call e (snd s) :: trace r) (outcome r)
  end.

(** Sequencing of two runs: what [run] does on a [bind]. *)
Definition andThen {W A B : Type} (r1 : Run W A) (f : A -> bool -> W -> Run W B)
  : Run W B :=
  match outcome r1 with
  | Returned a =>
      let r2 := f a (migrating r1) (world r1) in
      mkRun (migrating r2) (world r2) (trace r1 ++ trace r2) (outcome r2)
  | Panicked msg => mkRun (migrating r1) (world r1) (trace r1) (Panicked msg)
  end.

(** Classes of calls. *)
Definition isBackendE {T : Type} (e : CacheE T) : bool :=
  match e with
  | GetObjectNInfoFn _ _ _ _ _ _ | GetObjectInfoFn _ _ _ | DeleteObjectFn _ _ => true
  | _ => false
  end.

(** The probes of the router: [IsOnline] and [Exists]. *)
Definition isProbeE {T : Type} (e : CacheE T) : bool :=
  match e with
  | dcache_IsOnline _ | dcache_Exists _ _ _ => true
  | _ => false
  end.

(** Calls on a cache drive, its purge channel or a namespace lock, and the
    goroutines that fill the cache. *)
Definition isCacheE {T : Type} (e : CacheE T) : bool :=
  match e with
  | dcache_IsOnline _ | dcache_Exists _ _ _ | dcache_Get _ _ _ _ _ _
  | dcache_Stat _ _ _ | dcache_Put _ _ _ _ _ _ | dcache_Delete _ _ _
  | dcache_updateMetadataIfChanged _ _ _ _ _ | dcache_diskUsageLow _
  | dcache_diskAvailable _ _ | purgeChan_trySend _ | migrateOldCache _
  | cLock_GetLock _ _ _ | cLock_Unlock _ _ | cLock_GetRLock _ _ _ | cLock_RUnlock _ _
  | go _ => true
  | _ => false
  end.

Definition isBackendCall (en : Entry) : bool := isBackendE (callE en).
Definition isProbeCall (en : Entry) : bool := isProbeE (callE en).
Definition isCacheCall (en : Entry) : bool := isCacheE (callE en).

(** What a recorded call says about the cache read, the backend and the
    clock; the other calls are [oOther]. *)
Variant Obs : Type :=
| oGet (d : diskCache) (bucket object : string) (a : res GetObjectReader)
| oStat (d : diskCache) (bucket object : string) (a : res ObjectInfo)
| oStale (cc : cacheControl) (modTime : Time) (a : bool)
| oInfoFn (bucket object : string) (a : res ObjectInfo)
| oNInfoFn (bucket object : string) (a : res GetObjectReader)
| oDeleteFn (bucket object : string) (a : option error)
| oDelete (d : diskCache) (bucket object : string)
| oUpdateMetadata (d : diskCache) (bucket object : string) (newInfo oldInfo : ObjectInfo)
| oMigrate (d : diskCache) (a : option error)
| oRLock (bucket object : string) (a : option error)
| oLock (bucket object : string) (a : option error)
| oOnline (d : diskCache) (a : bool)
| oOther.

Definition observe (en : Entry) : Obs :=
  match en with
  | Call e a =>
      match e in CacheE T return T -> Obs with
      | dcache_Get d b o _ _ _ => fun a => oGet d b o a
      | dcache_Stat d b o => fun a => oStat d b o a
      | cc_isStale cc t => fun a => oStale cc t a
      | GetObjectInfoFn b o _ => fun a => oInfoFn b o a
      | GetObjectNInfoFn b o _ _ _ _ => fun a => oNInfoFn b o a
      | DeleteObjectFn b o => fun a => oDeleteFn b o a
      | dcache_Delete d b o => fun _ => oDelete d b o
      | dcache_updateMetadataIfChanged d b o n old => fun _ => oUpdateMetadata d b o n old
      | migrateOldCache d => fun a => oMigrate d a
      | cLock_GetRLock b o _ => fun a => oRLock b o a
      | cLock_GetLock b o _ => fun a => oLock b o a
      | dcache_IsOnline d => fun a => oOnline d a
      | _ => fun _ => oOther
      end a
  end.

End Events.

Declare Scope prog_scope.
Delimit Scope prog_scope with prog.
Notation "x <- p ;; q" := (bind p (fun x => q))
  (at level 100, p at next level, right associativity) : prog_scope.
Notation "p ;;; q" := (bind p (fun _ => q))
  (at level 100, right associativity) : prog_scope.
Local Open Scope prog_scope.

(** ** Helpers modelled from the specification *)

(** [SlashSeparator] and [strings.HasSuffix]. *)
Definition SlashSeparator : string := "/".

Definition HasSuffix (s suffix : string) : bool :=
  (String.length suffix <=? String.length s)%nat &&
  String.eqb (substring (String.length s - String.length suffix)
                        (String.length suffix) s) suffix.

(** CRC-32 (IEEE polynomial, reflected), bit by bit over the bytes of the
    key: [crc32.Checksum(key, crc32.IEEETable)] of Go's standard library. *)
Definition crc32_shift (crc : Z) : Z :=
  if Z.testbit crc 0 then Z.lxor (Z.shiftr crc 1) 0xEDB88320 else Z.shiftr crc 1.

Definition crc32_byte (crc : Z) (b : ascii) : Z :=
  Nat.iter 8 crc32_shift (Z.lxor crc (Z.of_N (N_of_ascii b))).

Definition crc32_ChecksumIEEE (key : string) : Z :=
  Z.lxor (fold_left crc32_byte (list_ascii_of_string key) 0xFFFFFFFF) 0xFFFFFFFF.

(** Modelled from the spec: [pathJoin] and [crcHashMod], which are defined
    in another file of the repository.  Section 4.3 computes the index as
    the crc32 of bucket, a slash and object, modulo N.  With no slot there
    is no index; -1 stands for it and is never used, the scans below being
    empty then. *)
Definition pathJoin (bucket object : string) : string :=
  (bucket ++ SlashSeparator ++ object)%string.

Definition crcHashMod (key : string) (cardinality : Z) : Z :=
  if cardinality <=? 0 then -1 else crc32_ChecksumIEEE key mod cardinality.

(** ** The coordinator *)

Module CacheObjects.
Section Methods.
Context `{Externals}.

(** [c.cache[i]]: [None] when [i] is out of range (Go panics there). *)
Definition slot (c : cacheObjects) (i : Z) : option (option diskCache) :=
  if i <? 0 then None else cache c !! Z.to_nat i.

Definition numDisks (c : cacheObjects) : Z := Z.of_nat (length (cache c)).

(** [func (c *cacheObjects) delete]: exclusive lock, [dcache.Delete],
    deferred unlock. *)
Definition delete (dcache : diskCache) (bucket object : string) : Prog (option error) :=
  lk <- trigger (cLock_GetLock bucket object globalObjectTimeout) ;;
  match lk with
  | Some err => Ret (Some err)
  | None =>
      r <- trigger (dcache_Delete dcache bucket object) ;;
      trigger (cLock_Unlock bucket object) ;;;
      Ret r
  end.

(** [func (c *cacheObjects) put]. *)
Definition put (dcache : diskCache) (bucket object : string) (data : ioReader)
    (size : Z) (opts : ObjectOptions) : Prog (option error) :=
  lk <- trigger (cLock_GetLock bucket object globalObjectTimeout) ;;
  match lk with
  | Some err => Ret (Some err)
  | None =>
      r <- trigger (dcache_Put dcache bucket object data size opts) ;;
      trigger (cLock_Unlock bucket object) ;;;
      Ret r
  end.

(** [func (c *cacheObjects) get]: read lock, [dcache.Get], deferred unlock. *)
Definition get (dcache : diskCache) (bucket object : string)
    (rs : option HTTPRangeSpec) (h : Header) (opts : ObjectOptions)
    : Prog (res GetObjectReader) :=
  lk <- trigger (cLock_GetRLock bucket object globalObjectTimeout) ;;
  match lk with
  | Some err => Ret (inr err)
  | None =>
      r <- trigger (dcache_Get dcache bucket object rs h opts) ;;
      trigger (cLock_RUnlock bucket object) ;;;
      Ret r
  end.

(** [func (c *cacheObjects) stat]. *)
Definition stat (dcache : diskCache) (bucket object : string) : Prog (res ObjectInfo) :=
  lk <- trigger (cLock_GetRLock bucket object globalObjectTimeout) ;;
  match lk with
  | Some err => Ret (inr err)
  | None =>
      r <- trigger (dcache_Stat dcache bucket object) ;;
      trigger (cLock_RUnlock bucket object) ;;;
      Ret r
  end.

(** [skipCache()]: the migration flag, read under its mutex. *)
Definition skipCache : Prog bool :=
  trigger migMutex_Lock ;;;
  m <- trigger load_migrating ;;
  trigger migMutex_Unlock ;;;
  Ret m.

(** [isCacheExclude]: directories, and names matching an exclude pattern. *)
Definition isCacheExclude (c : cacheObjects) (bucket object : string) : bool :=
  if HasSuffix object SlashSeparator then true
  else existsb (fun pattern => MatchSimple pattern (bucket ++ "/" ++ object)%string) (exclude c).

(** [c.isCacheExclude(bucket, object) || c.skipCache()], evaluated left to
    right: the flag is not read for an excluded object. *)
Definition bypass (c : cacheObjects) (bucket object : string) : Prog bool :=
  if isCacheExclude c bucket object then Ret true else skipCache.

(** [hashIndex]. *)
Definition hashIndex (c : cacheObjects) (bucket object : string) : Z :=
  crcHashMod (pathJoin bucket object) (numDisks c).

(** [getCacheLoc]: the loop [for k := 0; k < numDisks; k++], with [n] the
    number of iterations left. *)
Fixpoint getCacheLoc_loop (c : cacheObjects) (index : Z) (n : nat) (k : Z)
  : Prog (res diskCache) :=
  match n with
  | O => Ret (inr errDiskNotFound)
  | S n' =>
      let i := Z.rem (index + k) (numDisks c) in
      match slot c i with
      | None => Panic "index out of range"
      | Some None => getCacheLoc_loop c index n' (k + 1)
      | Some (Some d) =>
          on <- trigger (dcache_IsOnline d) ;;
          if on : bool then Ret (inl d) else getCacheLoc_loop c index n' (k + 1)
      end
  end.

Definition getCacheLoc (c : cacheObjects) (bucket object : string) : Prog (res diskCache) :=
  let index := hashIndex c bucket object in
  getCacheLoc_loop c index (length (cache c)) 0.

(** [getCacheToLoc]: the same walk, remembering the first online drive and
    stopping at the first online drive that holds the object. *)
Fixpoint getCacheToLoc_loop (c : cacheObjects) (bucket object : string) (index : Z)
    (n : nat) (k : Z) (firstOnlineDisk : option diskCache) : Prog (res diskCache) :=
  match n with
  | O =>
      match firstOnlineDisk with
      | Some d => Ret (inl d)
      | None => Ret (inr errDiskNotFound)
      end
  | S n' =>
      let i := Z.rem (index + k) (numDisks c) in
      match slot c i with
      | None => Panic "index out of range"
      | Some None => getCacheToLoc_loop c bucket object index n' (k + 1) firstOnlineDisk
      | Some (Some d) =>
          on <- trigger (dcache_IsOnline d) ;;
          if on : bool then
            let firstOnlineDisk' :=
              match firstOnlineDisk with None => Some d | Some _ => firstOnlineDisk end in
            ex <- trigger (dcache_Exists d bucket object) ;;
            if ex : bool then Ret (inl d)
            else getCacheToLoc_loop c bucket object index n' (k + 1) firstOnlineDisk'
          else getCacheToLoc_loop c bucket object index n' (k + 1) firstOnlineDisk
      end
  end.

Definition getCacheToLoc (c : cacheObjects) (bucket object : string) : Prog (res diskCache) :=
  let index := hashIndex c bucket object in
  getCacheToLoc_loop c bucket object index (length (cache c)) 0 None.

(** [DeleteObject]: backend first; the cache entry only afterwards. *)
Definition DeleteObject (c : cacheObjects) (bucket object : string) : Prog (option error) :=
  err <- trigger (DeleteObjectFn bucket object) ;;
  match err with
  | Some _ => Ret err
  | None =>
      skip <- bypass c bucket object ;;
      if skip : bool then Ret err
      else
        loc <- getCacheLoc c bucket object ;;
        match loc with
        | inr _ => Ret err
        | inl dcache =>
            ex <- trigger (dcache_Exists dcache bucket object) ;;
            if ex : bool then delete dcache bucket object ;;; Ret err
            else Ret err
        end
  end.

(** [DeleteObjects]: [errs[idx] = c.DeleteObject(ctx, bucket, object)] for
    each object in turn, over [errs := make([]error, len(objects))]. *)
Fixpoint DeleteObjects_loop (c : cacheObjects) (bucket : string) (objects : list string)
    (idx : nat) (errs : list (option error)) : Prog (list (option error)) :=
  match objects with
  | [] => Ret errs
  | object :: rest =>
      e <- DeleteObject c bucket object ;;
      DeleteObjects_loop c bucket rest (S idx) (<[idx := e]> errs)
  end.

Definition DeleteObjects (c : cacheObjects) (bucket : string) (objects : list string)
  : Prog (list (option error) * option error) :=
  errs <- DeleteObjects_loop c bucket objects 0%nat (replicate (length objects) None) ;;
  Ret (errs, None).

(** [getMetadata]: the metadata map stored with a cached object. *)
Definition getMetadata (objInfo : ObjectInfo) : gmap string string :=
  let metadata : gmap string string := ∅ in
  let metadata := <["etag" := ETag objInfo]> metadata in
  let metadata := <["content-type" := ContentType objInfo]> metadata in
  let metadata :=
    if String.eqb (ContentEncoding objInfo) "" then metadata
    else <["content-encoding" := ContentEncoding objInfo]> metadata in
  let metadata :=
    if Expires objInfo =? timeSentinel then metadata
    else <["expires" := formatHTTPTime (Expires objInfo)]> metadata in
  UserDefined objInfo ∪ metadata.

(** The body of the goroutine that fills the cache after a range request. *)
Definition rangeFill (dcache : diskCache) (bucket object : string) (h : Header)
    (lockType : LockType) (opts : ObjectOptions) : Prog unit :=
  b <- trigger (GetObjectNInfoFn bucket object None h lockType opts) ;;
  match b with
  | inr _ => Ret tt
  | inl bReader =>
      st <- stat dcache bucket object ;;
      (if match st with
          | inr _ => true
          | inl oi => negb (String.eqb (ETag oi) (ETag (ObjInfo bReader)))
          end
       then put dcache bucket object (readerOf bReader) (Size (ObjInfo bReader))
                (mkOpts (getMetadata (ObjInfo bReader)) None) ;;; Ret tt
       else Ret tt) ;;;
      trigger (reader_Close bReader) ;;;
      Ret tt
  end.

(** The body of the goroutine that writes the teed stream to the drive. *)
Definition teeFill (dcache : diskCache) (bucket object : string) (p : Pipe)
    (bkReader : GetObjectReader) : Prog unit :=
  putErr <- trigger (dcache_Put dcache bucket object
                       (LimitReader (PipeReader p) (Size (ObjInfo bkReader)))
                       (Size (ObjInfo bkReader))
                       (mkOpts (getMetadata (ObjInfo bkReader)) None)) ;;
  trigger (pipeWriter_CloseWithError p putErr).

(** [GetObjectNInfo] once the backend's [GetObjectInfoFn] has answered
    [objInfo] with a nil error: [cached] is the pair [cacheReader, cacheErr]. *)
Definition GetObjectNInfo_fill (dcache : diskCache) (bucket object : string)
    (rs : option HTTPRangeSpec) (h : Header) (lockType : LockType) (opts : ObjectOptions)
    (cached : res GetObjectReader) (objInfo : ObjectInfo) : Prog (res GetObjectReader) :=
  if negb (IsCacheable objInfo)
  then trigger (GetObjectNInfoFn bucket object rs h lockType opts)
  else
    served <-
      match cached with
      | inr _ => Ret None
      | inl cacheReader =>
          if String.eqb (ETag (ObjInfo cacheReader)) (ETag objInfo) then
            trigger (dcache_updateMetadataIfChanged dcache bucket object objInfo
                       (ObjInfo cacheReader)) ;;;
            Ret (Some cacheReader)
          else
            trigger (reader_Close cacheReader) ;;;
            delete dcache bucket object ;;;
            Ret None
      end ;;
    match served with
    | Some cacheReader => Ret (inl cacheReader)
    | None =>
        low <- trigger (dcache_diskUsageLow dcache) ;;
        (if low : bool then Ret tt
         else trigger (purgeChan_trySend dcache) ;;; Ret tt) ;;;
        avail <- trigger (dcache_diskAvailable dcache (Size objInfo)) ;;
        if negb avail
        then trigger (GetObjectNInfoFn bucket object rs h lockType opts)
        else
          match rs with
          | Some _ =>
              trigger (go (rangeFillTask dcache bucket object h lockType opts)) ;;;
              trigger (GetObjectNInfoFn bucket object rs h lockType opts)
          | None =>
              bk <- trigger (GetObjectNInfoFn bucket object rs h lockType opts) ;;
              match bk with
              | inr bkErr => Ret (inr bkErr)
              | inl bkReader =>
                  p <- trigger io_Pipe ;;
                  trigger (go (teeFillTask dcache bucket object p bkReader)) ;;;
                  trigger (NewGetObjectReaderFromReader
                             (TeeReader (readerOf bkReader) p) (ObjInfo bkReader)
                             (CheckCopyPrecondFn opts)
                             [closeReader bkReader; closePipeReader p])
              end
          end
    end.

(** [GetObjectNInfo], from the call of the backend's [GetObjectInfoFn] on. *)
Definition GetObjectNInfo_revalidate (dcache : diskCache) (bucket object : string)
    (rs : option HTTPRangeSpec) (h : Header) (lockType : LockType) (opts : ObjectOptions)
    (cached : res GetObjectReader) : Prog (res GetObjectReader) :=
  bi <- trigger (GetObjectInfoFn bucket object opts) ;;
  match backendDownError (errOf bi), cached with
  | true, inl cacheReader => Ret (inl cacheReader)
  | _, _ =>
      match bi with
      | inr err =>
          match err, cached with
          | ObjectNotFound _ _, inl cacheReader =>
              trigger (reader_Close cacheReader) ;;;
              trigger (dcache_Delete dcache bucket object) ;;;
              Ret (inr err)
          | _, _ => Ret (inr err)
          end
      | inl objInfo =>
          GetObjectNInfo_fill dcache bucket object rs h lockType opts cached objInfo
      end
  end.

(** [!cc.isEmpty() && !cc.isStale(modTime)] for [cc := cacheControlOpts(oi)]. *)
Definition freshByCacheControl (oi : ObjectInfo) : Prog bool :=
  let cc := cacheControlOpts oi in
  if isEmpty cc then Ret false
  else stale <- trigger (cc_isStale cc (ModTime oi)) ;; Ret (negb stale).

Definition GetObjectNInfo (c : cacheObjects) (bucket object : string)
    (rs : option HTTPRangeSpec) (h : Header) (lockType : LockType) (opts : ObjectOptions)
    : Prog (res GetObjectReader) :=
  skip <- bypass c bucket object ;;
  if skip : bool then trigger (GetObjectNInfoFn bucket object rs h lockType opts)
  else
    loc <- getCacheToLoc c bucket object ;;
    match loc with
    | inr _ => trigger (GetObjectNInfoFn bucket object rs h lockType opts)
    | inl dcache =>
        cached <- get dcache bucket object rs h opts ;;
        fresh <- match cached with
                 | inl cacheReader => freshByCacheControl (ObjInfo cacheReader)
                 | inr _ => Ret false
                 end ;;
        match cached, fresh with
        | inl cacheReader, true => Ret (inl cacheReader)
        | _, _ => GetObjectNInfo_revalidate dcache bucket object rs h lockType opts cached
        end
    end.

(** [GetObjectInfo]. *)
Definition GetObjectInfo (c : cacheObjects) (bucket object : string) (opts : ObjectOptions)
  : Prog (res ObjectInfo) :=
  skip <- bypass c bucket object ;;
  if skip : bool then trigger (GetObjectInfoFn bucket object opts)
  else
    loc <- getCacheToLoc c bucket object ;;
    match loc with
    | inr _ => trigger (GetObjectInfoFn bucket object opts)
    | inl dcache =>
        cached <- stat dcache bucket object ;;
        fresh <- match cached with
                 | inl cachedObjInfo => freshByCacheControl cachedObjInfo
                 | inr _ => Ret false
                 end ;;
        match cached, fresh with
        | inl cachedObjInfo, true => Ret (inl cachedObjInfo)
        | _, _ =>
            bi <- trigger (GetObjectInfoFn bucket object opts) ;;
            match bi with
            | inr err =>
                match err with
                | ObjectNotFound _ _ =>
                    delete dcache bucket object ;;;
                    Ret (inr err)
                | _ =>
                    if negb (backendDownError (Some err)) then Ret (inr err)
                    else
                      match cached with
                      | inl cachedObjInfo => Ret (inl cachedObjInfo)
                      | inr _ => Ret (inr BackendDown)
                      end
                end
            | inl objInfo =>
                match cached with
                | inr _ => Ret (inl objInfo)
                | inl cachedObjInfo =>
                    if negb (String.eqb (ETag cachedObjInfo) (ETag objInfo))
                    then delete dcache bucket object ;;; Ret (inl objInfo)
                    else Ret (inl objInfo)
                end
            end
        end
    end.

(** [migrateCacheFromV1toV2].  The goroutines, one per non-nil drive, are
    joined by [wg.Wait()] before [errs] is read, and each writes its own
    slot of [errs] only: they are run here in slot order. *)
Fixpoint migrate_loop (slots : list (option diskCache)) (idx : nat)
    (errs : list (option error)) : Prog (list (option error)) :=
  match slots with
  | [] => Ret errs
  | None :: rest => migrate_loop rest (S idx) errs
  | Some dc :: rest =>
      r <- trigger (migrateOldCache dc) ;;
      match r with
      | Some err =>
          trigger (logger_LogIf (Some err)) ;;;
          migrate_loop rest (S idx) (<[idx := Some err]> errs)
      | None =>
          trigger (go (purgeTask dc)) ;;;
          migrate_loop rest (S idx) errs
      end
  end.

Definition errCnt (errs : list (option error)) : Z :=
  fold_left (fun cnt err => match err with Some _ => cnt + 1 | None => cnt end) errs 0.

Definition migrateCacheFromV1toV2 (c : cacheObjects) : Prog unit :=
  trigger (logger_StartupMessage "Cache migration initiated ....") ;;;
  errs <- migrate_loop (cache c) 0%nat (replicate (length (cache c)) None) ;;
  if errCnt errs >? 0 then Ret tt
  else
    trigger migMutex_Lock ;;;
    trigger (store_migrating false) ;;;
    trigger (logger_StartupMessage "Cache migration completed successfully.") ;;;
    trigger migMutex_Unlock.

(** The body of a goroutine started by the coordinator; the purger's code
    is the drive's. *)
Definition taskBody (t : Task) : option (Prog unit) :=
  match t with
  | rangeFillTask d b o h lt opts => Some (rangeFill d b o h lt opts)
  | teeFillTask d b o p bk => Some (teeFill d b o p bk)
  | purgeTask _ => None
  end.

End Methods.
End CacheObjects.

(** ** The router in the words of the specification *)

Section Router.
Context `{Externals}.

(** The slots in the order of the circular walk that starts at the hash
    index. *)
Definition circularScan (c : cacheObjects) (bucket object : string)
  : list (option diskCache) :=
  rotate (Z.to_nat (CacheObjects.hashIndex c bucket object)) (cache c).

(** The slot visited at step [k] of the walk: [c.cache[(index + k) % numDisks]]. *)
Definition walk (c : cacheObjects) (bucket object : string) (k : nat)
  : option (option diskCache) :=
  cache c !! Z.to_nat ((CacheObjects.hashIndex c bucket object + Z.of_nat k)
                       mod CacheObjects.numDisks c).

(** A slot that is non-nil and online. *)
Definition usable (online : diskCache -> bool) (s : option diskCache) : bool :=
  match s with Some d => online d | None => false end.

(** A slot that is non-nil, online and holds the object. *)
Definition holding (online has : diskCache -> bool) (s : option diskCache) : bool :=
  match s with Some d => online d && has d | None => false end.

(** The first usable slot of a list of slots. *)
Definition firstUsable (online : diskCache -> bool) (l : list (option diskCache))
  : res diskCache :=
  match find (usable online) l with
  | Some (Some d) => inl d
  | _ => inr errDiskNotFound
  end.

(** [LocateForWrite]: "starting at index, circularly scan for the first
    non-nil, Online drive". *)
Definition LocateForWrite (online : diskCache -> bool) (c : cacheObjects)
    (bucket object : string) : res diskCache :=
  firstUsable online (circularScan c bucket object).

(** [LocateForRead]: "if any Online drive contains fp, return it; otherwise
    return the first Online drive found". *)
Definition LocateForRead (online has : diskCache -> bool) (c : cacheObjects)
    (bucket object : string) : res diskCache :=
  match find (holding online has) (circularScan c bucket object) with
  | Some (Some d) => inl d
  | _ => LocateForWrite online c bucket object
  end.

End Router.

(** ** The locking discipline, as a check on traces *)

Section Discipline.
Context `{Externals}.

(** The namespace lock the coordinator holds. *)
Variant Held :=
| holdsNothing
| holdsRead (bucket object : string)
| holdsWrite (bucket object : string).

Definition sameObject (b o b' o' : string) : bool := String.eqb b b' && String.eqb o o'.

Definition isGlobalObjectTimeout (t : dynamicTimeout) : bool :=
  match t with globalObjectTimeout => true | otherTimeout _ => false end.

(** One call against the lock held before it: the lock held after it, or
    [None] when the call breaks the discipline (a drive's [Get] or [Stat]
    outside a read lock on the same object, a [Put] or [Delete] outside an
    exclusive lock on it, a lock taken while one is held or with another
    deadline, an unlock of a lock that is not held). *)
Definition frameStep (held : Held) (en : Entry) : option Held :=
  match en with
  | Call e a =>
      match e in CacheE T return T -> option Held with
      | cLock_GetRLock b o t => fun a =>
          match held, a with
          | holdsNothing, None => if isGlobalObjectTimeout t then Some (holdsRead b o) else None
          | holdsNothing, Some _ => Some holdsNothing
          | _, _ => None
          end
      | cLock_GetLock b o t => fun a =>
          match held, a with
          | holdsNothing, None => if isGlobalObjectTimeout t then Some (holdsWrite b o) else None
          | holdsNothing, Some _ => Some holdsNothing
          | _, _ => None
          end
      | cLock_RUnlock b o => fun _ =>
          match held with
          | holdsRead b' o' => if sameObject b o b' o' then Some holdsNothing else None
          | _ => None
          end
      | cLock_Unlock b o => fun _ =>
          match held with
          | holdsWrite b' o' => if sameObject b o b' o' then Some holdsNothing else None
          | _ => None
          end
      | dcache_Get _ b o _ _ _ | dcache_Stat _ b o => fun _ =>
          match held with
          | holdsRead b' o' => if sameObject b o b' o' then Some held else None
          | _ => None
          end
      | dcache_Put _ b o _ _ _ | dcache_Delete _ b o => fun _ =>
          match held with
          | holdsWrite b' o' => if sameObject b o b' o' then Some held else None
          | _ => None
          end
      | _ => fun _ => Some held
      end a
  end.

Fixpoint framedFrom (held : Held) (tr : Trace) : bool :=
  match tr with
  | [] => match held with holdsNothing => true | _ => false end
  | en :: rest =>
      match frameStep held en with
      | Some held' => framedFrom held' rest
      | None => false
      end
  end.

(** Every [Get], [Stat], [Put] and [Delete] of the trace is framed by one
    lock of the right kind, and no lock is left held. *)
Definition framed (tr : Trace) : bool := framedFrom holdsNothing tr.

End Discipline.

(** ** Sequences of runs, and what a run does not do *)

Section Sequences.
Context `{Externals}.

(** The runs of [DeleteObject] over a list of objects, one after the other. *)
Fixpoint deleteEach {W : Type} (h : Handler W) (c : cacheObjects) (bucket : string)
    (objects : list string) (m : bool) (w : W) : list (Run W (option error)) :=
  match objects with
  | [] => []
  | object :: rest =>
      let r := run h (CacheObjects.DeleteObject c bucket object) m w in
      r :: deleteEach h c bucket rest (migrating r) (world r)
  end.

(** An observation that is neither a probe or a read of the cache nor a
    reading of the clock. *)
Definition quiet (o : Obs) : Prop :=
  match o with
  | oGet _ _ _ _ | oStat _ _ _ _ | oStale _ _ _ | oRLock _ _ _ | oOnline _ _ => False
  | _ => True
  end.

End Sequences.

(** ** Recorded calls as plain values *)

Section Views.
Context `{Externals}.

(** A recorded call with its answer, one constructor per event: the same
    data as an [Entry], without the dependency of the answer's type on the
    event. *)
Variant View : Type :=
| vGetObjectNInfoFn (bucket object : string) (rs : option HTTPRangeSpec) (h : Header)
    (lockType : LockType) (opts : ObjectOptions) (a : res GetObjectReader)
| vGetObjectInfoFn (bucket object : string) (opts : ObjectOptions) (a : res ObjectInfo)
| vDeleteObjectFn (bucket object : string) (a : option error)
| vGetLock (bucket object : string) (timeout : dynamicTimeout) (a : option error)
| vUnlock (bucket object : string)
| vGetRLock (bucket object : string) (timeout : dynamicTimeout) (a : option error)
| vRUnlock (bucket object : string)
| vIsOnline (d : diskCache) (a : bool)
| vExists (d : diskCache) (bucket object : string) (a : bool)
| vGet (d : diskCache) (bucket object : string) (rs : option HTTPRangeSpec)
    (h : Header) (opts : ObjectOptions) (a : res GetObjectReader)
| vStat (d : diskCache) (bucket object : string) (a : res ObjectInfo)
| vPut (d : diskCache) (bucket object : string) (data : ioReader) (size : Z)
    (opts : ObjectOptions) (a : option error)
| vDelete (d : diskCache) (bucket object : string) (a : option error)
| vUpdateMetadataIfChanged (d : diskCache) (bucket object : string)
    (newInfo oldInfo : ObjectInfo) (a : option error)
| vDiskUsageLow (d : diskCache) (a : bool)
| vDiskAvailable (d : diskCache) (size : Z) (a : bool)
| vTrySend (d : diskCache) (a : bool)
| vMigrateOldCache (d : diskCache) (a : option error)
| vClose (gr : GetObjectReader) (a : option error)
| vPipe (p : Pipe)
| vCloseWithError (p : Pipe) (err : option error)
| vNewGetObjectReaderFromReader (r : ioReader) (oi : ObjectInfo)
    (pcfn : option (ObjectInfo -> string -> bool)) (cleanUpFns : list Cleanup)
    (a : res GetObjectReader)
| vIsStale (cc : cacheControl) (modTime : Time) (a : bool)
| vMutexLock
| vMutexUnlock
| vLoadMigrating (a : bool)
| vStoreMigrating (b : bool)
| vGo (t : Task)
| vStartupMessage (msg : string)
| vLogIf (err : option error).

Definition view (en : Entry) : View :=
  match en with
  | Call e a =>
      match e in CacheE T return T -> View with
      | GetObjectNInfoFn b o rs h lt opts => fun a => vGetObjectNInfoFn b o rs h lt opts a
      | GetObjectInfoFn b o opts => fun a => vGetObjectInfoFn b o opts a
      | DeleteObjectFn b o => fun a => vDeleteObjectFn b o a
      | cLock_GetLock b o t => fun a => vGetLock b o t a
      | cLock_Unlock b o => fun _ => vUnlock b o
      | cLock_GetRLock b o t => fun a => vGetRLock b o t a
      | cLock_RUnlock b o => fun _ => vRUnlock b o
      | dcache_IsOnline d => fun a => vIsOnline d a
      | dcache_Exists d b o => fun a => vExists d b o a
      | dcache_Get d b o rs h opts => fun a => vGet d b o rs h opts a
      | dcache_Stat d b o => fun a => vStat d b o a
      | dcache_Put d b o data size opts => fun a => vPut d b o data size opts a
      | dcache_Delete d b o => fun a => vDelete d b o a
      | dcache_updateMetadataIfChanged d b o n old => fun a =>
          vUpdateMetadataIfChanged d b o n old a
      | dcache_diskUsageLow d => fun a => vDiskUsageLow d a
      | dcache_diskAvailable d size => fun a => vDiskAvailable d size a
      | purgeChan_trySend d => fun a => vTrySend d a
      | migrateOldCache d => fun a => vMigrateOldCache d a
      | reader_Close gr => fun a => vClose gr a
      | io_Pipe => fun p => vPipe p
      | pipeWriter_CloseWithError p err => fun _ => vCloseWithError p err
      | NewGetObjectReaderFromReader r oi pcfn cl => fun a =>
          vNewGetObjectReaderFromReader r oi pcfn cl a
      | cc_isStale cc t => fun a => vIsStale cc t a
      | migMutex_Lock => fun _ => vMutexLock
      | migMutex_Unlock => fun _ => vMutexUnlock
      | load_migrating => fun a => vLoadMigrating a
      | store_migrating b => fun _ => vStoreMigrating b
      | go t => fun _ => vGo t
      | logger_StartupMessage msg => fun _ => vStartupMessage msg
      | logger_LogIf err => fun _ => vLogIf err
      end a
  end.

(** The goroutines started in a trace, in order. *)
Definition startedTasks (tr : Trace) : list Task :=
  omap (fun en => match view en with vGo t => Some t | _ => None end) tr.

(** The backend deletes of a trace with their answers, in order. *)
Definition backendDeletes (tr : Trace) : list (string * string * option error) :=
  omap (fun en => match view en with
                  | vDeleteObjectFn b o a => Some (b, o, a)
                  | _ => None
                  end) tr.



(** Counting the calls of one kind. *)
Definition count (P : View -> bool) (tr : Trace) : nat :=
  length (List.filter (fun en => P (view en)) tr).

Definition isHead (v : View) : bool :=
  match v with vGetObjectInfoFn _ _ _ _ => true | _ => false end.
Definition isBody (v : View) : bool :=
  match v with vGetObjectNInfoFn _ _ _ _ _ _ _ => true | _ => false end.
Definition isGet (v : View) : bool :=
  match v with vGet _ _ _ _ _ _ _ => true | _ => false end.
Definition isStat (v : View) : bool :=
  match v with vStat _ _ _ _ => true | _ => false end.
Definition isPut (v : View) : bool :=
  match v with vPut _ _ _ _ _ _ _ => true | _ => false end.
Definition isUpdate (v : View) : bool :=
  match v with vUpdateMetadataIfChanged _ _ _ _ _ _ => true | _ => false end.
Definition isDelete (v : View) : bool :=
  match v with vDelete _ _ _ _ => true | _ => false end.
Definition isGo (v : View) : bool :=
  match v with vGo _ => true | _ => false end.
Definition isTrySend (v : View) : bool :=
  match v with vTrySend _ _ => true | _ => false end.

End Views.

(** ** What the probes of a walk answered *)

Section Located.
Context `{Externals}.

(** The probe of a drive that answered offline. *)
Definition answeredOffline (d : diskCache) : Entry := Call (dcache_IsOnline d) false.

(** The drive that a probe is made on. *)
Definition probedDrive (en : Entry) : option diskCache :=
  match view en with
  | vIsOnline d _ | vExists d _ _ _ => Some d
  | _ => None
  end.

(** The first drive of a trace that answered [IsOnline] with true. *)
Fixpoint firstAnsweredOnline (tr : Trace) : res diskCache :=
  match tr with
  | [] => inr errDiskNotFound
  | en :: rest =>
      match view en with
      | vIsOnline d true => inl d
      | _ => firstAnsweredOnline rest
      end
  end.

(** The first drive of a trace that answered [Exists] with true. *)
Fixpoint firstAnsweredExists (tr : Trace) : option diskCache :=
  match tr with
  | [] => None
  | en :: rest =>
      match view en with
      | vExists d _ _ true => Some d
      | _ => firstAnsweredExists rest
      end
  end.

(** The drive that the answers of a read walk designate. *)
Definition locatedBy (tr : Trace) : res diskCache :=
  match firstAnsweredExists tr with
  | Some d => inl d
  | None => firstAnsweredOnline tr
  end.

End Located.

(** ** The phases of a read *)

Section Phases.
Context `{Externals}.

(** The calls of a read up to the revalidation against the backend: the
    migration flag, the probes of the router, the locked cache read and the
    clock. *)
Definition isReadPhase (v : View) : bool :=
  match v with
  | vMutexLock | vMutexUnlock | vLoadMigrating _ | vIsOnline _ _ | vExists _ _ _ _
  | vGetRLock _ _ _ _ | vRUnlock _ _ | vGet _ _ _ _ _ _ _ | vIsStale _ _ _ => true
  | _ => false
  end.

(** The calls that the revalidation of [GetObjectNInfo] makes at most once,
    and those it never makes. *)
Definition withinBudget (tr : Trace) : Prop :=
  (count isHead tr <= 1)%nat /\
  (count isBody tr <= 1)%nat /\
  (count isDelete tr <= 1)%nat /\
  (count isUpdate tr <= 1)%nat /\
  (count isTrySend tr <= 1)%nat /\
  (count isGo tr <= 1)%nat /\
  count isGet tr = 0%nat /\
  count isStat tr = 0%nat /\
  count isPut tr = 0%nat.

End Phases.

(** ** Migration outcomes *)




(** ** Degraded mode *)

Section Offline.
Context `{Externals}.

(** The reading of the migration flag, and a drive answering that it is
    offline. *)
Definition isFlagOrOffline (v : View) : bool :=
  match v with
  | vMutexLock | vMutexUnlock | vLoadMigrating _ | vIsOnline _ false => true
  | _ => false
  end.

End Offline.

(** ** Statistics and start-up

    [StorageInfo] and [newCache] talk to other collaborators than the
    request methods: the file system, the logger, the loader of the cache
    format and the constructor of a drive.  Their programs are written over
    their own events, in the same style: a free monad over the events, run
    against an arbitrary implementation, with the calls recorded. *)

Section Procedures.
Context {E : Type -> Type}.

Inductive Proc (R : Type) : Type :=
| Done (r : R)
| Crash (msg : string)
| Ask {T : Type} (e : E T) (k : T -> Proc R).
Global Arguments Done {R} r.
Global Arguments Crash {R} msg.
Global Arguments Ask {R T} e k.

Fixpoint andAlso {A B : Type} (p : Proc A) (f : A -> Proc B) : Proc B :=
  match p with
  | Done a => f a
  | Crash msg => Crash msg
  | Ask e k => Ask e (fun x => andAlso (k x) f)
  end.

Definition ask {T : Type} (e : E T) : Proc T := Ask e Done.

(** One recorded call and its answer. *)
Record Asked := Answered { askedT : Type; askedE : E askedT; askedA : askedT }.
Global Arguments Answered {askedT} askedE askedA.

Record Exec (W R : Type) := mkExec {
  after : W;
  calls : list Asked;
  result : Outcome R
}.
Global Arguments mkExec {W R}.
Global Arguments after {W R}.
Global Arguments calls {W R}.
Global Arguments result {W R}.

Fixpoint exec {W R : Type} (h : forall T : Type, E T -> W -> W * T) (p : Proc R) (w : W)
  : Exec W R :=
  match p with
  | Done r => mkExec w [] (Returned r)
  | Crash msg => mkExec w [] (Panicked msg)
  | Ask e k =>
      let s := h _ e w in
      let r := exec h (k (snd s)) (fst s) in
      mkExec (after r) (Answered e (snd s) :: calls r) (result r)
  end.

End Procedures.
Global Arguments Proc E R : clear implicits.
Global Arguments Asked E : clear implicits.

Declare Scope proc_scope.
Delimit Scope proc_scope with proc.
Notation "x <- p ;; q" := (andAlso p (fun x => q))
  (at level 100, p at next level, right associativity) : proc_scope.
Notation "p ;;; q" := (andAlso p (fun _ => q))
  (at level 100, right associativity) : proc_scope.

(** [uint64] arithmetic wraps around. *)
Definition uint64 (x : Z) : Z := x mod 2 ^ 64.

(** The sum of a list of integers. *)
Definition sumZ (l : list Z) : Z := fold_right Z.add 0 l.

(** *** [StorageInfo] *)

Module disk.
(** The fields of [disk.Info] that [StorageInfo] reads. *)
Record Info := mkInfo { Total : Z; Free : Z }.
End disk.

Module Storage.

(** [CacheStorageInfo]. *)
Record CacheStorageInfo := mkCacheStorageInfo { Total : Z; Free : Z }.

Inductive StorageE : Type -> Type :=
| getDiskInfo (diskPath : string) : StorageE (disk.Info * option error)
(* logger.GetReqInfo(ctx).AppendTags(key, val) *)
| logger_AppendTags (key val : string) : StorageE unit
| logger_LogIf (err : option error) : StorageE unit.

Local Open Scope proc_scope.

(** The loop [for _, cache := range c.cache] over [var total, free uint64]. *)
Fixpoint StorageInfo_loop (slots : list (option diskCache)) (total free : Z)
  : Proc StorageE (Z * Z) :=
  match slots with
  | [] => Done (total, free)
  | None :: rest => StorageInfo_loop rest total free
  | Some cache :: rest =>
      r <- ask (getDiskInfo (dir cache)) ;;
      ask (logger_AppendTags "cachePath" (dir cache)) ;;;
      ask (logger_LogIf (snd r)) ;;;
      StorageInfo_loop rest (uint64 (total + disk.Total (fst r)))
                            (uint64 (free + disk.Free (fst r)))
  end.

Definition StorageInfo (c : cacheObjects) : Proc StorageE CacheStorageInfo :=
  tf <- StorageInfo_loop (cache c) 0 0 ;;
  Done (mkCacheStorageInfo (fst tf) (snd tf)).

(** The answers of [getDiskInfo] in a run, with the path asked for. *)
Definition diskInfos (tr : list (Asked StorageE))
  : list (string * (disk.Info * option error)) :=
  omap (fun x => match x with
                 | Answered e a =>
                     match e in StorageE T return T -> option _ with
                     | getDiskInfo p => fun a => Some (p, a)
                     | _ => fun _ => None
                     end a
                 end) tr.

(** What was handed to the logger in a run: the tags and the errors. *)
Definition tagged (tr : list (Asked StorageE)) : list (string * string) :=
  omap (fun x => match x with
                 | Answered e a =>
                     match e in StorageE T return T -> option _ with
                     | logger_AppendTags k v => fun _ => Some (k, v)
                     | _ => fun _ => None
                     end a
                 end) tr.

Definition logged (tr : list (Asked StorageE)) : list (option error) :=
  omap (fun x => match x with
                 | Answered e a =>
                     match e in StorageE T return T -> option _ with
                     | logger_LogIf err => fun _ => Some err
                     | _ => fun _ => None
                     end a
                 end) tr.

End Storage.

(** *** [newCache] *)

Record CacheConfig := mkCacheConfig {
  Drives : list string;
  Expiry : Z;
  MaxUse : Z;
  Exclude : list string
}.

Module Boot.
Section Boot.
(** [formatCacheV2]: only whether a drive has one is read here. *)
Context {formatCacheV2 : Type}.

Inductive BootE : Type -> Type :=
| loadAndValidateCacheFormat (drives : list string)
    : BootE (list (option formatCacheV2) * bool * option error)
| checkAtimeSupport (dir : string) : BootE (option error)
| newdiskCache (dir : string) (expiry maxUse : Z) : BootE (res diskCache)
(* go cache.purge() *)
| go_purge (cache : diskCache) : BootE unit.

Local Open Scope proc_scope.

(** The loop [for i, dir := range config.Drives] of [newCache]; [formats[i]]
    panics when [i] is out of range. *)
Fixpoint newCache_loop (config : CacheConfig) (formats : list (option formatCacheV2))
    (migrating : bool) (i : nat) (drives : list string) (caches : list (option diskCache))
  : Proc BootE (res (list (option diskCache) * bool)) :=
  match drives with
  | [] => Done (inl (caches, migrating))
  | dir :: rest =>
      match formats !! i with
      | None => Crash "index out of range"
      | Some None => newCache_loop config formats migrating (S i) rest (caches ++ [None])
      | Some (Some _) =>
          aerr <- ask (checkAtimeSupport dir) ;;
          match aerr with
          | Some _ => Done (inr (errorString "Atime support required for disk caching"))
          | None =>
              created <- ask (newdiskCache dir (Expiry config) (MaxUse config)) ;;
              match created with
              | inr err => Done (inr err)
              | inl cache =>
                  (if negb migrating then ask (go_purge cache) else Done tt) ;;;
                  newCache_loop config formats migrating (S i) rest (caches ++ [Some cache])
              end
          end
      end
  end.

(** [newCache]: the drives of the configuration, nil where a drive has no
    format, and whether a migration is needed. *)
Definition newCache (config : CacheConfig)
  : Proc BootE (res (list (option diskCache) * bool)) :=
  loaded <- ask (loadAndValidateCacheFormat (Drives config)) ;;
  match loaded with
  | (_, _, Some err) => Done (inr err)
  | (formats, migrating, None) =>
      newCache_loop config formats migrating 0 (Drives config) []
  end.

(** The purgers started in a run, and the drives made. *)
Definition purgers (tr : list (Asked BootE)) : list diskCache :=
  omap (fun x => match x with
                 | Answered e a =>
                     match e in BootE T return T -> option _ with
                     | go_purge cache => fun _ => Some cache
                     | _ => fun _ => None
                     end a
                 end) tr.

Definition made (tr : list (Asked BootE)) : list (string * Z * Z * res diskCache) :=
  omap (fun x => match x with
                 | Answered e a =>
                     match e in BootE T return T -> option _ with
                     | newdiskCache dir expiry maxUse => fun a =>
                         Some (dir, expiry, maxUse, a)
                     | _ => fun _ => None
                     end a
                 end) tr.

(** The call of [newdiskCache] behind a slot of the result. *)
Definition madeFor (config : CacheConfig) (p : string * option diskCache)
  : option (string * Z * Z * res diskCache) :=
  match snd p with
  | Some cache => Some (fst p, Expiry config, MaxUse config, inl cache)
  | None => None
  end.

Definition atimeChecks (tr : list (Asked BootE)) : list (string * option error) :=
  omap (fun x => match x with
                 | Answered e a =>
                     match e in BootE T return T -> option _ with
                     | checkAtimeSupport dir => fun a => Some (dir, a)
                     | _ => fun _ => None
                     end a
                 end) tr.

End Boot.
Global Arguments BootE formatCacheV2 : clear implicits.
End Boot.

(** ** A concrete world *)

(** Modelled from the spec: the helpers of [Externals] for the runs below.
    Section 4.1: an entry is fresh when "Expires present and now < Expires";
    section 4.4: an object "encrypted with client-provided key" is not
    cacheable, and "BackendDown causes the coordinator to serve stale-cache";
    section 4.7: exclude patterns are globs "matched against bucket/object". *)
Fixpoint globMatch (pattern name : list ascii) : bool :=
  match pattern with
  | [] => match name with [] => true | _ => false end
  | p :: pattern' =>
      if Ascii.eqb p "*"%char then
        (fix star (name : list ascii) : bool :=
           globMatch pattern' name ||
           match name with [] => false | _ :: name' => star name' end) name
      else
        match name with
        | [] => false
        | n :: name' => Ascii.eqb p n && globMatch pattern' name'
        end
  end.

#[local] Instance specExternals : Externals := {|
  cacheControl := Time;
  cacheControlOpts := Expires;
  isEmpty := fun cc => cc =? timeSentinel;
  IsCacheable := fun oi =>
    match UserDefined oi !! "X-Amz-Server-Side-Encryption-Customer-Algorithm" with
    | Some _ => false
    | None => true
    end;
  backendDownError := fun err =>
    match err with
    | Some BackendDown | Some errDiskNotFound => true
    | _ => false
    end;
  MatchSimple := fun pattern name =>
    globMatch (list_ascii_of_string pattern) (list_ascii_of_string name);
  formatHTTPTime := fun t => NilZero.string_of_int (Z.to_int t)
|}.

(** Modelled from the spec: a backend holding objects, drives holding
    entries (section 4.1: [Get], [Stat], [Delete], [Exists], [IsOnline]),
    locks that time out when another task holds them (section 4.2), and a
    clock. *)
Record Drive := mkDrive {
  driveDir : string;
  driveOnline : bool;
  driveMigrates : bool;
  driveEntries : list (string * string * ObjectInfo)
}.

Record World := mkWorld {
  now : Time;
  backendUp : bool;
  backendObjects : list (string * string * ObjectInfo);
  drives : list Drive;
  heldElsewhere : list (string * string)
}.

Definition lookupObject (b o : string) (l : list (string * string * ObjectInfo))
  : option ObjectInfo :=
  match find (fun x => sameObject b o (fst (fst x)) (snd (fst x))) l with
  | Some x => Some (snd x)
  | None => None
  end.

Definition removeObject (b o : string) (l : list (string * string * ObjectInfo))
  : list (string * string * ObjectInfo) :=
  List.filter (fun x => negb (sameObject b o (fst (fst x)) (snd (fst x)))) l.

Definition findDrive (d : diskCache) (w : World) : option Drive :=
  find (fun x => String.eqb (driveDir x) (dir d)) (drives w).

Definition driveLookup (d : diskCache) (b o : string) (w : World) : option ObjectInfo :=
  match findDrive d w with
  | Some x => lookupObject b o (driveEntries x)
  | None => None
  end.

Definition updateDrive (d : diskCache)
    (f : list (string * string * ObjectInfo) -> list (string * string * ObjectInfo))
    (w : World) : World :=
  mkWorld (now w) (backendUp w) (backendObjects w)
    (map (fun x => if String.eqb (driveDir x) (dir d)
                   then mkDrive (driveDir x) (driveOnline x) (driveMigrates x)
                                (f (driveEntries x))
                   else x) (drives w))
    (heldElsewhere w).

Definition lockAnswer (b o : string) (w : World) : option error :=
  if existsb (fun x => sameObject b o (fst x) (snd x)) (heldElsewhere w)
  then Some (OperationTimedOut (pathJoin b o)) else None.

Definition backendStat (b o : string) (w : World) : res ObjectInfo :=
  if backendUp w then
    match lookupObject b o (backendObjects w) with
    | Some oi => inl oi
    | None => inr (ObjectNotFound b o)
    end
  else inr BackendDown.

Definition storedInfo (w : World) (size : Z) (opts : ObjectOptions) : ObjectInfo :=
  mkObjectInfo (now w) size (default "" (optUserDefined opts !! "etag"))
    (default "" (optUserDefined opts !! "content-type"))
    (default "" (optUserDefined opts !! "content-encoding"))
    timeSentinel (optUserDefined opts).

Definition worldH : Handler World := fun T e =>
  match e in CacheE T0 return World -> World * T0 with
  | GetObjectNInfoFn b o _ _ _ _ => fun w =>
      (w, match backendStat b o w with inl oi => inl (mkReader 1 oi) | inr err => inr err end)
  | GetObjectInfoFn b o _ => fun w => (w, backendStat b o w)
  | DeleteObjectFn b o => fun w =>
      match backendStat b o w with
      | inl _ => (mkWorld (now w) (backendUp w) (removeObject b o (backendObjects w))
                          (drives w) (heldElsewhere w), None)
      | inr err => (w, Some err)
      end
  | cLock_GetLock b o _ => fun w => (w, lockAnswer b o w)
  | cLock_GetRLock b o _ => fun w => (w, lockAnswer b o w)
  | cLock_Unlock _ _ => fun w => (w, tt)
  | cLock_RUnlock _ _ => fun w => (w, tt)
  | dcache_IsOnline d => fun w =>
      (w, match findDrive d w with Some x => driveOnline x | None => false end)
  | dcache_Exists d b o => fun w =>
      (w, match driveLookup d b o w with Some _ => true | None => false end)
  | dcache_Get d b o _ _ _ => fun w =>
      (w, match driveLookup d b o w with
          | Some oi => inl (mkReader 2 oi)
          | None => inr (ObjectNotFound b o)
          end)
  | dcache_Stat d b o => fun w =>
      (w, match driveLookup d b o w with
          | Some oi => inl oi
          | None => inr (ObjectNotFound b o)
          end)
  | dcache_Put d b o _ size opts => fun w =>
      (updateDrive d (fun l => (b, o, storedInfo w size opts) :: removeObject b o l) w, None)
  | dcache_Delete d b o => fun w => (updateDrive d (removeObject b o) w, None)
  | dcache_updateMetadataIfChanged d b o newInfo _ => fun w =>
      (updateDrive d (fun l => (b, o, newInfo) :: removeObject b o l) w, None)
  | dcache_diskUsageLow _ => fun w => (w, true)
  | dcache_diskAvailable _ _ => fun w => (w, true)
  | purgeChan_trySend _ => fun w => (w, true)
  | migrateOldCache d => fun w =>
      (w, match findDrive d w with
          | Some x => if driveMigrates x then None else Some (errorString "migration failed")
          | None => Some errDiskNotFound
          end)
  | reader_Close _ => fun w => (w, None)
  | io_Pipe => fun w => (w, 0%nat)
  | pipeWriter_CloseWithError _ _ => fun w => (w, tt)
  | NewGetObjectReaderFromReader _ oi _ _ => fun w => (w, inl (mkReader 3 oi))
  | cc_isStale cc _ => fun w => (w, cc <=? now w)
  | migMutex_Lock => fun w => (w, tt)
  | migMutex_Unlock => fun w => (w, tt)
  | load_migrating => fun w => (w, false)
  | store_migrating _ => fun w => (w, tt)
  | go _ => fun w => (w, tt)
  | logger_StartupMessage _ => fun w => (w, tt)
  | logger_LogIf _ => fun w => (w, tt)
  end.

(** The objects and drives of the runs below. *)
Definition infoA (expires : Time) : ObjectInfo :=
  mkObjectInfo 1000 4096 "A" "text/plain" "" expires ∅.

Definition drive0 : diskCache := mkDiskCache "/mnt/cache0".
Definition drive2 : diskCache := mkDiskCache "/mnt/cache2".

Definition c3 : cacheObjects :=
  mkCacheObjects [Some drive0; None; Some drive2] ["secret/*"].

Definition c1 : cacheObjects := mkCacheObjects [Some drive0] [].

Definition c2 : cacheObjects := mkCacheObjects [Some drive0; Some drive2] [].

Definition opts0 : ObjectOptions := mkOpts ∅ None.

Definition onlineDrive (d : diskCache) (entries : list (string * string * ObjectInfo))
  : Drive :=
  mkDrive (dir d) true true entries.

(** The entry of b/obj is cached on drive 0 and expires at 9000; it is 5000. *)
Definition w_fresh : World :=
  mkWorld 5000 true [("b", "obj", infoA 9000)]
    [onlineDrive drive0 [("b", "obj", infoA 9000)]] [].

(** The cached entry expired at 3000; the backend still has etag A. *)
Definition w_stale : World :=
  mkWorld 5000 true [("b", "obj", infoA 3000)]
    [onlineDrive drive0 [("b", "obj", infoA 3000)]] [].

(** The cached entry expired and the backend object is gone. *)
Definition w_gone : World :=
  mkWorld 5000 true [] [onlineDrive drive0 [("b", "obj", infoA 3000)]] [].

(** The cached entry expired and the backend is down. *)
Definition w_down : World :=
  mkWorld 5000 false [("b", "obj", infoA 3000)]
    [onlineDrive drive0 [("b", "obj", infoA 3000)]] [].

(** The backend is down and the lock of b/obj is held by another task. *)
Definition w_down_locked : World :=
  mkWorld 5000 false [("b", "obj", infoA 3000)]
    [onlineDrive drive0 [("b", "obj", infoA 3000)]] [("b", "obj")].


(** Drive 0 is offline, drive 2 is online and holds b/obj. *)
Definition w_routed : World :=
  mkWorld 5000 true [("b", "obj", infoA 9000)]
    [mkDrive (dir drive0) false true []; onlineDrive drive2 [("b", "obj", infoA 9000)]] [].

(** The online state and the content of the drives of a world. *)
Definition onlineIn (w : World) (d : diskCache) : bool :=
  match findDrive d w with Some x => driveOnline x | None => false end.

Definition hasIn (w : World) (bucket object : string) (d : diskCache) : bool :=
  match driveLookup d bucket object w with Some _ => true | None => false end.

(** The migration of drive 2 fails, that of drive 0 succeeds. *)
Definition w_broken : World :=
  mkWorld 5000 true []
    [onlineDrive drive0 []; mkDrive (dir drive2) true false []] [].

Definition w_migrated : World :=
  mkWorld 5000 true [] [onlineDrive drive0 []; onlineDrive drive2 []] [].

(** Both drives are online and b/obj is on drive 2 only. *)
Definition w_affinity : World :=
  mkWorld 5000 true [("b", "obj", infoA 9000)]
    [onlineDrive drive0 []; onlineDrive drive2 [("b", "obj", infoA 9000)]] [].

Definition readerA (expires : Time) : GetObjectReader := mkReader 2 (infoA expires).

(** The calls of the runs below, in order. *)
Definition callsLocate : Trace :=
  [Call migMutex_Lock tt; Call load_migrating false; Call migMutex_Unlock tt;
   Call (dcache_IsOnline drive0) true; Call (dcache_Exists drive0 "b" "obj") true].

Definition callsGet (expires : Time) : Trace :=
  [Call (cLock_GetRLock "b" "obj" globalObjectTimeout) None;
   Call (dcache_Get drive0 "b" "obj" None [] opts0) (inl (readerA expires));
   Call (cLock_RUnlock "b" "obj") tt].

Definition callsStat (expires : Time) : Trace :=
  [Call (cLock_GetRLock "b" "obj" globalObjectTimeout) None;
   Call (dcache_Stat drive0 "b" "obj") (inl (infoA expires));
   Call (cLock_RUnlock "b" "obj") tt].

Definition callStale (expires : Time) (stale : bool) : Entry :=
  Call (cc_isStale (expires : cacheControl) 1000) stale.

Definition callHead (a : res ObjectInfo) : Entry :=
  Call (GetObjectInfoFn "b" "obj" opts0) a.

Definition calls_fresh_N : Trace := callsLocate ++ callsGet 9000 ++ [callStale 9000 false].

Definition calls_fresh_I : Trace := callsLocate ++ callsStat 9000 ++ [callStale 9000 false].

Definition calls_stale_N : Trace :=
  callsLocate ++ callsGet 3000 ++
  [callStale 3000 true; callHead (inl (infoA 3000));
   Call (dcache_updateMetadataIfChanged drive0 "b" "obj" (infoA 3000) (infoA 3000)) None].



Definition calls_down_N : Trace :=
  callsLocate ++ callsGet 3000 ++ [callStale 3000 true; callHead (inr BackendDown)].

Definition calls_down_I : Trace :=
  callsLocate ++ callsStat 3000 ++ [callStale 3000 true; callHead (inr BackendDown)].

(** ** More runs in the concrete world *)

(** The backend object was replaced: its ETag is B, the cached entry still
    has ETag A and has expired. *)
Definition infoB : ObjectInfo :=
  mkObjectInfo 2000 8192 "B" "text/plain" "" timeSentinel ∅.

Definition w_changed : World :=
  mkWorld 5000 true [("b", "obj", infoB)]
    [onlineDrive drive0 [("b", "obj", infoA 3000)]] [].

Definition readerB : GetObjectReader := mkReader 1 infoB.

Definition calls_changed_N : Trace :=
  callsLocate ++ callsGet 3000 ++
  [callStale 3000 true; callHead (inl infoB);
   Call (reader_Close (readerA 3000)) None;
   Call (cLock_GetLock "b" "obj" globalObjectTimeout) None;
   Call (dcache_Delete drive0 "b" "obj") None;
   Call (cLock_Unlock "b" "obj") tt;
   Call (dcache_diskUsageLow drive0) true;
   Call (dcache_diskAvailable drive0 8192) true;
   Call (GetObjectNInfoFn "b" "obj" None [] noLock opts0) (inl readerB);
   Call io_Pipe 0%nat;
   Call (go (teeFillTask drive0 "b" "obj" 0%nat readerB)) tt;
   Call (NewGetObjectReaderFromReader (TeeReader (readerOf readerB) 0%nat) infoB None
           [closeReader readerB; closePipeReader 0%nat]) (inl (mkReader 3 infoB))].

Definition calls_changed_I : Trace :=
  callsLocate ++ callsStat 3000 ++
  [callStale 3000 true; callHead (inl infoB);
   Call (cLock_GetLock "b" "obj" globalObjectTimeout) None;
   Call (dcache_Delete drive0 "b" "obj") None;
   Call (cLock_Unlock "b" "obj") tt].

(** A backend that refuses the request. *)
Definition accessDenied : error := errorString "Access Denied".

Definition deniedH : Handler World := fun T e =>
  match e in CacheE T0 return World -> World * T0 with
  | GetObjectInfoFn _ _ _ => fun w => (w, inr accessDenied)
  | e' => worldH _ e'
  end.

Definition calls_denied_N : Trace :=
  callsLocate ++ callsGet 3000 ++ [callStale 3000 true; callHead (inr accessDenied)].

Definition calls_denied_I : Trace :=
  callsLocate ++ callsStat 3000 ++ [callStale 3000 true; callHead (inr accessDenied)].

(** An object encrypted with a key of the client, which is not cacheable;
    the drive is empty. *)
Definition infoSSE : ObjectInfo :=
  mkObjectInfo 1000 4096 "S" "text/plain" "" timeSentinel
    (<["X-Amz-Server-Side-Encryption-Customer-Algorithm" := "AES256"]> ∅).

Definition w_sse : World :=
  mkWorld 5000 true [("b", "obj", infoSSE)] [onlineDrive drive0 []] [].

Definition calls_sse_pre : Trace :=
  [Call migMutex_Lock tt; Call load_migrating false; Call migMutex_Unlock tt;
   Call (dcache_IsOnline drive0) true; Call (dcache_Exists drive0 "b" "obj") false;
   Call (cLock_GetRLock "b" "obj" globalObjectTimeout) None;
   Call (dcache_Get drive0 "b" "obj" None [] opts0) (inr (ObjectNotFound "b" "obj"));
   Call (cLock_RUnlock "b" "obj") tt].

Definition calls_sse_N : Trace :=
  calls_sse_pre ++
  [callHead (inl infoSSE);
   Call (GetObjectNInfoFn "b" "obj" None [] noLock opts0) (inl (mkReader 1 infoSSE))].

(** The world of [w_affinity] once the backend object is deleted: the entry
    of b/obj is still on drive 2. *)
Definition w_deleted : World :=
  mkWorld 5000 true [] [onlineDrive drive0 []; onlineDrive drive2 [("b", "obj", infoA 9000)]] [].

Definition calls_delete_affinity : Trace :=
  [Call (DeleteObjectFn "b" "obj") None;
   Call migMutex_Lock tt; Call load_migrating false; Call migMutex_Unlock tt;
   Call (dcache_IsOnline drive0) true; Call (dcache_Exists drive0 "b" "obj") false].

(** A start-up with three configured drives, the second of which has no
    format. *)
Definition config0 : CacheConfig :=
  mkCacheConfig ["/mnt/cache0"; "/mnt/cache1"; "/mnt/cache2"] 90 80 ["secret/*"].

Definition formats0 : list (option unit) := [Some tt; None; Some tt].

Definition bootH : forall T : Type, Boot.BootE unit T -> unit -> unit * T := fun T e =>
  match e in Boot.BootE _ T0 return unit -> unit * T0 with
  | Boot.loadAndValidateCacheFormat _ => fun w => (w, (formats0, false, None))
  | Boot.checkAtimeSupport _ => fun w => (w, None)
  | Boot.newdiskCache dir _ _ => fun w => (w, inl (mkDiskCache dir))
  | Boot.go_purge _ => fun w => (w, tt)
  end.

(** * Properties *)

Section Running.
Context `{Externals}.
Context {W : Type} (h : Handler W).

Lemma run_bind {A B : Type} (p : Prog A) (f : A -> Prog B) (m : bool) (w : W) :
  run h (bind p f) m w = andThen (run h p m w) (fun a m' w' => run h (f a) m' w').
Proof.
  revert m w. induction p as [a | msg | T e k IH]; intros m w.
  - unfold andThen. simpl. destruct (run h (f a) m w); reflexivity.
  - reflexivity.
  - simpl. rewrite IH. unfold andThen. simpl.
    destruct (outcome (run h (k _) _ _)); reflexivity.
Qed.

End Running.

(** ** The hash index *)

(** The check value of CRC-32/IEEE. *)
Example crc32_check_value : crc32_ChecksumIEEE "123456789" = 0xCBF43926.
Proof. reflexivity. Qed.

Example HasSuffix_directory :
  HasSuffix "photos/" SlashSeparator = true /\ HasSuffix "photos/a.jpg" SlashSeparator = false /\
  HasSuffix "" SlashSeparator = false.
Proof. split; [reflexivity |]. split; reflexivity. Qed.

Example isCacheExclude_examples :
  CacheObjects.isCacheExclude c3 "secret" "k" = true /\
  CacheObjects.isCacheExclude c3 "b" "dir/" = true /\
  CacheObjects.isCacheExclude c3 "b" "obj" = false.
Proof. split; [reflexivity |]. split; reflexivity. Qed.

Lemma crc32_shift_nonneg (crc : Z) : 0 <= crc -> 0 <= crc32_shift crc.
Proof.
  intros Hc. unfold crc32_shift.
  assert (0 <= Z.shiftr crc 1) by (apply Z.shiftr_nonneg; exact Hc).
  destruct (Z.testbit crc 0); [apply Z.lxor_nonneg; lia | assumption].
Qed.

Lemma crc32_byte_nonneg (crc : Z) (b : ascii) : 0 <= crc -> 0 <= crc32_byte crc b.
Proof.
  intros Hc. unfold crc32_byte.
  assert (H0 : 0 <= Z.lxor crc (Z.of_N (N_of_ascii b))) by (apply Z.lxor_nonneg; lia).
  revert H0. generalize (Z.lxor crc (Z.of_N (N_of_ascii b))). intros z Hz.
  simpl. repeat apply crc32_shift_nonneg. exact Hz.
Qed.

Lemma crc32_ChecksumIEEE_nonneg (key : string) : 0 <= crc32_ChecksumIEEE key.
Proof.
  unfold crc32_ChecksumIEEE. apply Z.lxor_nonneg.
  assert (Hfold : forall l acc, 0 <= acc -> 0 <= fold_left crc32_byte l acc).
  { induction l as [| b l IH]; intros acc Hacc; simpl; [exact Hacc |].
    apply IH, crc32_byte_nonneg, Hacc. }
  split; intros _; [lia | apply Hfold; lia].
Qed.

Lemma crcHashMod_range (key : string) (n : Z) : 0 < n -> 0 <= crcHashMod key n < n.
Proof.
  intros Hn. unfold crcHashMod.
  destruct (Z.leb_spec n 0); [lia |]. apply Z.mod_pos_bound. exact Hn.
Qed.

(** ** The circular walk of the router *)

Lemma find_first {A : Type} (P : A -> bool) (l : list A) (x : A) :
  find P l = Some x <->
  exists i : nat, l !! i = Some x /\ P x = true /\
    forall (j : nat) (y : A), (j < i)%nat -> l !! j = Some y -> P y = false.
Proof.
  induction l as [| a l IH]; simpl.
  - split; [discriminate | intros (i & Hi & _); destruct i; discriminate].
  - destruct (P a) eqn:Pa.
    + split.
      * intros [= ->]. exists 0%nat. repeat split; [exact Pa |]. intros j y Hj. lia.
      * intros (i & Hi & Px & Hfirst). destruct i as [| i]; [exact Hi |].
        specialize (Hfirst 0%nat a ltac:(lia) eq_refl). congruence.
    + rewrite IH. split.
      * intros (i & Hi & Px & Hfirst). exists (S i). repeat split; [exact Hi | exact Px |].
        intros [| j] y Hj Hy; [simpl in Hy; congruence |].
        apply (Hfirst j); [lia | exact Hy].
      * intros (i & Hi & Px & Hfirst). destruct i as [| i].
        -- simpl in Hi. congruence.
        -- exists i. repeat split; [exact Hi | exact Px |].
           intros j y Hj Hy. apply (Hfirst (S j)); [lia | exact Hy].
Qed.

Lemma find_nothing {A : Type} (P : A -> bool) (l : list A) :
  find P l = None <-> forall (i : nat) (y : A), l !! i = Some y -> P y = false.
Proof.
  induction l as [| a l IH]; simpl.
  - split; [intros _ i y Hi; destruct i; discriminate | reflexivity].
  - destruct (P a) eqn:Pa.
    + split; [discriminate |]. intros Hall. specialize (Hall 0%nat a eq_refl). congruence.
    + rewrite IH. split.
      * intros Hall [| i] y Hi; [simpl in Hi; congruence | exact (Hall i y Hi)].
      * intros Hall i y Hi. exact (Hall (S i) y Hi).
Qed.

Section Walk.
Context `{Externals}.
Variables (c : cacheObjects) (bucket object : string).

Lemma hashIndex_range :
  (0 < length (cache c))%nat ->
  0 <= CacheObjects.hashIndex c bucket object < CacheObjects.numDisks c.
Proof.
  intros Hlen. unfold CacheObjects.hashIndex, CacheObjects.numDisks.
  apply crcHashMod_range. lia.
Qed.

Lemma scan_walk (k : nat) :
  (k < length (cache c))%nat -> circularScan c bucket object !! k = walk c bucket object k.
Proof.
  intros Hk. unfold circularScan, walk.
  rewrite lookup_rotate_r by exact Hk. unfold rotate_nat_add.
  pose proof (hashIndex_range ltac:(lia)) as Hidx.
  rewrite Z2Nat.id by lia. reflexivity.
Qed.

Lemma slot_walk (k : nat) :
  (k < length (cache c))%nat ->
  CacheObjects.slot c (Z.rem (CacheObjects.hashIndex c bucket object + Z.of_nat k)
                             (CacheObjects.numDisks c)) = walk c bucket object k.
Proof.
  intros Hk. pose proof (hashIndex_range ltac:(lia)) as Hidx.
  unfold CacheObjects.slot, walk.
  rewrite Z.rem_mod_nonneg by (unfold CacheObjects.numDisks in *; lia).
  pose proof (Z.mod_pos_bound
    (CacheObjects.hashIndex c bucket object + Z.of_nat k) (CacheObjects.numDisks c)
    ltac:(lia)) as Hm.
  destruct (Z.ltb_spec ((CacheObjects.hashIndex c bucket object + Z.of_nat k)
                        mod CacheObjects.numDisks c) 0); [lia | reflexivity].
Qed.

Lemma walk_some (k : nat) :
  (k < length (cache c))%nat -> exists s, walk c bucket object k = Some s.
Proof.
  intros Hk. rewrite <- scan_walk by exact Hk.
  apply lookup_lt_is_Some_2. unfold circularScan. rewrite length_rotate. exact Hk.
Qed.

Lemma scan_drop (k : nat) (s : option diskCache) :
  (k < length (cache c))%nat -> walk c bucket object k = Some s ->
  drop k (circularScan c bucket object) = s :: drop (S k) (circularScan c bucket object).
Proof.
  intros Hk Hs. rewrite <- scan_walk in Hs by exact Hk.
  apply drop_S. exact Hs.
Qed.

(** Every slot is visited by the walk. *)
Lemma walk_covers (i : nat) (s : option diskCache) :
  cache c !! i = Some s -> exists k : nat, (k < length (cache c))%nat /\ walk c bucket object k = Some s.
Proof.
  intros Hi. pose proof (lookup_lt_Some _ _ _ Hi) as Hlt.
  pose proof (hashIndex_range ltac:(lia)) as Hidx.
  unfold CacheObjects.numDisks in Hidx.
  set (N := Z.of_nat (length (cache c))) in *.
  set (idx := CacheObjects.hashIndex c bucket object) in *.
  exists (Z.to_nat ((Z.of_nat i - idx) mod N)).
  pose proof (Z.mod_pos_bound (Z.of_nat i - idx) N ltac:(lia)) as Hm.
  split; [lia |]. unfold walk. fold idx. unfold CacheObjects.numDisks. fold N.
  rewrite Z2Nat.id by lia.
  rewrite Zplus_mod_idemp_r.
  replace (idx + (Z.of_nat i - idx)) with (Z.of_nat i) by lia.
  rewrite Z.mod_small by lia. rewrite Nat2Z.id. exact Hi.
Qed.

End Walk.

Section RouterRuns.
Context `{Externals}.
Context {W : Type} (h : Handler W).
Variables (c : cacheObjects) (bucket object : string).

Local Abbreviation index := (CacheObjects.hashIndex c bucket object).
Local Abbreviation scan := (circularScan c bucket object).

(** Whatever the drives answer, the walks only probe, return, and leave the
    migration flag alone. *)
Lemma getCacheLoc_loop_shape (n k : nat) (m : bool) (w : W) :
  (k + n = length (cache c))%nat ->
  let r := run h (CacheObjects.getCacheLoc_loop c index n (Z.of_nat k)) m w in
  migrating r = m /\ Forall (fun en => isProbeCall en = true) (trace r) /\
  exists x, outcome r = Returned x.
Proof.
  revert k w. induction n as [| n IH]; intros k w Hkn; cbn [CacheObjects.getCacheLoc_loop run bind trigger].
  - repeat split; [constructor | eexists; reflexivity].
  - rewrite (slot_walk c bucket object k) by lia.
    destruct (walk_some c bucket object k ltac:(lia)) as [s Hs]. rewrite Hs.
    replace (Z.of_nat k + 1) with (Z.of_nat (S k)) by lia.
    destruct s as [d |]; [| apply IH; lia].
    simpl. destruct (h bool (dcache_IsOnline d) w) as [w1 on] eqn:Eon. simpl.
    destruct on; simpl.
    + repeat split; [repeat constructor | eexists; reflexivity].
    + destruct (IH (S k) w1 ltac:(lia)) as (Hm & Htr & Hout).
      repeat split; [exact Hm | constructor; [reflexivity | exact Htr] | exact Hout].
Qed.

Lemma getCacheToLoc_loop_shape (n k : nat) (acc : option diskCache) (m : bool) (w : W) :
  (k + n = length (cache c))%nat ->
  let r := run h (CacheObjects.getCacheToLoc_loop c bucket object index n (Z.of_nat k) acc)
               m w in
  migrating r = m /\ Forall (fun en => isProbeCall en = true) (trace r) /\
  exists x, outcome r = Returned x /\
    match x with
    | inl d => acc = Some d \/ In (Call (dcache_IsOnline d) true) (trace r)
    | inr _ => acc = None /\ forall d, ~ In (oOnline d true) (map observe (trace r))
    end.
Proof.
  revert k acc w. induction n as [| n IH]; intros k acc w Hkn;
    cbn [CacheObjects.getCacheToLoc_loop run bind trigger].
  - destruct acc; repeat split; try constructor; eexists; (split; [reflexivity |]);
      [left; reflexivity | split; [reflexivity | intros d []]].
  - rewrite (slot_walk c bucket object k) by lia.
    destruct (walk_some c bucket object k ltac:(lia)) as [s Hs]. rewrite Hs.
    replace (Z.of_nat k + 1) with (Z.of_nat (S k)) by lia.
    destruct s as [d |]; [| apply IH; lia].
    simpl. destruct (h bool (dcache_IsOnline d) w) as [w1 on] eqn:Eon. simpl.
    destruct on; simpl.
    + destruct (h bool (dcache_Exists d bucket object) w1) as [w2 ex] eqn:Eex. simpl.
      destruct ex; simpl.
      * repeat split; [repeat constructor |]. eexists; split; [reflexivity |].
        right. left. reflexivity.
      * destruct (IH (S k) (match acc with Some _ => acc | None => Some d end) w2 ltac:(lia))
          as (Hm & Htr & x & Hout & Hx).
        repeat split; [exact Hm | repeat (constructor; [reflexivity |]); exact Htr |].
        exists x. split; [exact Hout |]. destruct x as [d' | e].
        -- destruct Hx as [Hacc | Hin].
           ++ destruct acc as [d0 |]; [left; exact Hacc |].
              injection Hacc as <-. right. left. reflexivity.
           ++ right. right. right. exact Hin.
        -- destruct Hx as [Hacc _]. destruct acc; discriminate.
    + destruct (IH (S k) acc w1 ltac:(lia)) as (Hm & Htr & x & Hout & Hx).
      repeat split; [exact Hm | constructor; [reflexivity | exact Htr] |].
      exists x. split; [exact Hout |]. destruct x as [d' | e].
      * destruct Hx as [Hacc | Hin]; [left; exact Hacc | right; right; exact Hin].
      * destruct Hx as [Hacc Hno]. split; [exact Hacc |].
        intros d' [Hd | Hd]; [discriminate | exact (Hno d' Hd)].
Qed.

(** With the drives' states fixed, the walks compute the first usable slot
    of what is left of the circular scan. *)
Section Fixed.
Variables (online has : diskCache -> bool) (w : W).
Hypothesis IsOnline_fixed : forall d, h bool (dcache_IsOnline d) w = (w, online d).
Hypothesis Exists_fixed : forall d, h bool (dcache_Exists d bucket object) w = (w, has d).

Lemma getCacheLoc_loop_fixed (n k : nat) (m : bool) :
  (k + n = length (cache c))%nat ->
  let r := run h (CacheObjects.getCacheLoc_loop c index n (Z.of_nat k)) m w in
  outcome r = Returned (firstUsable online (drop k scan)) /\ world r = w.
Proof.
  revert k. induction n as [| n IH]; intros k Hkn; cbn [CacheObjects.getCacheLoc_loop run bind trigger].
  - rewrite drop_ge by (unfold circularScan; rewrite length_rotate; lia).
    split; reflexivity.
  - rewrite (slot_walk c bucket object k) by lia.
    destruct (walk_some c bucket object k ltac:(lia)) as [s Hs]. rewrite Hs.
    rewrite (scan_drop c bucket object k s) by (lia || exact Hs).
    replace (Z.of_nat k + 1) with (Z.of_nat (S k)) by lia.
    unfold firstUsable. simpl find.
    destruct s as [d |]; simpl usable; [| apply IH; lia].
    simpl. rewrite IsOnline_fixed. simpl.
    destruct (online d); simpl; [split; reflexivity | apply IH; lia].
Qed.

Lemma getCacheToLoc_loop_fixed (n k : nat) (acc : option diskCache) (m : bool) :
  (k + n = length (cache c))%nat ->
  let r := run h (CacheObjects.getCacheToLoc_loop c bucket object index n (Z.of_nat k) acc)
               m w in
  outcome r =
    Returned (match find (holding online has) (drop k scan) with
              | Some (Some d) => inl d
              | _ => match acc with
                     | Some d => inl d
                     | None => firstUsable online (drop k scan)
                     end
              end) /\ world r = w.
Proof.
  revert k acc. induction n as [| n IH]; intros k acc Hkn; cbn [CacheObjects.getCacheToLoc_loop run bind trigger].
  - rewrite drop_ge by (unfold circularScan; rewrite length_rotate; lia).
    simpl. destruct acc; split; reflexivity.
  - rewrite (slot_walk c bucket object k) by lia.
    destruct (walk_some c bucket object k ltac:(lia)) as [s Hs]. rewrite Hs.
    rewrite (scan_drop c bucket object k s) by (lia || exact Hs).
    replace (Z.of_nat k + 1) with (Z.of_nat (S k)) by lia.
    unfold firstUsable. simpl find.
    destruct s as [d |]; simpl usable; simpl holding; [| apply IH; lia].
    simpl. rewrite IsOnline_fixed. simpl.
    destruct (online d) eqn:Eon; simpl.
    + rewrite Exists_fixed. simpl. destruct (has d) eqn:Ehas; simpl; [split; reflexivity |].
      destruct (IH (S k) (match acc with Some _ => acc | None => Some d end) ltac:(lia))
        as [Hout Hw].
      split; [| exact Hw]. rewrite Hout. unfold firstUsable.
      destruct (find (holding online has) (drop (S k) (circularScan c bucket object)))
        as [[d' |] |]; try reflexivity; destruct acc; reflexivity.
    + apply IH; lia.
Qed.

End Fixed.
End RouterRuns.

(** ** Reading traces *)

Section Traces.
Context `{Externals}.
Context {W : Type} (h : Handler W).

Lemma probe_observe (en : Entry) :
  isProbeCall en = true ->
  match observe en with oOnline _ _ | oOther => True | _ => False end.
Proof. destruct en as [T e a]. destruct e; simpl; intros Hp; (discriminate || exact I). Qed.

Lemma probe_not_backend (en : Entry) : isProbeCall en = true -> isBackendCall en = false.
Proof. destruct en as [T e a]. destruct e; simpl; intros Hp; (discriminate || reflexivity). Qed.

Lemma observed (P : Obs -> Prop) (tr : Trace) (o : Obs) :
  Forall (fun en => P (observe en)) tr -> In o (map observe tr) -> P o.
Proof.
  intros Hall Hin. apply List.in_map_iff in Hin. destruct Hin as (en & Hen & Hin).
  rewrite List.Forall_forall in Hall. rewrite <- Hen. apply Hall, Hin.
Qed.

Lemma probes_observe (tr : Trace) (o : Obs) :
  Forall (fun en => isProbeCall en = true) tr -> In o (map observe tr) ->
  match o with oOnline _ _ | oOther => True | _ => False end.
Proof.
  intros Hall. apply (observed (fun o => match o with oOnline _ _ | oOther => True | _ => False end)).
  eapply List.Forall_impl; [| exact Hall]. exact probe_observe.
Qed.

Lemma probes_not_backend (tr : Trace) :
  Forall (fun en => isProbeCall en = true) tr ->
  Forall (fun en => isBackendCall en = false) tr.
Proof. intros Hall. eapply List.Forall_impl; [| exact Hall]. exact probe_not_backend. Qed.

Lemma probes_filter_backend (tr : Trace) :
  Forall (fun en => isProbeCall en = true) tr -> List.filter isBackendCall tr = [].
Proof.
  induction 1 as [| en tr Hen _ IH]; [reflexivity |].
  simpl. rewrite (probe_not_backend en Hen). exact IH.
Qed.

(** A run that never calls the backend is the same under every backend. *)
Lemma run_agree {R : Type} (h' : Handler W) (p : Prog R) (m : bool) (w : W) :
  (forall T (e : CacheE T) w0, isBackendE e = false -> h' T e w0 = h T e w0) ->
  Forall (fun en => isBackendCall en = false) (trace (run h p m w)) ->
  run h' p m w = run h p m w.
Proof.
  intros Hagree. revert m w. induction p as [a | msg | T e k IH]; intros m w Hall.
  - reflexivity.
  - reflexivity.
  - simpl in Hall. inversion Hall as [| en tr Hen Htr]; subst.
    unfold isBackendCall in Hen. simpl in Hen.
    simpl. assert (Hstep : step h' e m w = step h e m w).
    { unfold step. rewrite (Hagree T e w Hen). reflexivity. }
    rewrite Hstep. rewrite (IH _ _ _ Htr). reflexivity.
Qed.

(** [bypass]: excluded objects do not read the flag; the others read it
    under the mutex. *)
Lemma bypass_run (c : cacheObjects) (bucket object : string) (m : bool) (w : W) :
  run h (CacheObjects.bypass c bucket object) m w =
  if CacheObjects.isCacheExclude c bucket object
  then mkRun m w [] (Returned true)
  else mkRun m w [Call migMutex_Lock tt; Call load_migrating m; Call migMutex_Unlock tt]
             (Returned m).
Proof.
  unfold CacheObjects.bypass. destruct (CacheObjects.isCacheExclude c bucket object);
    reflexivity.
Qed.

End Traces.

Ltac answer h :=
  match goal with
  | |- context [h ?T ?e ?w] =>
      let w' := fresh "w" in let a := fresh "a" in let E := fresh "E" in
      destruct (h T e w) as [w' a] eqn:E; cbn [fst snd] in *
  end.

Ltac branch h :=
  match goal with
  | |- context [run h ?p _ _] =>
      match p with
      | context [match ?x with _ => _ end] => destruct x eqn:?
      end
  end.

Ltac explore h :=
  repeat first
    [ progress cbn [run bind trigger step fst snd trace outcome world migrating negb errOf]
    | answer h
    | branch h ].


(** [H] says that an observation is in the observed trace: split it along
    the trace, and close the parts where it cannot be with [tac]. *)
Ltac in_cases H tac :=
  lazymatch type of H with
  | In _ (map observe (_ ++ _)) =>
      rewrite List.map_app in H; in_cases H tac
  | In _ (map observe (_ :: _)) =>
      cbn [List.map observe] in H; in_cases H tac
  | In _ (map observe []) => destruct H
  | In _ (_ ++ _) =>
      apply List.in_app_or in H; destruct H as [H | H]; in_cases H tac
  | In _ (_ :: _) =>
      destruct H as [H | H];
      [ try discriminate H; try (injection H; clear H; intros; subst)
      | in_cases H tac ]
  | In _ [] => destruct H
  | _ => try (tac H)
  end.

Ltac observe_in H tac :=
  apply (List.in_map observe) in H; cbn [observe] in H; in_cases H tac.

(** Open the run of a method up to the drive that the router located. *)
Ltac enter h c bucket object m w Hprobes :=
  rewrite run_bind, bypass_run;
  destruct (CacheObjects.isCacheExclude c bucket object) eqn:?;
  [| destruct m eqn:?];
  unfold andThen at 1; cbn [outcome trace migrating world];
  [| | rewrite run_bind;
       let Hshape := fresh "Hshape" in
       pose proof (getCacheToLoc_loop_shape h c bucket object (length (cache c)) 0 None
                     false w eq_refl) as Hshape;
       cbv zeta in Hshape; change (Z.of_nat 0) with 0 in Hshape;
       fold (CacheObjects.getCacheToLoc c bucket object) in Hshape;
       let m1 := fresh "m" in let w1 := fresh "w" in
       let tr1 := fresh "tr" in let out1 := fresh "out" in
       destruct (run h (CacheObjects.getCacheToLoc c bucket object) false w)
         as [m1 w1 tr1 out1];
       cbn [migrating trace outcome] in Hshape;
       let loc := fresh "loc" in
       let Hloc := fresh "Hloc" in
       destruct Hshape as (-> & Hprobes & [loc [-> Hloc]]);
       unfold andThen; cbn [outcome trace migrating world];
       destruct loc as [? | ?] ].

Ltac leaf := cbn [negb errOf] in *; try congruence.

Ltac find_in :=
  lazymatch goal with
  | |- In _ (_ ++ _) => apply List.in_or_app; first [left; find_in | right; find_in]
  | |- In _ (_ :: _) => first [left; reflexivity | right; find_in]
  | |- In _ _ => assumption
  end.

(** The last calls of a trace: reverse it and compute. *)
Ltac last_calls :=
  rewrite ?List.rev_app_distr; cbn [List.rev List.app];
  rewrite <- ?List.app_assoc; cbn [List.app].

Ltac close_with Hprobes :=
  fun H => apply (probes_observe _ _ Hprobes) in H; destruct H.

Ltac all_calls Hprobes :=
  repeat (apply Forall_app; split);
  repeat (apply Forall_cons; split; [reflexivity |]);
  try apply Forall_nil_2;
  try (apply probes_not_backend; exact Hprobes).

Section Coordinator.
Context `{Externals}.
Context {W : Type} (h : Handler W).

Lemma revalidate_quiet d bucket object rs hd lt opts cached m w :
  Forall (fun en => quiet (observe en))
    (trace (run h (CacheObjects.GetObjectNInfo_revalidate d bucket object rs hd lt opts
                     cached) m w)).
Proof.
  unfold CacheObjects.GetObjectNInfo_revalidate, CacheObjects.GetObjectNInfo_fill,
    CacheObjects.delete.
  explore h; repeat constructor.
Qed.

Lemma GetObjectNInfo_fresh c bucket object rs hd lt opts m w d cacheReader :
  let r := run h (CacheObjects.GetObjectNInfo c bucket object rs hd lt opts) m w in
  In (Call (dcache_Get d bucket object rs hd opts) (inl cacheReader)) (trace r) ->
  isEmpty (cacheControlOpts (ObjInfo cacheReader)) = false ->
  In (Call (cc_isStale (cacheControlOpts (ObjInfo cacheReader))
              (ModTime (ObjInfo cacheReader))) false) (trace r) ->
  outcome r = Returned (inl cacheReader) /\
  Forall (fun en => isBackendCall en = false) (trace r).
Proof.
  cbv zeta.
  remember (run h (CacheObjects.GetObjectNInfo c bucket object rs hd lt opts) m w)
    as R eqn:HR.
  revert HR. unfold CacheObjects.GetObjectNInfo.
  enter h c bucket object m w Hprobes;
    unfold CacheObjects.get, CacheObjects.freshByCacheControl;
    explore h; intros -> Hget Hcc Hstale; cbn [trace outcome] in *; leaf.
  all: observe_in Hget ltac:(fun H =>
         first [ apply (probes_observe _ _ Hprobes) in H; destruct H
               | apply (observed quiet _ _ (revalidate_quiet _ _ _ _ _ _ _ _ _ _)) in H;
                 destruct H ]).
  all: leaf.
  all: observe_in Hstale ltac:(fun H =>
         first [ apply (probes_observe _ _ Hprobes) in H; destruct H
               | apply (observed quiet _ _ (revalidate_quiet _ _ _ _ _ _ _ _ _ _)) in H;
                 destruct H ]).
  all: leaf.
  split; [reflexivity | all_calls Hprobes].
Qed.

Lemma GetObjectInfo_fresh c bucket object opts m w d cachedObjInfo :
  let r := run h (CacheObjects.GetObjectInfo c bucket object opts) m w in
  In (Call (dcache_Stat d bucket object) (inl cachedObjInfo)) (trace r) ->
  isEmpty (cacheControlOpts cachedObjInfo) = false ->
  In (Call (cc_isStale (cacheControlOpts cachedObjInfo) (ModTime cachedObjInfo)) false)
     (trace r) ->
  outcome r = Returned (inl cachedObjInfo) /\
  Forall (fun en => isBackendCall en = false) (trace r).
Proof.
  cbv zeta.
  remember (run h (CacheObjects.GetObjectInfo c bucket object opts) m w) as R eqn:HR.
  revert HR. unfold CacheObjects.GetObjectInfo.
  enter h c bucket object m w Hprobes;
    unfold CacheObjects.stat, CacheObjects.freshByCacheControl, CacheObjects.delete;
    explore h; intros -> Hget Hcc Hstale; cbn [trace outcome] in *; leaf.
  all: observe_in Hget ltac:(fun H => apply (probes_observe _ _ Hprobes) in H; destruct H).
  all: leaf.
  all: observe_in Hstale ltac:(fun H => apply (probes_observe _ _ Hprobes) in H; destruct H).
  all: leaf.
  split; [reflexivity | all_calls Hprobes].
Qed.

Lemma GetObjectNInfo_same_etag c bucket object rs hd lt opts m w d cacheReader objInfo :
  let r := run h (CacheObjects.GetObjectNInfo c bucket object rs hd lt opts) m w in
  backendDownError None = false ->
  In (Call (dcache_Get d bucket object rs hd opts) (inl cacheReader)) (trace r) ->
  In (Call (GetObjectInfoFn bucket object opts) (inl objInfo)) (trace r) ->
  IsCacheable objInfo = true ->
  ETag (ObjInfo cacheReader) = ETag objInfo ->
  outcome r = Returned (inl cacheReader) /\
  (exists a, In (Call (dcache_updateMetadataIfChanged d bucket object objInfo
                         (ObjInfo cacheReader)) a) (trace r)) /\
  List.filter isBackendCall (trace r) = [Call (GetObjectInfoFn bucket object opts) (inl objInfo)].
Proof.
  cbv zeta. intros Hnil.
  remember (run h (CacheObjects.GetObjectNInfo c bucket object rs hd lt opts) m w)
    as R eqn:HR.
  revert HR. unfold CacheObjects.GetObjectNInfo.
  enter h c bucket object m w Hprobes;
    unfold CacheObjects.get, CacheObjects.freshByCacheControl,
      CacheObjects.GetObjectNInfo_revalidate, CacheObjects.GetObjectNInfo_fill,
      CacheObjects.delete;
    explore h; intros -> Hget Hinfo Hcacheable Hetag; cbn [trace outcome] in *; leaf.
  all: observe_in Hget ltac:(close_with Hprobes); leaf.
  all: observe_in Hinfo ltac:(close_with Hprobes); leaf.
  all: try (rewrite Hetag, String.eqb_refl in *; discriminate).
  all: try (rewrite Hcacheable in *; discriminate).
  all: (split; [reflexivity | split; [eexists; find_in |]]).
  all: rewrite !List.filter_app, (probes_filter_backend _ Hprobes); reflexivity.
Qed.



Lemma GetObjectNInfo_backend_down c bucket object rs hd lt opts m w d cacheReader e :
  let r := run h (CacheObjects.GetObjectNInfo c bucket object rs hd lt opts) m w in
  In (Call (GetObjectInfoFn bucket object opts) (inr e)) (trace r) ->
  backendDownError (Some e) = true ->
  In (Call (dcache_Get d bucket object rs hd opts) (inl cacheReader)) (trace r) ->
  outcome r = Returned (inl cacheReader).
Proof.
  cbv zeta.
  remember (run h (CacheObjects.GetObjectNInfo c bucket object rs hd lt opts) m w)
    as R eqn:HR.
  revert HR. unfold CacheObjects.GetObjectNInfo.
  enter h c bucket object m w Hprobes;
    unfold CacheObjects.get, CacheObjects.freshByCacheControl,
      CacheObjects.GetObjectNInfo_revalidate, CacheObjects.GetObjectNInfo_fill,
      CacheObjects.delete;
    explore h; intros -> Hinfo Hdown Hget; cbn [trace outcome] in *; leaf.
  all: observe_in Hinfo ltac:(close_with Hprobes); leaf.
  all: observe_in Hget ltac:(close_with Hprobes); leaf.
Qed.

Lemma GetObjectInfo_backend_down c bucket object opts m w e :
  let r := run h (CacheObjects.GetObjectInfo c bucket object opts) m w in
  (forall b' o', backendDownError (Some (ObjectNotFound b' o')) = false) ->
  In (Call (GetObjectInfoFn bucket object opts) (inr e)) (trace r) ->
  backendDownError (Some e) = true ->
  (forall d oi, In (Call (dcache_Stat d bucket object) (inl oi)) (trace r) ->
                outcome r = Returned (inl oi)) /\
  ((exists e', In (Call (cLock_GetRLock bucket object globalObjectTimeout) (Some e'))
                  (trace r)) \/
   (exists d e', In (Call (dcache_Stat d bucket object) (inr e')) (trace r)) ->
   outcome r = Returned (inr BackendDown)) /\
  ((forall a, ~ In (Call (cLock_GetRLock bucket object globalObjectTimeout) a) (trace r)) ->
   outcome r = Returned (inr e)).
Proof.
  cbv zeta. intros Hnf.
  remember (run h (CacheObjects.GetObjectInfo c bucket object opts) m w) as R eqn:HR.
  revert HR. unfold CacheObjects.GetObjectInfo.
  enter h c bucket object m w Hprobes;
    unfold CacheObjects.stat, CacheObjects.freshByCacheControl, CacheObjects.delete;
    explore h; intros -> Hinfo Hdown; cbn [trace outcome] in *; leaf.
  all: observe_in Hinfo ltac:(close_with Hprobes); leaf.
  all: try (rewrite Hnf in Hdown; discriminate).
  all: try (rewrite Hdown in *; discriminate).
  all: split;
    [ intros d' oi' Hstat; observe_in Hstat ltac:(close_with Hprobes); leaf
    | split;
      [ intros [[e' Hlk] | [d' [e' Hstat]]];
        [ observe_in Hlk ltac:(close_with Hprobes); leaf
        | observe_in Hstat ltac:(close_with Hprobes); leaf ]
      | intros Hnone; first [ reflexivity | exfalso; eapply Hnone; find_in ] ] ].
Qed.

End Coordinator.

(** ** The router: first usable slot of the circular walk *)

Section RouterSpec.
Variables (c : cacheObjects) (bucket object : string).
Variable P : option diskCache -> bool.

Lemma scan_find_some (s : option diskCache) :
  find P (circularScan c bucket object) = Some s <->
  exists k : nat, (k < length (cache c))%nat /\ walk c bucket object k = Some s /\
    P s = true /\
    forall (j : nat) (s' : option diskCache),
      (j < k)%nat -> walk c bucket object j = Some s' -> P s' = false.
Proof.
  rewrite find_first. split.
  - intros (k & Hk & HP & Hfirst).
    assert (Hlt : (k < length (cache c))%nat).
    { apply lookup_lt_Some in Hk. unfold circularScan in Hk.
      rewrite length_rotate in Hk. exact Hk. }
    exists k. rewrite <- scan_walk by exact Hlt. repeat split; try assumption.
    intros j s' Hj Hs'. apply (Hfirst j s' Hj). rewrite scan_walk by lia. exact Hs'.
  - intros (k & Hlt & Hk & HP & Hfirst). exists k.
    rewrite scan_walk by exact Hlt. repeat split; try assumption.
    intros j s' Hj Hs'. apply (Hfirst j s' Hj). rewrite <- scan_walk by lia. exact Hs'.
Qed.

Lemma scan_find_none :
  find P (circularScan c bucket object) = None <->
  forall (i : nat) (s : option diskCache), cache c !! i = Some s -> P s = false.
Proof.
  rewrite find_nothing. split.
  - intros Hall i s Hi. destruct (walk_covers c bucket object i s Hi) as (k & Hk & Hw).
    apply (Hall k). rewrite scan_walk by exact Hk. exact Hw.
  - intros Hall k s Hk.
    assert (Hlt : (k < length (cache c))%nat).
    { apply lookup_lt_Some in Hk. unfold circularScan in Hk.
      rewrite length_rotate in Hk. exact Hk. }
    rewrite scan_walk in Hk by exact Hlt. unfold walk in Hk. exact (Hall _ s Hk).
Qed.

End RouterSpec.

(** C6. With the drive slice and the drives' online states fixed,
    [getCacheLoc] is a function of the object and those states alone: it
    returns the drive of the first slot, in the circular walk that starts at
    the hash index crc32(bucket/object) mod N, that is non-nil and online,
    and [errDiskNotFound] when no slot is non-nil and online. *)
Theorem getCacheLoc_first_online_slot `{Externals} {W : Type} (h : Handler W)
    (c : cacheObjects) (bucket object : string) (online : diskCache -> bool)
    (m : bool) (w : W) :
  (forall d, h bool (dcache_IsOnline d) w = (w, online d)) ->
  let r := run h (CacheObjects.getCacheLoc c bucket object) m w in
  outcome r = Returned (LocateForWrite online c bucket object) /\
  world r = w /\ migrating r = m /\
  CacheObjects.hashIndex c bucket object =
    crcHashMod (bucket ++ "/" ++ object)%string (Z.of_nat (length (cache c))) /\
  (forall d, LocateForWrite online c bucket object = inl d <->
     exists k : nat, (k < length (cache c))%nat /\
       walk c bucket object k = Some (Some d) /\ online d = true /\
       forall (j : nat) (s : option diskCache),
         (j < k)%nat -> walk c bucket object j = Some s -> usable online s = false) /\
  (forall e, LocateForWrite online c bucket object = inr e <->
     e = errDiskNotFound /\
     forall (i : nat) (s : option diskCache), cache c !! i = Some s -> usable online s = false).
Proof.
  intros Hon r.
  pose proof (getCacheLoc_loop_fixed h c bucket object online w Hon
                (length (cache c)) 0 m eq_refl) as Hfix.
  pose proof (getCacheLoc_loop_shape h c bucket object (length (cache c)) 0 m w eq_refl)
    as Hshape.
  cbv zeta in Hfix, Hshape. change (Z.of_nat 0) with 0 in Hfix, Hshape.
  rewrite drop_0 in Hfix. destruct Hfix as [Hout Hw]. destruct Hshape as (Hm & _).
  split; [exact Hout |]. split; [exact Hw |]. split; [exact Hm |].
  split; [reflexivity |].
  unfold LocateForWrite, firstUsable. split; [intros d | intros e]; split.
  - intros Hd.
    destruct (find (usable online) (circularScan c bucket object)) as [[d' |] |] eqn:Hf;
      try discriminate.
    injection Hd as ->. apply scan_find_some in Hf.
    destruct Hf as (k & Hk & Hwalk & HP & Hfirst). exists k.
    split; [exact Hk |]. split; [exact Hwalk |]. split; [exact HP | exact Hfirst].
  - intros (k & Hk & Hwalk & Hd & Hfirst).
    assert (Hf : find (usable online) (circularScan c bucket object) = Some (Some d)).
    { apply scan_find_some. exists k.
      split; [exact Hk |]. split; [exact Hwalk |]. split; [exact Hd | exact Hfirst]. }
    rewrite Hf. reflexivity.
  - intros He.
    destruct (find (usable online) (circularScan c bucket object)) as [[d' |] |] eqn:Hf;
      try discriminate.
    + apply find_some in Hf. destruct Hf as [_ Hf]. discriminate.
    + split; [congruence |]. exact (proj1 (scan_find_none c bucket object _) Hf).
  - intros [-> Hnone]. apply (proj2 (scan_find_none c bucket object _)) in Hnone.
    rewrite Hnone. reflexivity.
Qed.

(** C7. With the drives' states fixed, [getCacheToLoc] walks the slots
    circularly from the hash index and returns the first online drive on
    which the object exists; when no online drive holds the object, the
    first online drive of the walk; and [errDiskNotFound] when no drive is
    online. *)
Theorem getCacheToLoc_affinity_then_first_online `{Externals} {W : Type} (h : Handler W)
    (c : cacheObjects) (bucket object : string) (online has : diskCache -> bool)
    (m : bool) (w : W) :
  (forall d, h bool (dcache_IsOnline d) w = (w, online d)) ->
  (forall d, h bool (dcache_Exists d bucket object) w = (w, has d)) ->
  let r := run h (CacheObjects.getCacheToLoc c bucket object) m w in
  outcome r = Returned (LocateForRead online has c bucket object) /\
  world r = w /\ migrating r = m /\
  (forall d, LocateForRead online has c bucket object = inl d <->
     (exists k : nat, (k < length (cache c))%nat /\
        walk c bucket object k = Some (Some d) /\ online d = true /\ has d = true /\
        forall (j : nat) (s : option diskCache),
          (j < k)%nat -> walk c bucket object j = Some s -> holding online has s = false) \/
     ((forall (i : nat) (s : option diskCache),
          cache c !! i = Some s -> holding online has s = false) /\
      exists k : nat, (k < length (cache c))%nat /\
        walk c bucket object k = Some (Some d) /\ online d = true /\
        forall (j : nat) (s : option diskCache),
          (j < k)%nat -> walk c bucket object j = Some s -> usable online s = false)) /\
  (forall e, LocateForRead online has c bucket object = inr e <->
     e = errDiskNotFound /\
     forall (i : nat) (s : option diskCache), cache c !! i = Some s -> usable online s = false).
Proof.
  intros Hon Hex r.
  pose proof (getCacheToLoc_loop_fixed h c bucket object online has w Hon Hex
                (length (cache c)) 0 None m eq_refl) as Hfix.
  pose proof (getCacheToLoc_loop_shape h c bucket object (length (cache c)) 0 None m w
                eq_refl) as Hshape.
  cbv zeta in Hfix, Hshape. change (Z.of_nat 0) with 0 in Hfix, Hshape.
  rewrite drop_0 in Hfix. destruct Hfix as [Hout Hw]. destruct Hshape as (Hm & _).
  assert (Hweaker : forall s, usable online s = false -> holding online has s = false).
  { intros [d |] Hs; simpl in *; [rewrite Hs |]; reflexivity. }
  split; [exact Hout |]. split; [exact Hw |]. split; [exact Hm |].
  unfold LocateForRead, LocateForWrite, firstUsable. split; [intros d | intros e]; split.
  - intros Hd.
    destruct (find (holding online has) (circularScan c bucket object)) as [[d' |] |] eqn:Hf.
    + injection Hd as ->. left. apply scan_find_some in Hf.
      destruct Hf as (k & Hk & Hwalk & HP & Hfirst). simpl in HP.
      apply andb_prop in HP. destruct HP as [Hond Hhas].
      exists k. split; [exact Hk |]. split; [exact Hwalk |].
      split; [exact Hond |]. split; [exact Hhas | exact Hfirst].
    + apply find_some in Hf. destruct Hf as [_ Hf]. discriminate.
    + right. split; [exact (proj1 (scan_find_none c bucket object _) Hf) |].
      destruct (find (usable online) (circularScan c bucket object)) as [[d' |] |] eqn:Hu;
        try discriminate.
      injection Hd as ->. apply scan_find_some in Hu.
      destruct Hu as (k & Hk & Hwalk & HP & Hfirst). exists k.
      split; [exact Hk |]. split; [exact Hwalk |]. split; [exact HP | exact Hfirst].
  - intros [(k & Hk & Hwalk & Hond & Hhas & Hfirst) | (Hnone & k & Hk & Hwalk & Hond & Hfirst)].
    + assert (Hf : find (holding online has) (circularScan c bucket object) = Some (Some d)).
      { apply scan_find_some. exists k. split; [exact Hk |]. split; [exact Hwalk |].
        split; [| exact Hfirst]. simpl. rewrite Hond, Hhas. reflexivity. }
      rewrite Hf. reflexivity.
    + apply (proj2 (scan_find_none c bucket object _)) in Hnone. rewrite Hnone.
      assert (Hu : find (usable online) (circularScan c bucket object) = Some (Some d)).
      { apply scan_find_some. exists k. split; [exact Hk |]. split; [exact Hwalk |].
        split; [exact Hond | exact Hfirst]. }
      rewrite Hu. reflexivity.
  - intros He.
    destruct (find (holding online has) (circularScan c bucket object)) as [[d' |] |] eqn:Hf;
      try discriminate.
    + apply find_some in Hf. destruct Hf as [_ Hf]. discriminate.
    + destruct (find (usable online) (circularScan c bucket object)) as [[d' |] |] eqn:Hu;
        try discriminate.
      * apply find_some in Hu. destruct Hu as [_ Hu]. discriminate.
      * split; [congruence |]. exact (proj1 (scan_find_none c bucket object _) Hu).
  - intros [-> Hnone].
    assert (Hh : find (holding online has) (circularScan c bucket object) = None).
    { apply (proj2 (scan_find_none c bucket object _)).
      intros i s Hi. apply Hweaker, (Hnone i s Hi). }
    apply (proj2 (scan_find_none c bucket object _)) in Hnone.
    rewrite Hh, Hnone. reflexivity.
Qed.

(** ** Deletion *)

Section Deletion.
Context `{Externals}.
Context {W : Type} (h : Handler W).

Lemma getCacheLoc_shape (c : cacheObjects) (bucket object : string) (m : bool) (w : W) :
  let r := run h (CacheObjects.getCacheLoc c bucket object) m w in
  migrating r = m /\ Forall (fun en => isProbeCall en = true) (trace r) /\
  exists x, outcome r = Returned x.
Proof.
  exact (getCacheLoc_loop_shape h c bucket object (length (cache c)) 0 m w eq_refl).
Qed.

(** The run of [DeleteObject]: the backend's answer [a] comes first and is
    what is returned; after an error nothing else is called. *)
Lemma DeleteObject_run (c : cacheObjects) (bucket object : string) (m : bool) (w : W) :
  let r := run h (CacheObjects.DeleteObject c bucket object) m w in
  let a := snd (h _ (DeleteObjectFn bucket object) w) in
  exists rest,
    trace r = Call (DeleteObjectFn bucket object) a :: rest /\
    outcome r = Returned a /\
    migrating r = m /\
    Forall (fun en => isBackendCall en = false) rest /\
    (a <> None -> rest = [] /\ world r = fst (h _ (DeleteObjectFn bucket object) w)) /\
    (CacheObjects.isCacheExclude c bucket object = true \/ m = true ->
     Forall (fun en => isCacheCall en = false) rest).
Proof.
  cbv zeta.
  remember (run h (CacheObjects.DeleteObject c bucket object) m w) as R eqn:HR.
  revert HR. unfold CacheObjects.DeleteObject.
  cbn [run bind trigger step fst snd trace outcome world migrating].
  destruct (h (option error) (DeleteObjectFn bucket object) w) as [w0 a] eqn:E.
  cbn [fst snd]. destruct a as [err |].
  - cbn [run trace outcome world migrating]. intros ->. exists [].
    cbn [trace outcome world migrating].
    split; [reflexivity |]. split; [reflexivity |]. split; [reflexivity |].
    split; [constructor |].
    split; [intros _; split; reflexivity | intros _; constructor].
  - rewrite run_bind, bypass_run.
    destruct (CacheObjects.isCacheExclude c bucket object) eqn:Hexcl;
      [| destruct m eqn:Hm]; unfold andThen;
      cbn [run trace outcome world migrating].
    + intros ->. cbn [trace outcome world migrating]. eexists.
      split; [reflexivity |]. split; [reflexivity |]. split; [reflexivity |].
      split; [constructor |].
      split; [intros Hne; congruence | intros _; constructor].
    + intros ->. cbn [trace outcome world migrating]. eexists.
      split; [reflexivity |]. split; [reflexivity |]. split; [reflexivity |].
      split; [repeat constructor |].
      split; [intros Hne; congruence | intros _; repeat constructor].
    + rewrite run_bind.
      pose proof (getCacheLoc_shape c bucket object false w0) as Hshape.
      cbv zeta in Hshape.
      destruct (run h (CacheObjects.getCacheLoc c bucket object) false w0)
        as [m1 w1 tr1 out1].
      cbn [migrating trace outcome] in Hshape.
      destruct Hshape as (-> & Hprobes & [loc ->]).
      unfold andThen; cbn [outcome trace migrating world].
      destruct loc as [dcache | err]; unfold CacheObjects.delete; explore h.
      all: intros ->; cbn [trace outcome world migrating]; eexists.
      all: split; [reflexivity |]; split; [reflexivity |]; split; [reflexivity |].
      all: split; [all_calls Hprobes |].
      all: split; [intros Hne; congruence | intros [Hc | Hc]; discriminate].
Qed.

End Deletion.

Lemma last_cons {A : Type} (l : list A) (x d : A) :
  List.last (x :: l) d = List.last l x.
Proof.
  revert x d. induction l as [| y l IH]; intros x d; [reflexivity |].
  change (List.last (x :: y :: l) d) with (List.last (y :: l) d).
  rewrite (IH y d), (IH y x). reflexivity.
Qed.

Section Batch.
Context `{Externals}.
Context {W : Type} (h : Handler W).
Variables (c : cacheObjects) (bucket : string).

Lemma DeleteObject_returns (object : string) (m : bool) (w : W) :
  exists a, outcome (run h (CacheObjects.DeleteObject c bucket object) m w) = Returned a.
Proof.
  destruct (DeleteObject_run h c bucket object m w) as (rest & _ & Hout & _).
  eexists. exact Hout.
Qed.

(** The loop of [DeleteObjects] from index [idx] on: the slots before [idx]
    are kept, the others receive the results of the runs in order. *)
Lemma DeleteObjects_loop_run (objects : list string) (idx : nat)
    (errs : list (option error)) (m : bool) (w : W) :
  length errs = (idx + length objects)%nat ->
  let r := run h (CacheObjects.DeleteObjects_loop c bucket objects idx errs) m w in
  let runs := deleteEach h c bucket objects m w in
  exists es,
    outcome r = Returned (take idx errs ++ es) /\
    Forall2 (fun ri e => outcome ri = Returned e) runs es /\
    trace r = concat (map trace runs) /\
    migrating r = List.last (map migrating runs) m /\
    world r = List.last (map world runs) w.
Proof.
  revert idx errs m w. induction objects as [| object rest IH]; intros idx errs m w Hlen.
  - cbn. exists []. rewrite Nat.add_0_r in Hlen.
    rewrite app_nil_r, take_ge by lia.
    split; [reflexivity |]. split; [constructor |]. repeat split.
  - cbn [CacheObjects.DeleteObjects_loop deleteEach]. rewrite run_bind.
    destruct (DeleteObject_returns object m w) as [a Ha].
    remember (run h (CacheObjects.DeleteObject c bucket object) m w) as r1 eqn:Hr1.
    unfold andThen. rewrite Ha. cbn [length] in Hlen.
    destruct (IH (S idx) (<[idx := a]> errs) (migrating r1) (world r1)) as
      (es & Hout & Hall & Htr & Hm & Hw).
    { rewrite length_insert. lia. }
    cbv zeta in Hout, Hall, Htr, Hm, Hw.
    exists (a :: es). cbn [trace outcome migrating world map concat].
    split; [| split; [| split; [| split]]].
    + rewrite Hout. f_equal.
      rewrite (take_S_r _ _ a) by (apply list_lookup_insert_eq; lia).
      rewrite take_insert_ge by lia. rewrite <- app_assoc. reflexivity.
    + constructor; [exact Ha | exact Hall].
    + rewrite Htr. reflexivity.
    + rewrite Hm, last_cons. reflexivity.
    + rewrite Hw, last_cons. reflexivity.
Qed.

End Batch.

(** C10. [DeleteObjects] returns one error per object, the i-th being what
    [DeleteObject] returns for the i-th object when the objects are
    processed one after the other in input order, and a nil second result. *)
Theorem DeleteObjects_one_result_per_object `{Externals} {W : Type} (h : Handler W)
    (c : cacheObjects) (bucket : string) (objects : list string) (m : bool) (w : W) :
  let r := run h (CacheObjects.DeleteObjects c bucket objects) m w in
  let runs := deleteEach h c bucket objects m w in
  exists errs : list (option error),
    outcome r = Returned (errs, None) /\
    length errs = length objects /\
    Forall2 (fun ri e => outcome ri = Returned e) runs errs /\
    (forall (i : nat) (object : string),
        objects !! i = Some object ->
        exists ri e, runs !! i = Some ri /\ errs !! i = Some e /\ outcome ri = Returned e /\
          ri = run h (CacheObjects.DeleteObject c bucket object)
                   (List.last (map migrating (take i runs)) m)
                   (List.last (map world (take i runs)) w)) /\
    trace r = concat (map trace runs).
Proof.
  cbv zeta. unfold CacheObjects.DeleteObjects. rewrite run_bind.
  destruct (DeleteObjects_loop_run h c bucket objects 0 (replicate (length objects) None)
              m w) as (es & Hout & Hall & Htr & Hm & Hw).
  { rewrite length_replicate. reflexivity. }
  cbv zeta in Hout, Hall, Htr, Hm, Hw. rewrite take_0, app_nil_l in Hout.
  unfold andThen. rewrite Hout. cbn [run trace outcome migrating world].
  exists es. split; [reflexivity |].
  assert (Hlen : length (deleteEach h c bucket objects m w) = length objects).
  { clear. revert m w. induction objects as [| o rest IH]; intros m w; simpl;
      [reflexivity | rewrite IH; reflexivity]. }
  split; [rewrite <- (Forall2_length _ _ _ Hall); exact Hlen |].
  split; [exact Hall |].
  split; [| rewrite Htr, app_nil_r; reflexivity].
  clear Hout Htr Hm Hw Hlen. revert m w es Hall.
  induction objects as [| o rest IH]; intros m w es Hall i object Hi.
  - destruct i; discriminate.
  - cbn [deleteEach] in *. inversion Hall as [| r1 e1 runs' es' He1 Hrest]; subst.
    destruct i as [| i].
    + injection Hi as <-. exists (run h (CacheObjects.DeleteObject c bucket o) m w), e1.
      repeat split; [exact He1].
    + cbn in Hi. destruct (IH _ _ _ Hrest i object Hi) as (ri & e & Hri & He & Hout & Heq).
      exists ri, e. split; [exact Hri |]. split; [exact He |]. split; [exact Hout |].
      rewrite Heq. cbn [take map]. rewrite !last_cons. reflexivity.
Qed.

(** ** Migration *)

Lemma errCnt_from (errs : list (option error)) (acc : Z) :
  let n := fold_left (fun cnt err => match err with Some _ => cnt + 1 | None => cnt end)
                     errs acc in
  acc <= n /\ (acc < n <-> exists (i : nat) (e : error), errs !! i = Some (Some e)).
Proof.
  revert acc. induction errs as [| err errs IH]; intros acc; simpl.
  - split; [lia |]. split; [lia | intros (i & e & Hi); destruct i; discriminate].
  - destruct err as [e0 |].
    + destruct (IH (acc + 1)) as [Hle Hiff]. split; [lia |].
      split; [intros _; exists 0%nat, e0; reflexivity | intros _; lia].
    + destruct (IH acc) as [Hle Hiff]. split; [exact Hle |]. rewrite Hiff. split.
      * intros (i & e & Hi). exists (S i), e. exact Hi.
      * intros (i & e & Hi). destruct i as [| i]; [discriminate |]. exists i, e. exact Hi.
Qed.

Lemma errCnt_positive (errs : list (option error)) :
  (CacheObjects.errCnt errs >? 0) = true <->
  exists (i : nat) (e : error), errs !! i = Some (Some e).
Proof.
  unfold CacheObjects.errCnt. destruct (errCnt_from errs 0) as [_ Hiff].
  cbv zeta in Hiff. rewrite <- Hiff. rewrite Z.gtb_lt. reflexivity.
Qed.

Section Migration.
Context `{Externals}.
Context {W : Type} (h : Handler W).

Lemma migrate_call_answer (d d' : diskCache) (a a' : option error) :
  Call (migrateOldCache d) a = Call (migrateOldCache d') a' -> d = d' /\ a = a'.
Proof.
  intros Heq. apply (f_equal observe) in Heq. cbn in Heq. injection Heq as -> ->.
  split; reflexivity.
Qed.

Lemma migrate_loop_run (slots : list (option diskCache)) (idx : nat)
    (errs : list (option error)) (m : bool) (w : W) :
  length errs = (idx + length slots)%nat ->
  let r := run h (CacheObjects.migrate_loop slots idx errs) m w in
  migrating r = m /\
  (forall d, In (Some d) slots -> exists a, In (Call (migrateOldCache d) a) (trace r)) /\
  exists errs',
    outcome r = Returned errs' /\
    ((exists (i : nat) (e : error), errs' !! i = Some (Some e)) <->
     (exists (i : nat) (e : error), errs !! i = Some (Some e)) \/
     (exists d e, In (Call (migrateOldCache d) (Some e)) (trace r))).
Proof.
  revert idx errs w. induction slots as [| s slots IH]; intros idx errs w Hlen.
  - cbn. split; [reflexivity |]. split; [intros d [] |]. exists errs.
    split; [reflexivity |]. split; [intros Herr; left; exact Herr |].
    intros [Herr | (d & e & [])]. exact Herr.
  - cbn [length] in Hlen. destruct s as [dc |].
    + cbn [CacheObjects.migrate_loop run bind trigger step fst snd].
      destruct (h (option error) (migrateOldCache dc) w) as [w1 a] eqn:E. cbn [fst snd].
      destruct a as [err |]; cbn [run bind trigger step fst snd trace outcome migrating].
      * destruct (h unit (logger_LogIf (Some err)) w1) as [w2 u] eqn:E2. cbn [fst snd].
        destruct (IH (S idx) (<[idx := Some err]> errs) w2) as (Hm & Hall & errs' & Hout & Hiff).
        { rewrite length_insert. lia. }
        cbv zeta in Hm, Hall, Hout, Hiff.
        split; [exact Hm |]. split.
        -- intros d [Hd | Hd].
           ++ injection Hd as <-. eexists. left. reflexivity.
           ++ destruct (Hall d Hd) as [a Ha]. exists a. right. right. exact Ha.
        -- exists errs'. split; [exact Hout |]. rewrite Hiff. split.
           ++ intros [(i & e & Hi) | (d & e & Hin)].
              ** right. exists dc, err. left. reflexivity.
              ** right. exists d, e. right. right. exact Hin.
           ++ intros [(i & e & Hi) | (d & e & Hin)].
              ** left. destruct (Nat.eq_dec i idx) as [-> | Hne].
                 --- exists idx, err. apply list_lookup_insert_eq. lia.
                 --- exists i, e. rewrite list_lookup_insert_ne by congruence. exact Hi.
              ** destruct Hin as [Heq | [Heq | Hin]].
                 --- left. exists idx, err. apply list_lookup_insert_eq. lia.
                 --- apply (f_equal observe) in Heq. discriminate.
                 --- right. exists d, e. exact Hin.
      * destruct (h unit (go (purgeTask dc)) w1) as [w2 u] eqn:E2. cbn [fst snd].
        destruct (IH (S idx) errs w2) as (Hm & Hall & errs' & Hout & Hiff); [lia |].
        cbv zeta in Hm, Hall, Hout, Hiff.
        split; [exact Hm |]. split.
        -- intros d [Hd | Hd].
           ++ injection Hd as <-. eexists. left. reflexivity.
           ++ destruct (Hall d Hd) as [a Ha]. exists a. right. right. exact Ha.
        -- exists errs'. split; [exact Hout |]. rewrite Hiff. split.
           ++ intros [Herr | (d & e & Hin)]; [left; exact Herr |].
              right. exists d, e. right. right. exact Hin.
           ++ intros [Herr | (d & e & Hin)]; [left; exact Herr |].
              destruct Hin as [Heq | [Heq | Hin]].
              ** apply migrate_call_answer in Heq. destruct Heq as [_ Heq]. discriminate.
              ** apply (f_equal observe) in Heq. discriminate.
              ** right. exists d, e. exact Hin.
    + cbn [CacheObjects.migrate_loop].
      destruct (IH (S idx) errs w) as (Hm & Hall & errs' & Hout & Hiff); [lia |].
      cbv zeta in Hm, Hall, Hout, Hiff.
      split; [exact Hm |]. split.
      * intros d [Hd | Hd]; [discriminate | exact (Hall d Hd)].
      * exists errs'. split; [exact Hout | exact Hiff].
Qed.

(** [migrateCacheFromV1toV2]: every drive's migration is run; the flag is
    cleared, under the mutex, exactly when none of them failed. *)
Lemma migrateCacheFromV1toV2_run (c : cacheObjects) (m : bool) (w : W) :
  let r := run h (CacheObjects.migrateCacheFromV1toV2 c) m w in
  (forall d, In (Some d) (cache c) -> exists a, In (Call (migrateOldCache d) a) (trace r)) /\
  ((forall d e, ~ In (Call (migrateOldCache d) (Some e)) (trace r)) ->
   migrating r = false /\
   (exists u1 u2 u3 u4 rest,
       List.rev (trace r) =
       Call migMutex_Unlock u4 ::
       Call (logger_StartupMessage "Cache migration completed successfully.") u3 ::
       Call (store_migrating false) u2 :: Call migMutex_Lock u1 :: rest) /\
   outcome (run h CacheObjects.skipCache (migrating r) (world r)) = Returned false) /\
  ((exists d e, In (Call (migrateOldCache d) (Some e)) (trace r)) ->
   migrating r = m /\
   outcome (run h CacheObjects.skipCache (migrating r) (world r)) = Returned m).
Proof.
  cbv zeta.
  remember (run h (CacheObjects.migrateCacheFromV1toV2 c) m w) as R eqn:HR.
  revert HR. unfold CacheObjects.migrateCacheFromV1toV2.
  cbn [run bind trigger step fst snd].
  destruct (h unit (logger_StartupMessage "Cache migration initiated ....") w)
    as [w0 u0] eqn:E0.
  cbn [fst snd]. rewrite run_bind.
  destruct (migrate_loop_run (cache c) 0 (replicate (length (cache c)) None) m w0)
    as (Hm & Hall & errs' & Hout & Hiff).
  { rewrite length_replicate. reflexivity. }
  cbv zeta in Hm, Hall, Hout, Hiff.
  destruct (run h (CacheObjects.migrate_loop (cache c) 0
                     (replicate (length (cache c)) None)) m w0) as [m1 w1 tr1 out1].
  cbn [migrating trace outcome] in Hm, Hall, Hout, Hiff. subst m1 out1.
  unfold andThen. cbn [outcome migrating world trace].
  assert (Hnone : ~ exists (i : nat) (e : error),
             replicate (length (cache c)) (@None error) !! i = Some (Some e)).
  { intros (i & e & Hi). apply lookup_replicate in Hi. destruct Hi as [Hi _]. discriminate. }
  destruct (CacheObjects.errCnt errs' >? 0) eqn:Hcnt.
  - apply errCnt_positive in Hcnt. apply Hiff in Hcnt.
    destruct Hcnt as [Hcnt | (d & e & Hin)]; [contradiction |].
    cbn [run trace outcome migrating world]. intros ->.
    cbn [trace outcome migrating world]. split; [| split].
    + intros d' Hd'. destruct (Hall d' Hd') as [a Ha]. exists a.
      right. rewrite app_nil_r. exact Ha.
    + intros Hno. exfalso. apply (Hno d e). right. rewrite app_nil_r. exact Hin.
    + intros _. split; reflexivity.
  - explore h. intros ->. cbn [trace outcome migrating world]. split; [| split].
    + intros d' Hd'. destruct (Hall d' Hd') as [a' Ha]. exists a'.
      right. apply in_or_app. left. exact Ha.
    + intros _. split; [reflexivity |]. split; [| reflexivity].
      cbn [List.rev]. rewrite List.rev_app_distr. cbn [List.rev List.app].
      do 5 eexists. reflexivity.
    + intros (d & e & Hin). exfalso.
      assert (Herr : exists (i : nat) (e : error), errs' !! i = Some (Some e)).
      { apply Hiff. right. exists d, e. destruct Hin as [Heq | Hin].
        - apply (f_equal observe) in Heq. discriminate.
        - apply in_app_or in Hin. destruct Hin as [Hin | Hin]; [exact Hin |].
          exfalso. observe_in Hin ltac:(fun H => idtac). }
      apply errCnt_positive in Herr. congruence.
Qed.

(** While [migrating] is set every request goes to the backend and touches
    neither a drive nor a lock. *)
Lemma migrating_bypass (c : cacheObjects) (bucket object : string)
    (rs : option HTTPRangeSpec) (hd : Header) (lt : LockType) (opts : ObjectOptions) (w : W) :
  outcome (run h CacheObjects.skipCache true w) = Returned true /\
  (let r := run h (CacheObjects.GetObjectNInfo c bucket object rs hd lt opts) true w in
   Forall (fun en => isCacheCall en = false) (trace r) /\
   exists a, In (Call (GetObjectNInfoFn bucket object rs hd lt opts) a) (trace r) /\
             outcome r = Returned a) /\
  (let r := run h (CacheObjects.GetObjectInfo c bucket object opts) true w in
   Forall (fun en => isCacheCall en = false) (trace r) /\
   exists a, In (Call (GetObjectInfoFn bucket object opts) a) (trace r) /\
             outcome r = Returned a) /\
  (let r := run h (CacheObjects.DeleteObject c bucket object) true w in
   Forall (fun en => isCacheCall en = false) (trace r) /\
   exists a, In (Call (DeleteObjectFn bucket object) a) (trace r) /\
             outcome r = Returned a).
Proof.
  split; [reflexivity |]. split; [| split].
  - cbv zeta. unfold CacheObjects.GetObjectNInfo. rewrite run_bind, bypass_run.
    destruct (CacheObjects.isCacheExclude c bucket object); unfold andThen;
      cbn [run bind trigger step fst snd trace outcome world migrating List.app];
      (split; [repeat constructor | eexists; split; [find_in | reflexivity]]).
  - cbv zeta. unfold CacheObjects.GetObjectInfo. rewrite run_bind, bypass_run.
    destruct (CacheObjects.isCacheExclude c bucket object); unfold andThen;
      cbn [run bind trigger step fst snd trace outcome world migrating List.app];
      (split; [repeat constructor | eexists; split; [find_in | reflexivity]]).
  - destruct (DeleteObject_run h c bucket object true w)
      as (rest & Htr & Hout & _ & _ & _ & Hcache).
    cbv zeta in *. rewrite Htr, Hout. split.
    + constructor; [reflexivity | apply Hcache; right; reflexivity].
    + eexists. split; [left; reflexivity | reflexivity].
Qed.

End Migration.

(** ** The locking discipline *)

Section Framing.
Context `{Externals}.
Context {W : Type} (h : Handler W).

Lemma sameObject_refl (b o : string) : sameObject b o b o = true.
Proof. unfold sameObject. rewrite !String.eqb_refl. reflexivity. Qed.

(** The four wrappers frame their drive call by one lock of the right kind,
    taken with [globalObjectTimeout] and released before they return. *)
Lemma wrappers_framed (d : diskCache) (bucket object : string) (rs : option HTTPRangeSpec)
    (hd : Header) (opts : ObjectOptions) (data : ioReader) (size : Z) (m : bool) (w : W) :
  framed (trace (run h (CacheObjects.get d bucket object rs hd opts) m w)) = true /\
  framed (trace (run h (CacheObjects.stat d bucket object) m w)) = true /\
  framed (trace (run h (CacheObjects.put d bucket object data size opts) m w)) = true /\
  framed (trace (run h (CacheObjects.delete d bucket object) m w)) = true.
Proof.
  unfold CacheObjects.get, CacheObjects.stat, CacheObjects.put, CacheObjects.delete, framed.
  repeat split; explore h;
    cbn [framedFrom frameStep isGlobalObjectTimeout];
    rewrite ?sameObject_refl; reflexivity.
Qed.

Lemma framedFrom_probes (tr rest : Trace) (held : Held) :
  Forall (fun en => isProbeCall en = true) tr ->
  framedFrom held (tr ++ rest) = framedFrom held rest.
Proof.
  induction 1 as [| en tr Hen _ IH]; [reflexivity |].
  cbn [List.app framedFrom]. destruct en as [T e a].
  destruct e; try discriminate Hen; cbn [frameStep]; exact IH.
Qed.

(** [GetObjectInfo] keeps the discipline on every path. *)
Lemma GetObjectInfo_framed (c : cacheObjects) (bucket object : string)
    (opts : ObjectOptions) (m : bool) (w : W) :
  framed (trace (run h (CacheObjects.GetObjectInfo c bucket object opts) m w)) = true.
Proof.
  remember (run h (CacheObjects.GetObjectInfo c bucket object opts) m w) as R eqn:HR.
  revert HR. unfold CacheObjects.GetObjectInfo.
  enter h c bucket object m w Hprobes;
    unfold CacheObjects.stat, CacheObjects.freshByCacheControl, CacheObjects.delete;
    explore h; intros ->; cbn [trace]; unfold framed;
    cbn [List.app framedFrom frameStep]; rewrite ?framedFrom_probes by exact Hprobes;
    cbn [framedFrom frameStep isGlobalObjectTimeout];
    rewrite ?sameObject_refl; reflexivity.
Qed.

End Framing.

(** ** The methods of the coordinator *)

Section Excluded.
Context `{Externals}.
Context {W : Type} (h : Handler W).


End Excluded.

(** C1. A call that is not excluded and not made during migration, whose
    cache read succeeds with a non-empty cache-control that is not stale,
    returns the cached reader ([GetObjectNInfo]) or the cached info
    ([GetObjectInfo]) without any call of a backend function; the run is
    therefore the same under every backend implementation. *)
Theorem fresh_entry_served_without_backend `{Externals} {W : Type} (h : Handler W)
    (c : cacheObjects) (bucket object : string) (rs : option HTTPRangeSpec) (hd : Header)
    (lt : LockType) (opts : ObjectOptions) (m : bool) (w : W) :
  CacheObjects.isCacheExclude c bucket object = false ->
  m = false ->
  let rN := run h (CacheObjects.GetObjectNInfo c bucket object rs hd lt opts) m w in
  let rI := run h (CacheObjects.GetObjectInfo c bucket object opts) m w in
  (forall d cacheReader,
      In (Call (dcache_Get d bucket object rs hd opts) (inl cacheReader)) (trace rN) ->
      isEmpty (cacheControlOpts (ObjInfo cacheReader)) = false ->
      In (Call (cc_isStale (cacheControlOpts (ObjInfo cacheReader))
                  (ModTime (ObjInfo cacheReader))) false) (trace rN) ->
      outcome rN = Returned (inl cacheReader) /\
      Forall (fun en => isBackendCall en = false) (trace rN) /\
      forall h' : Handler W,
        (forall T (e : CacheE T) w0, isBackendE e = false -> h' T e w0 = h T e w0) ->
        run h' (CacheObjects.GetObjectNInfo c bucket object rs hd lt opts) m w = rN) /\
  (forall d cachedObjInfo,
      In (Call (dcache_Stat d bucket object) (inl cachedObjInfo)) (trace rI) ->
      isEmpty (cacheControlOpts cachedObjInfo) = false ->
      In (Call (cc_isStale (cacheControlOpts cachedObjInfo) (ModTime cachedObjInfo)) false)
         (trace rI) ->
      outcome rI = Returned (inl cachedObjInfo) /\
      Forall (fun en => isBackendCall en = false) (trace rI) /\
      forall h' : Handler W,
        (forall T (e : CacheE T) w0, isBackendE e = false -> h' T e w0 = h T e w0) ->
        run h' (CacheObjects.GetObjectInfo c bucket object opts) m w = rI).
Proof.
  intros _ _ rN rI. split.
  - intros d cacheReader Hget Hcc Hstale.
    destruct (GetObjectNInfo_fresh h c bucket object rs hd lt opts m w d cacheReader
                Hget Hcc Hstale) as [Hout Hquiet].
    split; [exact Hout |]. split; [exact Hquiet |].
    intros h' Hagree. apply run_agree; assumption.
  - intros d cachedObjInfo Hstat Hcc Hstale.
    destruct (GetObjectInfo_fresh h c bucket object opts m w d cachedObjInfo
                Hstat Hcc Hstale) as [Hout Hquiet].
    split; [exact Hout |]. split; [exact Hquiet |].
    intros h' Hagree. apply run_agree; assumption.
Qed.

(** C2. On a stale cache hit of [GetObjectNInfo], when the backend's
    [GetObjectInfo] succeeds with a cacheable object whose ETag is that of
    the cached reader, the coordinator calls [updateMetadataIfChanged] with
    the new and the old info and returns the cached reader; the only backend
    call of the run is that [GetObjectInfo]: no body is fetched. *)
Theorem stale_hit_same_etag_served_from_cache `{Externals} {W : Type} (h : Handler W)
    (c : cacheObjects) (bucket object : string) (rs : option HTTPRangeSpec) (hd : Header)
    (lt : LockType) (opts : ObjectOptions) (m : bool) (w : W)
    (d : diskCache) (cacheReader : GetObjectReader) (objInfo : ObjectInfo) :
  let r := run h (CacheObjects.GetObjectNInfo c bucket object rs hd lt opts) m w in
  backendDownError None = false ->
  In (Call (dcache_Get d bucket object rs hd opts) (inl cacheReader)) (trace r) ->
  In (Call (GetObjectInfoFn bucket object opts) (inl objInfo)) (trace r) ->
  IsCacheable objInfo = true ->
  ETag (ObjInfo cacheReader) = ETag objInfo ->
  outcome r = Returned (inl cacheReader) /\
  (exists a, In (Call (dcache_updateMetadataIfChanged d bucket object objInfo
                         (ObjInfo cacheReader)) a) (trace r)) /\
  List.filter isBackendCall (trace r) =
    [Call (GetObjectInfoFn bucket object opts) (inl objInfo)] /\
  (forall b o rs' hd' lt' opts' a,
      ~ In (Call (GetObjectNInfoFn b o rs' hd' lt' opts') a) (trace r)).
Proof.
  intros r Hnil Hget Hinfo Hcacheable Hetag.
  destruct (GetObjectNInfo_same_etag h c bucket object rs hd lt opts m w d cacheReader
              objInfo Hnil Hget Hinfo Hcacheable Hetag) as (Hout & Hupd & Hfilter).
  split; [exact Hout |]. split; [exact Hupd |]. split; [exact Hfilter |].
  intros b o rs' hd' lt' opts' a Hin.
  assert (Hb : In (Call (GetObjectNInfoFn b o rs' hd' lt' opts') a)
                  (List.filter isBackendCall (trace r))).
  { apply List.filter_In. split; [exact Hin | reflexivity]. }
  fold r in Hfilter. rewrite Hfilter in Hb. destruct Hb as [Hb | []].
  apply (f_equal observe) in Hb. discriminate.
Qed.


(** C4. When the backend's [GetObjectInfo] fails with a backend-down error,
    [GetObjectNInfo] returns the cached reader whenever its cache read had
    succeeded, [GetObjectInfo] returns the cached info whenever its cache
    stat had succeeded, and [BackendDown] when the stat had failed.  (A
    [GetObjectInfo] that attempts no stat, its object being excluded or no
    drive being online, returns the backend's own error.) *)
Theorem backend_down_serves_cached_copy `{Externals} {W : Type} (h : Handler W)
    (c : cacheObjects) (bucket object : string) (rs : option HTTPRangeSpec) (hd : Header)
    (lt : LockType) (opts : ObjectOptions) (m : bool) (w : W) (e : error) :
  (forall b' o', backendDownError (Some (ObjectNotFound b' o')) = false) ->
  backendDownError (Some e) = true ->
  let rN := run h (CacheObjects.GetObjectNInfo c bucket object rs hd lt opts) m w in
  let rI := run h (CacheObjects.GetObjectInfo c bucket object opts) m w in
  (In (Call (GetObjectInfoFn bucket object opts) (inr e)) (trace rN) ->
   forall d cacheReader,
     In (Call (dcache_Get d bucket object rs hd opts) (inl cacheReader)) (trace rN) ->
     outcome rN = Returned (inl cacheReader)) /\
  (In (Call (GetObjectInfoFn bucket object opts) (inr e)) (trace rI) ->
   (forall d oi, In (Call (dcache_Stat d bucket object) (inl oi)) (trace rI) ->
                 outcome rI = Returned (inl oi)) /\
   ((exists e', In (Call (cLock_GetRLock bucket object globalObjectTimeout) (Some e'))
                   (trace rI)) \/
    (exists d e', In (Call (dcache_Stat d bucket object) (inr e')) (trace rI)) ->
    outcome rI = Returned (inr BackendDown)) /\
   ((forall a, ~ In (Call (cLock_GetRLock bucket object globalObjectTimeout) a)
                    (trace rI)) ->
    outcome rI = Returned (inr e))).
Proof.
  intros Hnf Hdown rN rI. split.
  - intros Hinfo d cacheReader Hget.
    exact (GetObjectNInfo_backend_down h c bucket object rs hd lt opts m w d cacheReader e
             Hinfo Hdown Hget).
  - intros Hinfo.
    exact (GetObjectInfo_backend_down h c bucket object opts m w e Hnf Hinfo Hdown).
Qed.


(** C9, as amended. While migration is in progress [skipCache] returns true
    and every request bypasses the cache.  [migrateCacheFromV1toV2] runs the
    migration of every non-nil drive, whether or not another one fails; when
    none fails it clears the flag between [migMutex.Lock] and
    [migMutex.Unlock], and [skipCache] returns false from then on; when one
    fails the flag keeps its value. *)
Theorem migration_gates_the_cache `{Externals} {W : Type} (h : Handler W)
    (c : cacheObjects) (bucket object : string) (rs : option HTTPRangeSpec) (hd : Header)
    (lt : LockType) (opts : ObjectOptions) (m : bool) (w : W) :
  (outcome (run h CacheObjects.skipCache true w) = Returned true /\
   (let r := run h (CacheObjects.GetObjectNInfo c bucket object rs hd lt opts) true w in
    Forall (fun en => isCacheCall en = false) (trace r) /\
    exists a, In (Call (GetObjectNInfoFn bucket object rs hd lt opts) a) (trace r) /\
              outcome r = Returned a) /\
   (let r := run h (CacheObjects.GetObjectInfo c bucket object opts) true w in
    Forall (fun en => isCacheCall en = false) (trace r) /\
    exists a, In (Call (GetObjectInfoFn bucket object opts) a) (trace r) /\
              outcome r = Returned a) /\
   (let r := run h (CacheObjects.DeleteObject c bucket object) true w in
    Forall (fun en => isCacheCall en = false) (trace r) /\
    exists a, In (Call (DeleteObjectFn bucket object) a) (trace r) /\
              outcome r = Returned a)) /\
  (let r := run h (CacheObjects.migrateCacheFromV1toV2 c) m w in
   (forall d, In (Some d) (cache c) ->
              exists a, In (Call (migrateOldCache d) a) (trace r)) /\
   ((forall d e, ~ In (Call (migrateOldCache d) (Some e)) (trace r)) ->
    migrating r = false /\
    (exists u1 u2 u3 u4 rest,
        List.rev (trace r) =
        Call migMutex_Unlock u4 ::
        Call (logger_StartupMessage "Cache migration completed successfully.") u3 ::
        Call (store_migrating false) u2 :: Call migMutex_Lock u1 :: rest) /\
    outcome (run h CacheObjects.skipCache (migrating r) (world r)) = Returned false) /\
   ((exists d e, In (Call (migrateOldCache d) (Some e)) (trace r)) ->
    migrating r = m /\
    outcome (run h CacheObjects.skipCache (migrating r) (world r)) = Returned m)).
Proof.
  split.
  - exact (migrating_bypass h c bucket object rs hd lt opts w).
  - exact (migrateCacheFromV1toV2_run h c m w).
Qed.

(** ** Concrete runs *)

Ltac in_list := repeat (first [left; reflexivity | right]).

Example run_fresh_N :
  run worldH (CacheObjects.GetObjectNInfo c1 "b" "obj" None [] noLock opts0) false w_fresh
  = mkRun false w_fresh calls_fresh_N (Returned (inl (readerA 9000))).
Proof. reflexivity. Qed.

Example run_fresh_I :
  run worldH (CacheObjects.GetObjectInfo c1 "b" "obj" opts0) false w_fresh
  = mkRun false w_fresh calls_fresh_I (Returned (inl (infoA 9000))).
Proof. reflexivity. Qed.

Example run_stale_N :
  trace (run worldH (CacheObjects.GetObjectNInfo c1 "b" "obj" None [] noLock opts0)
           false w_stale) = calls_stale_N.
Proof. reflexivity. Qed.



Example run_down_N :
  run worldH (CacheObjects.GetObjectNInfo c1 "b" "obj" None [] noLock opts0) false w_down
  = mkRun false w_down calls_down_N (Returned (inl (readerA 3000))).
Proof. reflexivity. Qed.

Example run_down_I :
  run worldH (CacheObjects.GetObjectInfo c1 "b" "obj" opts0) false w_down
  = mkRun false w_down calls_down_I (Returned (inl (infoA 3000))).
Proof. reflexivity. Qed.

(** With the lock of the object held elsewhere the cache stat fails, and a
    backend that is down makes [GetObjectInfo] return [BackendDown]. *)
Example run_down_locked_I :
  outcome (run worldH (CacheObjects.GetObjectInfo c1 "b" "obj" opts0) false w_down_locked)
  = Returned (inr BackendDown).
Proof. reflexivity. Qed.

Lemma fresh_entry_served_without_backend_witness :
  CacheObjects.isCacheExclude c1 "b" "obj" = false /\
  outcome (run worldH (CacheObjects.GetObjectNInfo c1 "b" "obj" None [] noLock opts0)
             false w_fresh) = Returned (inl (readerA 9000)) /\
  outcome (run worldH (CacheObjects.GetObjectInfo c1 "b" "obj" opts0) false w_fresh)
    = Returned (inl (infoA 9000)).
Proof.
  split; [reflexivity |].
  destruct (fresh_entry_served_without_backend worldH c1 "b" "obj" None [] noLock opts0
              false w_fresh eq_refl eq_refl) as [HN HI].
  split.
  - apply (HN drive0 (readerA 9000)).
    + rewrite run_fresh_N. in_list.
    + reflexivity.
    + rewrite run_fresh_N. in_list.
  - apply (HI drive0 (infoA 9000)).
    + rewrite run_fresh_I. in_list.
    + reflexivity.
    + rewrite run_fresh_I. in_list.
Defined.

Lemma stale_hit_same_etag_served_from_cache_witness :
  backendDownError None = false /\
  IsCacheable (infoA 3000) = true /\
  outcome (run worldH (CacheObjects.GetObjectNInfo c1 "b" "obj" None [] noLock opts0)
             false w_stale) = Returned (inl (readerA 3000)).
Proof.
  split; [reflexivity |]. split; [reflexivity |].
  apply (stale_hit_same_etag_served_from_cache worldH c1 "b" "obj" None [] noLock opts0
           false w_stale drive0 (readerA 3000) (infoA 3000)).
  - reflexivity.
  - rewrite run_stale_N. in_list.
  - rewrite run_stale_N. in_list.
  - reflexivity.
  - reflexivity.
Defined.


Lemma backend_down_serves_cached_copy_witness :
  (forall b' o', backendDownError (Some (ObjectNotFound b' o')) = false) /\
  backendDownError (Some BackendDown) = true /\
  outcome (run worldH (CacheObjects.GetObjectNInfo c1 "b" "obj" None [] noLock opts0)
             false w_down) = Returned (inl (readerA 3000)) /\
  outcome (run worldH (CacheObjects.GetObjectInfo c1 "b" "obj" opts0) false w_down)
    = Returned (inl (infoA 3000)).
Proof.
  split; [intros b' o'; reflexivity |]. split; [reflexivity |].
  destruct (backend_down_serves_cached_copy worldH c1 "b" "obj" None [] noLock opts0
              false w_down BackendDown (fun _ _ => eq_refl) eq_refl) as [HN HI].
  split.
  - apply HN with (d := drive0).
    + rewrite run_down_N. in_list.
    + rewrite run_down_N. in_list.
  - assert (Hhead : In (Call (GetObjectInfoFn "b" "obj" opts0) (inr BackendDown))
                       (trace (run worldH (CacheObjects.GetObjectInfo c1 "b" "obj" opts0)
                                 false w_down))).
    { rewrite run_down_I. in_list. }
    apply (proj1 (HI Hhead) drive0 (infoA 3000)). rewrite run_down_I. in_list.
Defined.

Lemma getCacheLoc_first_online_slot_witness :
  (forall d, worldH bool (dcache_IsOnline d) w_routed = (w_routed, onlineIn w_routed d)) /\
  CacheObjects.hashIndex c3 "b" "obj2" = 0 /\
  outcome (run worldH (CacheObjects.getCacheLoc c3 "b" "obj2") false w_routed)
    = Returned (inl drive2).
Proof.
  split; [intros d; reflexivity |]. split; [reflexivity |].
  rewrite (proj1 (getCacheLoc_first_online_slot worldH c3 "b" "obj2" (onlineIn w_routed)
                    false w_routed (fun d => eq_refl))).
  reflexivity.
Defined.

Lemma getCacheToLoc_affinity_then_first_online_witness :
  (forall d, worldH bool (dcache_IsOnline d) w_affinity = (w_affinity, onlineIn w_affinity d)) /\
  (forall d, worldH bool (dcache_Exists d "b" "obj") w_affinity
             = (w_affinity, hasIn w_affinity "b" "obj" d)) /\
  CacheObjects.hashIndex c2 "b" "obj" = 0 /\
  outcome (run worldH (CacheObjects.getCacheToLoc c2 "b" "obj") false w_affinity)
    = Returned (inl drive2).
Proof.
  split; [intros d; reflexivity |]. split; [intros d; reflexivity |].
  split; [reflexivity |].
  rewrite (proj1 (getCacheToLoc_affinity_then_first_online worldH c2 "b" "obj"
                    (onlineIn w_affinity) (hasIn w_affinity "b" "obj") false w_affinity
                    (fun d => eq_refl) (fun d => eq_refl))).
  reflexivity.
Defined.


(** C9, as stated, fails when a drive's migration fails: both migrations
    have finished, the flag is still set and [skipCache] still returns
    true. *)
Lemma failed_migration_keeps_the_cache_bypassed :
  let r := run worldH (CacheObjects.migrateCacheFromV1toV2 c2) true w_broken in
  trace r =
    [Call (logger_StartupMessage "Cache migration initiated ....") tt;
     Call (migrateOldCache drive0) None; Call (go (purgeTask drive0)) tt;
     Call (migrateOldCache drive2) (Some (errorString "migration failed"));
     Call (logger_LogIf (Some (errorString "migration failed"))) tt] /\
  outcome r = Returned tt /\
  migrating r = true /\
  outcome (run worldH CacheObjects.skipCache (migrating r) (world r)) = Returned true.
Proof.
  cbv zeta. split; [reflexivity |]. split; [reflexivity |]. split; reflexivity.
Qed.

(** When no migration fails the flag is cleared. *)
Example migration_completes :
  let r := run worldH (CacheObjects.migrateCacheFromV1toV2 c2) true w_migrated in
  migrating r = false /\
  outcome (run worldH CacheObjects.skipCache (migrating r) (world r)) = Returned false.
Proof. cbv zeta. split; reflexivity. Qed.

(** C5. The wrappers [get], [stat], [put] and [delete] frame their drive
    call by one lock, and [GetObjectInfo] deletes through [c.delete]; but
    [GetObjectNInfo], on a stale hit whose backend object is gone, calls
    the drive's [Delete] directly: no exclusive lock is requested in the
    whole run, and the read lock of the cache read was released three calls
    earlier.  The goroutine of the tee fill calls the drive's [Put] the same
    way. *)
Theorem GetObjectNInfo_deletes_outside_the_lock :
  let r := run worldH (CacheObjects.GetObjectNInfo c1 "b" "obj" None [] noLock opts0)
               false w_gone in
  trace r =
    callsLocate ++
    [Call (cLock_GetRLock "b" "obj" globalObjectTimeout) None;
     Call (dcache_Get drive0 "b" "obj" None [] opts0) (inl (readerA 3000));
     Call (cLock_RUnlock "b" "obj") tt;
     callStale 3000 true;
     callHead (inr (ObjectNotFound "b" "obj"));
     Call (reader_Close (readerA 3000)) None;
     Call (dcache_Delete drive0 "b" "obj") None] /\
  framed (trace r) = false /\
  framed (trace (run worldH (CacheObjects.GetObjectInfo c1 "b" "obj" opts0) false w_gone))
    = true /\
  framed (trace (run worldH (CacheObjects.teeFill drive0 "b" "obj" 0%nat (readerA 3000))
                   false w_gone)) = false.
Proof.
  cbv zeta. split; [reflexivity |]. split; [reflexivity |]. split; reflexivity.
Qed.

(** ** Exclusion and metadata *)

Lemma substring_all (s : string) : substring 0 (String.length s) s = s.
Proof. induction s as [| a s IH]; simpl; [reflexivity | rewrite IH; reflexivity]. Qed.

Lemma substring_append (p s : string) :
  substring (String.length p) (String.length s) (p ++ s)%string = s.
Proof. induction p as [| a p IH]; simpl; [apply substring_all | exact IH]. Qed.

Lemma substring_split (n : nat) (s : string) :
  (n <= String.length s)%nat ->
  s = (substring 0 n s ++ substring n (String.length s - n) s)%string.
Proof.
  revert n. induction s as [| a s IH]; intros n Hn.
  - destruct n; reflexivity.
  - destruct n as [| n].
    + simpl. rewrite substring_all. reflexivity.
    + simpl in Hn. simpl String.length. simpl substring.
      change (String a s = String a (substring 0 n s ++ substring n (String.length s - n) s)%string).
      f_equal. apply IH. lia.
Qed.

Lemma length_append (p s : string) :
  String.length (p ++ s)%string = (String.length p + String.length s)%nat.
Proof. induction p as [| a p IH]; simpl; [reflexivity | rewrite IH; reflexivity]. Qed.

(** [strings.HasSuffix(s, suffix)] holds exactly when [s] ends with [suffix]. *)
Lemma HasSuffix_spec (s suffix : string) :
  HasSuffix s suffix = true <-> exists p : string, s = (p ++ suffix)%string.
Proof.
  unfold HasSuffix. rewrite andb_true_iff, Nat.leb_le, String.eqb_eq. split.
  - intros [Hlen Hsub].
    exists (substring 0 (String.length s - String.length suffix) s).
    rewrite (substring_split (String.length s - String.length suffix) s) at 1 by lia.
    f_equal.
    replace (String.length s - (String.length s - String.length suffix))%nat
      with (String.length suffix) by lia.
    exact Hsub.
  - intros [p ->]. rewrite length_append. split; [lia |].
    replace (String.length p + String.length suffix - String.length suffix)%nat
      with (String.length p) by lia.
    apply substring_append.
Qed.

(** X1. [isCacheExclude] holds exactly for the names that end with a slash
    (directories), whatever the patterns are, and for the names whose
    [bucket/object] matches one of the exclude patterns. *)
Theorem isCacheExclude_directory_or_pattern `{Externals} (c : cacheObjects)
    (bucket object : string) :
  CacheObjects.isCacheExclude c bucket object = true <->
  (exists p : string, object = (p ++ "/")%string) \/
  (exists pattern : string, In pattern (exclude c) /\
     MatchSimple pattern (bucket ++ "/" ++ object)%string = true).
Proof.
  unfold CacheObjects.isCacheExclude.
  pose proof (HasSuffix_spec object SlashSeparator) as Hsuf.
  destruct (HasSuffix object SlashSeparator).
  - split; [intros _; left; apply Hsuf; reflexivity | reflexivity].
  - rewrite existsb_exists. split.
    + intros (pattern & Hin & Hm). right. exists pattern. split; assumption.
    + intros [Hdir | (pattern & Hin & Hm)].
      * apply Hsuf in Hdir. discriminate.
      * exists pattern. split; assumption.
Qed.


(** ** The walks of the router under arbitrary answers *)

Section RouterProbes.
Context `{Externals}.
Context {W : Type} (h : Handler W).
Variables (c : cacheObjects) (bucket object : string).

Local Abbreviation index := (CacheObjects.hashIndex c bucket object).
Local Abbreviation scan := (circularScan c bucket object).

Lemma walk_slot (k : nat) (d : diskCache) :
  walk c bucket object k = Some (Some d) -> In (Some d) (cache c).
Proof.
  unfold walk. intros Hk. apply list_elem_of_In. eapply list_elem_of_lookup_2. exact Hk.
Qed.

Lemma getCacheLoc_loop_probes (n k : nat) (m : bool) (w : W) :
  (k + n = length (cache c))%nat ->
  let r := run h (CacheObjects.getCacheLoc_loop c index n (Z.of_nat k)) m w in
  (exists (j : nat) (d : diskCache),
      (j < n)%nat /\ scan !! (k + j)%nat = Some (Some d) /\
      outcome r = Returned (inl d) /\
      trace r = map answeredOffline (omap id (take j (drop k scan))) ++
                [Call (dcache_IsOnline d) true]) \/
  (outcome r = Returned (inr errDiskNotFound) /\
   trace r = map answeredOffline (omap id (drop k scan))).
Proof.
  revert k w. induction n as [| n IH]; intros k w Hkn;
    cbn [CacheObjects.getCacheLoc_loop run bind trigger].
  - right. rewrite drop_ge by (unfold circularScan; rewrite length_rotate; lia).
    split; reflexivity.
  - rewrite (slot_walk c bucket object k) by lia.
    destruct (walk_some c bucket object k ltac:(lia)) as [s Hs]. rewrite Hs.
    rewrite (scan_drop c bucket object k s) by (lia || exact Hs).
    replace (Z.of_nat k + 1) with (Z.of_nat (S k)) by lia.
    assert (Hnext : forall j, scan !! (S k + j)%nat = scan !! (k + S j)%nat).
    { intros j. f_equal. lia. }
    destruct s as [d |].
    + cbn [run bind trigger step fst snd trace outcome].
      destruct (h bool (dcache_IsOnline d) w) as [w1 on] eqn:Eon. cbn [fst snd].
      destruct on; cbn [run trace outcome].
      * left. exists 0%nat, d. split; [lia |]. split.
        { rewrite Nat.add_0_r, scan_walk by lia. exact Hs. }
        split; reflexivity.
      * destruct (IH (S k) w1 ltac:(lia)) as [(j & d' & Hj & Hd' & Hout & Htr) | [Hout Htr]].
        -- left. exists (S j), d'. split; [lia |]. split; [rewrite <- Hnext; exact Hd' |].
           split; [exact Hout |]. rewrite Htr. reflexivity.
        -- right. split; [exact Hout |]. rewrite Htr. reflexivity.
    + destruct (IH (S k) w ltac:(lia)) as [(j & d' & Hj & Hd' & Hout & Htr) | [Hout Htr]].
      * left. exists (S j), d'. split; [lia |]. split; [rewrite <- Hnext; exact Hd' |].
        split; [exact Hout |]. rewrite Htr. reflexivity.
      * right. split; [exact Hout |]. rewrite Htr. reflexivity.
Qed.

Lemma scan_slot (j : nat) (d : diskCache) :
  scan !! j = Some (Some d) -> (j < length (cache c))%nat /\ In (Some d) (cache c).
Proof.
  intros Hj.
  assert (Hlt : (j < length (cache c))%nat).
  { apply lookup_lt_Some in Hj. unfold circularScan in Hj.
    rewrite length_rotate in Hj. exact Hj. }
  split; [exact Hlt |]. rewrite scan_walk in Hj by exact Hlt. exact (walk_slot j d Hj).
Qed.

Lemma length_omap_id {A : Type} (l : list (option A)) :
  (length (omap id l) <= length l)%nat.
Proof.
  induction l as [| [a |] l IH]; cbn; lia.
Qed.

End RouterProbes.

(** X3. Whatever the drives answer, [getCacheLoc] neither fails on an index
    nor touches the migration flag; it asks the non-nil slots whether they
    are online in the order of the circular walk, each slot at most once,
    and stops at the first that answers true, which it returns; when every
    one of them answers false the result is [errDiskNotFound]. *)
Theorem getCacheLoc_probes_in_walk_order `{Externals} {W : Type} (h : Handler W)
    (c : cacheObjects) (bucket object : string) (m : bool) (w : W) :
  let r := run h (CacheObjects.getCacheLoc c bucket object) m w in
  let scan := circularScan c bucket object in
  migrating r = m /\
  (length (trace r) <= length (cache c))%nat /\
  ((exists (j : nat) (d : diskCache),
       scan !! j = Some (Some d) /\ In (Some d) (cache c) /\
       outcome r = Returned (inl d) /\
       trace r = map answeredOffline (omap id (take j scan)) ++
                 [Call (dcache_IsOnline d) true]) \/
   (outcome r = Returned (inr errDiskNotFound) /\
    trace r = map answeredOffline (omap id scan))).
Proof.
  cbv zeta.
  pose proof (getCacheLoc_loop_shape h c bucket object (length (cache c)) 0 m w eq_refl)
    as (Hm & _).
  split; [exact Hm |].
  pose proof (length_rotate (cache c) (Z.to_nat (CacheObjects.hashIndex c bucket object)))
    as Hscan.
  fold (circularScan c bucket object) in Hscan.
  destruct (getCacheLoc_loop_probes h c bucket object (length (cache c)) 0 m w eq_refl)
    as [(j & d & Hj & Hd & Hout & Htr) | [Hout Htr]];
    change (Z.of_nat 0) with 0 in *; fold (CacheObjects.getCacheLoc c bucket object) in *;
    rewrite drop_0 in Htr; cbn [Nat.add] in *.
  - destruct (scan_slot c bucket object j d Hd) as [Hlt Hin].
    split.
    + rewrite Htr, length_app, length_map. cbn [length].
      pose proof (length_omap_id (take j (circularScan c bucket object))) as Hle.
      rewrite length_take in Hle. lia.
    + left. exists j, d. repeat split; assumption.
  - split.
    + rewrite Htr, length_map.
      pose proof (length_omap_id (circularScan c bucket object)) as Hle. lia.
    + right. split; assumption.
Qed.

Section ReadWalk.
Context `{Externals}.
Context {W : Type} (h : Handler W).
Variables (c : cacheObjects) (bucket object : string).

Local Abbreviation index := (CacheObjects.hashIndex c bucket object).

Lemma firstAnsweredOnline_In (tr : Trace) (d : diskCache) :
  firstAnsweredOnline tr = inl d -> In (Call (dcache_IsOnline d) true) tr.
Proof.
  induction tr as [| [T e a] tr IH]; [discriminate |].
  destruct e; cbn [firstAnsweredOnline view]; try (intros Hd; right; exact (IH Hd)).
  destruct a; [intros [= ->]; left; reflexivity | intros Hd; right; exact (IH Hd)].
Qed.

Lemma firstAnsweredExists_In (tr : Trace) (d : diskCache) :
  firstAnsweredExists tr = Some d -> exists b o, In (Call (dcache_Exists d b o) true) tr.
Proof.
  induction tr as [| [T e a] tr IH]; [discriminate |].
  destruct e; cbn [firstAnsweredExists view];
    try (intros Hd; destruct (IH Hd) as (b' & o' & Hin); exists b', o'; right; exact Hin).
  destruct a.
  - intros [= ->]. do 2 eexists. left. reflexivity.
  - intros Hd. destruct (IH Hd) as (b' & o' & Hin). exists b', o'. right. exact Hin.
Qed.

Lemma getCacheToLoc_loop_probes (n k : nat) (acc : option diskCache) (m : bool) (w : W) :
  (k + n = length (cache c))%nat ->
  let r := run h (CacheObjects.getCacheToLoc_loop c bucket object index n (Z.of_nat k) acc)
               m w in
  (length (trace r) <= 2 * n)%nat /\
  Forall (fun en => exists d, probedDrive en = Some d /\ In (Some d) (cache c)) (trace r) /\
  outcome r =
    Returned (match firstAnsweredExists (trace r) with
              | Some d => inl d
              | None => match acc with
                        | Some d => inl d
                        | None => firstAnsweredOnline (trace r)
                        end
              end) /\
  (forall d b o a, In (Call (dcache_Exists d b o) a) (trace r) ->
                   In (Call (dcache_IsOnline d) true) (trace r)).
Proof.
  revert k acc w. induction n as [| n IH]; intros k acc w Hkn;
    cbn [CacheObjects.getCacheToLoc_loop run bind trigger].
  - destruct acc; cbn; (split; [lia |]); (split; [constructor |]);
      (split; [reflexivity | intros d' b' o' a' []]).
  - rewrite (slot_walk c bucket object k) by lia.
    destruct (walk_some c bucket object k ltac:(lia)) as [s Hs]. rewrite Hs.
    replace (Z.of_nat k + 1) with (Z.of_nat (S k)) by lia.
    destruct s as [d |]; [| destruct (IH (S k) acc w ltac:(lia)) as (Hlen & Hall & Hout & Hex);
                            split; [lia | split; [exact Hall | split; [exact Hout | exact Hex]]]].
    pose proof (walk_slot c bucket object k d Hs) as Hslot.
    cbn [run bind trigger step fst snd trace outcome].
    destruct (h bool (dcache_IsOnline d) w) as [w1 on] eqn:Eon. cbn [fst snd].
    destruct on; cbn [run bind trigger step fst snd trace outcome].
    + destruct (h bool (dcache_Exists d bucket object) w1) as [w2 ex] eqn:Eex. cbn [fst snd].
      destruct ex; cbn [run trace outcome].
      * split; [cbn; lia |]. split.
        { repeat constructor; exists d; split; (reflexivity || exact Hslot). }
        split; [reflexivity |].
        intros d' b' o' a' [Hin | [Hin | []]]; apply (f_equal view) in Hin; cbn in Hin;
          [discriminate |]. injection Hin as <- _ _ _. left. reflexivity.
      * destruct (IH (S k) (match acc with Some _ => acc | None => Some d end) w2
                    ltac:(lia)) as (Hlen & Hall & Hout & Hex).
        split; [cbn [length]; lia |]. split.
        { repeat (constructor; [exists d; split; (reflexivity || exact Hslot) |]).
          exact Hall. }
        split.
        { rewrite Hout. cbn [firstAnsweredExists firstAnsweredOnline view].
          destruct (firstAnsweredExists _); [reflexivity |]. destruct acc; reflexivity. }
        intros d' b' o' a' [Hin | [Hin | Hin]].
        -- apply (f_equal view) in Hin. discriminate.
        -- apply (f_equal view) in Hin. cbn in Hin. injection Hin as <- _ _ _.
           left. reflexivity.
        -- right. right. exact (Hex d' b' o' a' Hin).
    + destruct (IH (S k) acc w1 ltac:(lia)) as (Hlen & Hall & Hout & Hex).
      split; [cbn [length]; lia |]. split.
      { constructor; [exists d; split; (reflexivity || exact Hslot) | exact Hall]. }
      split.
      { rewrite Hout. cbn [firstAnsweredExists firstAnsweredOnline view]. reflexivity. }
      intros d' b' o' a' [Hin | Hin].
      * apply (f_equal view) in Hin. discriminate.
      * right. exact (Hex d' b' o' a' Hin).
Qed.

End ReadWalk.

(** X4. Whatever the drives answer, [getCacheToLoc] neither fails on an
    index nor touches the migration flag, and makes at most two probes per
    slot, all of them on drives of the slice.  It asks a drive for the
    object only after that drive answered online, and its result is read off
    the answers: the drive that answered that it holds the object, else the
    first drive that answered online, else [errDiskNotFound].  A drive that
    is returned is a slot of the slice and answered online in this walk. *)
Theorem getCacheToLoc_result_from_answers `{Externals} {W : Type} (h : Handler W)
    (c : cacheObjects) (bucket object : string) (m : bool) (w : W) :
  let r := run h (CacheObjects.getCacheToLoc c bucket object) m w in
  migrating r = m /\
  (length (trace r) <= 2 * length (cache c))%nat /\
  Forall (fun en => exists d, probedDrive en = Some d /\ In (Some d) (cache c)) (trace r) /\
  outcome r = Returned (locatedBy (trace r)) /\
  (forall d a, In (Call (dcache_Exists d bucket object) a) (trace r) ->
               In (Call (dcache_IsOnline d) true) (trace r)) /\
  (forall d, locatedBy (trace r) = inl d ->
             In (Some d) (cache c) /\ In (Call (dcache_IsOnline d) true) (trace r)).
Proof.
  cbv zeta.
  pose proof (getCacheToLoc_loop_shape h c bucket object (length (cache c)) 0 None m w
                eq_refl) as (Hm & _).
  destruct (getCacheToLoc_loop_probes h c bucket object (length (cache c)) 0 None m w
              eq_refl) as (Hlen & Hall & Hout & Hex).
  cbv zeta in Hm. change (Z.of_nat 0) with 0 in *.
  fold (CacheObjects.getCacheToLoc c bucket object) in *.
  split; [exact Hm |]. split; [exact Hlen |]. split; [exact Hall |].
  split; [exact Hout |]. split; [intros d a; apply Hex |].
  intros d Hd.
  assert (Hon : In (Call (dcache_IsOnline d) true)
                   (trace (run h (CacheObjects.getCacheToLoc c bucket object) m w))).
  { unfold locatedBy in Hd.
    destruct (firstAnsweredExists _) as [d' |] eqn:Hf.
    - injection Hd as ->. apply firstAnsweredExists_In in Hf.
      destruct Hf as (b & o & Hin). exact (Hex d b o true Hin).
    - apply firstAnsweredOnline_In. exact Hd. }
  split; [| exact Hon].
  rewrite List.Forall_forall in Hall. destruct (Hall _ Hon) as (d' & Hd' & Hslot).
  injection Hd' as <-. exact Hslot.
Qed.

(** ** Reading traces through [view] *)

Section ViewTraces.
Context `{Externals}.

Lemma probe_view (en : Entry) :
  isProbeCall en = true ->
  match view en with vIsOnline _ _ | vExists _ _ _ _ => True | _ => False end.
Proof. destruct en as [T e a]. destruct e; simpl; intros Hp; (discriminate || exact I). Qed.

Lemma probes_view (tr : Trace) (v : View) :
  Forall (fun en => isProbeCall en = true) tr -> In v (map view tr) ->
  match v with vIsOnline _ _ | vExists _ _ _ _ => True | _ => False end.
Proof.
  intros Hall Hin. apply List.in_map_iff in Hin. destruct Hin as (en & Hen & Hin).
  rewrite List.Forall_forall in Hall. rewrite <- Hen. apply probe_view, Hall, Hin.
Qed.

Lemma count_app (P : View -> bool) (tr1 tr2 : Trace) :
  count P (tr1 ++ tr2) = (count P tr1 + count P tr2)%nat.
Proof. unfold count. rewrite List.filter_app, length_app. reflexivity. Qed.

Lemma count_cons (P : View -> bool) (en : Entry) (tr : Trace) :
  count P (en :: tr) = ((if P (view en) then 1 else 0) + count P tr)%nat.
Proof. unfold count. cbn [List.filter]. destruct (P (view en)); reflexivity. Qed.

Lemma count_nil (P : View -> bool) : count P [] = 0%nat.
Proof. reflexivity. Qed.

Lemma count_probes (P : View -> bool) (tr : Trace) :
  (forall d a, P (vIsOnline d a) = false) ->
  (forall d b o a, P (vExists d b o a) = false) ->
  Forall (fun en => isProbeCall en = true) tr -> count P tr = 0%nat.
Proof.
  intros Hon Hex. induction 1 as [| en tr Hen _ IH]; [reflexivity |].
  rewrite count_cons, IH. pose proof (probe_view en Hen) as Hv.
  destruct (view en); try contradiction; [rewrite Hon | rewrite Hex]; reflexivity.
Qed.

Lemma probes_readPhase (tr : Trace) :
  Forall (fun en => isProbeCall en = true) tr ->
  Forall (fun en => isReadPhase (view en) = true) tr.
Proof.
  intros Hall. eapply List.Forall_impl; [| exact Hall].
  intros en Hen. pose proof (probe_view en Hen) as Hv.
  destruct (view en); try contradiction; reflexivity.
Qed.

Lemma readPhase_view (tr : Trace) (v : View) :
  Forall (fun en => isReadPhase (view en) = true) tr -> In v (map view tr) ->
  isReadPhase v = true.
Proof.
  intros Hall Hin. apply List.in_map_iff in Hin. destruct Hin as (en & Hen & Hin).
  rewrite List.Forall_forall in Hall. rewrite <- Hen. apply Hall, Hin.
Qed.

Lemma count_readPhase (P : View -> bool) (tr : Trace) :
  (forall v, isReadPhase v = true -> P v = false) ->
  Forall (fun en => isReadPhase (view en) = true) tr -> count P tr = 0%nat.
Proof.
  intros HP. induction 1 as [| en tr Hen _ IH]; [reflexivity |].
  rewrite count_cons, IH, (HP _ Hen). reflexivity.
Qed.

Lemma count_zero (P : View -> bool) (tr : Trace) (en : Entry) :
  count P tr = 0%nat -> In en tr -> P (view en) = false.
Proof.
  unfold count. intros Hc Hin. destruct (P (view en)) eqn:HP; [| reflexivity].
  assert (Hf : In en (List.filter (fun en => P (view en)) tr)).
  { apply List.filter_In. split; assumption. }
  destruct (List.filter _ tr); [destruct Hf | discriminate].
Qed.

Lemma startedTasks_app (tr1 tr2 : Trace) :
  startedTasks (tr1 ++ tr2) = startedTasks tr1 ++ startedTasks tr2.
Proof. apply omap_app. Qed.

Lemma startedTasks_readPhase (tr : Trace) :
  Forall (fun en => isReadPhase (view en) = true) tr -> startedTasks tr = [].
Proof.
  induction 1 as [| en tr Hen _ IH]; [reflexivity |].
  unfold startedTasks in *. cbn [omap list_omap]. rewrite IH.
  destruct (view en); try discriminate; reflexivity.
Qed.

End ViewTraces.

(** [H] says that a view is in the views of a trace: split it along the
    trace, and close the parts where it cannot be with [tac]. *)
Ltac in_views H tac :=
  lazymatch type of H with
  | In _ (map view (_ ++ _)) =>
      rewrite List.map_app in H; in_views H tac
  | In _ (map view (_ :: _)) =>
      cbn [List.map view] in H; in_views H tac
  | In _ (map view []) => destruct H
  | In _ (_ ++ _) =>
      apply List.in_app_or in H; destruct H as [H | H]; in_views H tac
  | In _ (_ :: _) =>
      destruct H as [H | H];
      [ try discriminate H; try (injection H; clear H; intros; subst)
      | in_views H tac ]
  | In _ [] => destruct H
  | _ => try (tac H)
  end.

Ltac view_in H tac :=
  apply (List.in_map view) in H; cbn [view] in H; in_views H tac.

Ltac not_a_probe Hprobes :=
  fun H => apply (probes_view _ _ Hprobes) in H; destruct H.

(** Count the calls of each kind in a trace that is given explicitly but for
    the probes of the router. *)
Ltac count_calls Hprobes :=
  rewrite ?count_app, ?count_cons, ?count_nil;
  rewrite ?(count_probes _ _ (fun _ _ => eq_refl) (fun _ _ _ _ => eq_refl) Hprobes);
  cbn [view isHead isBody isGet isStat isPut isUpdate isDelete isGo isTrySend Nat.add];
  try lia.

(** ** The phases of [GetObjectNInfo] *)

(** The tail of a trace that ends with the trace of a run, and what is
    before it. *)
Ltac tail_of L :=
  lazymatch L with
  | _ :: ?L' => tail_of L'
  | ?X => X
  end.

Ltac prefix_of L :=
  lazymatch L with
  | ?c :: ?L' => let B := prefix_of L' in constr:(c :: B)
  | _ => constr:(@nil Entry)
  end.

Ltac split_tail :=
  lazymatch goal with
  | |- ?A ++ ?tr ++ ?L = _ =>
      let X := tail_of L in
      let B := prefix_of L in
      transitivity ((A ++ tr ++ B) ++ X);
      [rewrite <- !List.app_assoc; reflexivity | reflexivity]
  end.

Ltac read_phase Hprobes :=
  repeat (apply Forall_app; split);
  repeat (apply Forall_cons; split; [reflexivity |]);
  try apply Forall_nil_2;
  try (apply probes_readPhase; exact Hprobes).

Ltac framed_prefix Hprobes :=
  rewrite <- ?List.app_assoc;
  cbn [List.app framedFrom frameStep];
  rewrite ?framedFrom_probes by exact Hprobes;
  cbn [List.app framedFrom frameStep isGlobalObjectTimeout];
  rewrite ?sameObject_refl; reflexivity.

Section ReadPhases.
Context `{Externals}.
Context {W : Type} (h : Handler W).

(** [GetObjectNInfo] either goes straight to the backend (bypass, or no
    drive online), or serves a fresh entry, or reads the cache and then
    revalidates. *)
Lemma GetObjectNInfo_phases c bucket object rs hd lt opts m w :
  let r := run h (CacheObjects.GetObjectNInfo c bucket object rs hd lt opts) m w in
  (exists pre a,
      trace r = pre ++ [Call (GetObjectNInfoFn bucket object rs hd lt opts) a] /\
      outcome r = Returned a /\
      Forall (fun en => isReadPhase (view en) = true) pre /\
      count isGet pre = 0%nat /\
      (forall rest, framedFrom holdsNothing (pre ++ rest) = framedFrom holdsNothing rest)) \/
  (exists d cacheReader,
      outcome r = Returned (inl cacheReader) /\
      In (Call (dcache_Get d bucket object rs hd opts) (inl cacheReader)) (trace r) /\
      Forall (fun en => isReadPhase (view en) = true) (trace r) /\
      count isGet (trace r) = 1%nat /\
      framed (trace r) = true) \/
  (exists pre d cached m' w',
      let r' := run h (CacheObjects.GetObjectNInfo_revalidate d bucket object rs hd lt opts
                         cached) m' w' in
      trace r = pre ++ trace r' /\
      outcome r = outcome r' /\
      Forall (fun en => isReadPhase (view en) = true) pre /\
      (count isGet pre <= 1)%nat /\
      (forall rest, framedFrom holdsNothing (pre ++ rest) = framedFrom holdsNothing rest) /\
      (forall d' rs' hd' opts' a,
          In (Call (dcache_Get d' bucket object rs' hd' opts') a) pre ->
          d' = d /\ a = cached) /\
      (forall cacheReader, cached = inl cacheReader ->
          In (Call (dcache_Get d bucket object rs hd opts) (inl cacheReader)) pre)).
Proof.
  cbv zeta.
  remember (run h (CacheObjects.GetObjectNInfo c bucket object rs hd lt opts) m w)
    as R eqn:HR.
  revert HR. unfold CacheObjects.GetObjectNInfo.
  enter h c bucket object m w Hprobes;
    unfold CacheObjects.get, CacheObjects.freshByCacheControl;
    explore h; intros ->; cbn [trace outcome].
  all: first
    [ (* straight to the backend *)
      left; do 2 eexists;
      split; [first [reflexivity | rewrite List.app_assoc; reflexivity] |];
      split; [reflexivity |];
      split; [read_phase Hprobes |];
      split; [count_calls Hprobes |];
      intros rest; framed_prefix Hprobes
    | (* a fresh entry *)
      right; left; do 2 eexists;
      split; [reflexivity |];
      split; [find_in |];
      split; [read_phase Hprobes |];
      split; [count_calls Hprobes |];
      unfold framed; framed_prefix Hprobes
    | (* revalidation *)
      right; right; do 5 eexists; cbv zeta;
      split; [split_tail |];
      split; [reflexivity |];
      split; [read_phase Hprobes |];
      split; [count_calls Hprobes |];
      split; [intros rest; framed_prefix Hprobes |];
      split;
      [ intros ? ? ? ? ? Hin; view_in Hin ltac:(not_a_probe Hprobes); split; reflexivity
      | intros ? Heq; first [discriminate Heq | injection Heq as <-; find_in] ] ].
Qed.

End ReadPhases.

(** ** The calls of one read *)

(** No call of the kind counted is a call of the read phase. *)
Ltac no_such_call :=
  intros v Hv; destruct v; first [discriminate Hv | reflexivity].

Section Revalidation.
Context `{Externals}.
Context {W : Type} (h : Handler W).

Lemma revalidate_budget d bucket object rs hd lt opts cached m w :
  let r := run h (CacheObjects.GetObjectNInfo_revalidate d bucket object rs hd lt opts
                    cached) m w in
  (exists x, outcome r = Returned x) /\ withinBudget (trace r).
Proof.
  cbv zeta.
  unfold CacheObjects.GetObjectNInfo_revalidate, CacheObjects.GetObjectNInfo_fill,
    CacheObjects.delete.
  explore h.
  all: (split; [eexists; reflexivity |]).
  all: unfold withinBudget; cbn; repeat split; lia.
Qed.

End Revalidation.

(** X5. Whatever the backend, the drives and the locks answer, one
    [GetObjectNInfo] returns (it does not fail on an index or a nil reader),
    asks the backend for the object's info at most once and for its body at
    most once, reads the cache at most once, deletes or updates at most one
    entry, signals the purger and starts a goroutine at most once, and never
    calls the drive's [Stat] or [Put] itself: the cache is filled by the
    goroutine only. *)
Theorem GetObjectNInfo_call_budget `{Externals} {W : Type} (h : Handler W)
    (c : cacheObjects) (bucket object : string) (rs : option HTTPRangeSpec) (hd : Header)
    (lt : LockType) (opts : ObjectOptions) (m : bool) (w : W) :
  let r := run h (CacheObjects.GetObjectNInfo c bucket object rs hd lt opts) m w in
  (exists x, outcome r = Returned x) /\
  (count isHead (trace r) <= 1)%nat /\
  (count isBody (trace r) <= 1)%nat /\
  (count isGet (trace r) <= 1)%nat /\
  (count isDelete (trace r) <= 1)%nat /\
  (count isUpdate (trace r) <= 1)%nat /\
  (count isTrySend (trace r) <= 1)%nat /\
  (count isGo (trace r) <= 1)%nat /\
  count isStat (trace r) = 0%nat /\
  count isPut (trace r) = 0%nat.
Proof.
  cbv zeta.
  destruct (GetObjectNInfo_phases h c bucket object rs hd lt opts m w)
    as [(pre & a & Htr & Hout & Hpre & Hget & _)
       | [(d & cacheReader & Hout & _ & Hpre & Hget & _)
         | (pre & d & cached & m' & w' & Htr & Hout & Hpre & Hget & _)]];
    cbv zeta in *.
  - rewrite Htr, Hout, !count_app, Hget.
    rewrite !(count_readPhase _ pre) by (no_such_call || exact Hpre).
    split; [eexists; reflexivity |]. cbn. repeat split; lia.
  - rewrite Hout, Hget.
    rewrite !(count_readPhase _ _) by (no_such_call || exact Hpre).
    split; [eexists; reflexivity |]. repeat split; lia.
  - destruct (revalidate_budget h d bucket object rs hd lt opts cached m' w')
      as [Hret Hb].
    cbv zeta in Hret, Hb. unfold withinBudget in Hb.
    rewrite Htr, Hout, !count_app.
    rewrite !(count_readPhase isHead pre), !(count_readPhase isBody pre),
      !(count_readPhase isDelete pre), !(count_readPhase isUpdate pre),
      !(count_readPhase isTrySend pre), !(count_readPhase isGo pre),
      !(count_readPhase isStat pre), !(count_readPhase isPut pre)
      by (no_such_call || exact Hpre).
    split; [exact Hret |]. repeat split; lia.
Qed.

(** ** Revalidation against the backend *)

Section ReadPhaseCalls.
Context `{Externals}.

Lemma not_in_readPhase (pre : Trace) (en : Entry) :
  Forall (fun en => isReadPhase (view en) = true) pre ->
  isReadPhase (view en) = false -> ~ In en pre.
Proof.
  intros Hpre Hen Hin. rewrite List.Forall_forall in Hpre.
  rewrite (Hpre en Hin) in Hen. discriminate.
Qed.

End ReadPhaseCalls.

Ltac absurd_in_pre Hpre Hin :=
  exfalso; eapply (not_in_readPhase _ _ Hpre); [| exact Hin]; reflexivity.

Section Revalidation2.
Context `{Externals}.
Context {W : Type} (h : Handler W).

(** The revalidation of a cache hit whose ETag differs from the backend's. *)
Lemma revalidate_changed d bucket object rs hd lt opts cacheReader objInfo m w :
  let r := run h (CacheObjects.GetObjectNInfo_revalidate d bucket object rs hd lt opts
                    (inl cacheReader)) m w in
  backendDownError None = false ->
  In (Call (GetObjectInfoFn bucket object opts) (inl objInfo)) (trace r) ->
  IsCacheable objInfo = true ->
  ETag (ObjInfo cacheReader) <> ETag objInfo ->
  exists c1 lk post,
    trace r = Call (GetObjectInfoFn bucket object opts) (inl objInfo) ::
              Call (reader_Close cacheReader) c1 ::
              Call (cLock_GetLock bucket object globalObjectTimeout) lk :: post /\
    match lk with
    | None => exists a u post',
        post = Call (dcache_Delete d bucket object) a ::
               Call (cLock_Unlock bucket object) u :: post' /\
        count isDelete post' = 0%nat
    | Some _ => count isDelete post = 0%nat
    end /\
    count isUpdate (trace r) = 0%nat /\
    exists a, In (Call (GetObjectNInfoFn bucket object rs hd lt opts) a) post /\
      (outcome r = Returned a \/
       exists bkReader p a',
         a = inl bkReader /\
         In (Call (NewGetObjectReaderFromReader (TeeReader (readerOf bkReader) p)
                     (ObjInfo bkReader) (CheckCopyPrecondFn opts)
                     [closeReader bkReader; closePipeReader p]) a') post /\
         outcome r = Returned a').
Proof.
  cbv zeta. intros Hnil.
  remember (run h (CacheObjects.GetObjectNInfo_revalidate d bucket object rs hd lt opts
                     (inl cacheReader)) m w) as R eqn:HR.
  revert HR.
  unfold CacheObjects.GetObjectNInfo_revalidate, CacheObjects.GetObjectNInfo_fill,
    CacheObjects.delete.
  explore h; intros -> Hinfo Hcacheable Hetag; cbn [trace outcome] in *; leaf.
  all: view_in Hinfo ltac:(fun H => idtac); leaf.
  all: try (rewrite Hcacheable in *; discriminate).
  all: try match goal with
           | Heq : String.eqb _ _ = true |- _ =>
               apply String.eqb_eq in Heq; contradiction
           end.
  all: do 3 eexists; (split; [reflexivity |]).
  all: split; [first [ reflexivity | do 3 eexists; split; reflexivity ] |].
  all: split; [reflexivity |].
  all: eexists; split; [find_in |].
  all: first [ left; reflexivity
             | right; do 3 eexists; split; [reflexivity |]; split; [find_in | reflexivity] ].
Qed.

End Revalidation2.

(** X6. A stale cache hit whose ETag is no longer the backend's: the cached
    reader is closed right after the backend's answer and the entry is
    deleted through [c.delete], under the exclusive lock (when the lock times
    out the entry stays, and the read goes on); the metadata is not updated,
    and what is returned comes from the backend's [GetObjectNInfo], called
    with the caller's arguments: its answer, or the tee reader built on it. *)
Theorem changed_entry_is_dropped_and_refetched `{Externals} {W : Type} (h : Handler W)
    (c : cacheObjects) (bucket object : string) (rs : option HTTPRangeSpec) (hd : Header)
    (lt : LockType) (opts : ObjectOptions) (m : bool) (w : W)
    (d : diskCache) (cacheReader : GetObjectReader) (objInfo : ObjectInfo) :
  let r := run h (CacheObjects.GetObjectNInfo c bucket object rs hd lt opts) m w in
  backendDownError None = false ->
  In (Call (dcache_Get d bucket object rs hd opts) (inl cacheReader)) (trace r) ->
  In (Call (GetObjectInfoFn bucket object opts) (inl objInfo)) (trace r) ->
  IsCacheable objInfo = true ->
  ETag (ObjInfo cacheReader) <> ETag objInfo ->
  exists pre c1 lk post,
    trace r = pre ++ Call (GetObjectInfoFn bucket object opts) (inl objInfo) ::
                     Call (reader_Close cacheReader) c1 ::
                     Call (cLock_GetLock bucket object globalObjectTimeout) lk :: post /\
    match lk with
    | None => exists a u post',
        post = Call (dcache_Delete d bucket object) a ::
               Call (cLock_Unlock bucket object) u :: post' /\
        count isDelete (trace r) = 1%nat
    | Some _ => count isDelete (trace r) = 0%nat
    end /\
    count isUpdate (trace r) = 0%nat /\
    exists a, In (Call (GetObjectNInfoFn bucket object rs hd lt opts) a) post /\
      (outcome r = Returned a \/
       exists bkReader p a',
         a = inl bkReader /\
         In (Call (NewGetObjectReaderFromReader (TeeReader (readerOf bkReader) p)
                     (ObjInfo bkReader) (CheckCopyPrecondFn opts)
                     [closeReader bkReader; closePipeReader p]) a') post /\
         outcome r = Returned a').
Proof.
  cbv zeta. intros Hnil Hget Hinfo Hcacheable Hetag.
  destruct (GetObjectNInfo_phases h c bucket object rs hd lt opts m w)
    as [(pre & a & Htr & _ & Hpre & _)
       | [(d0 & cr0 & _ & _ & Hpre & _)
         | (pre & d0 & cached & m' & w' & Htr & Hout & Hpre & _ & _ & Hone & _)]];
    cbv zeta in *.
  - exfalso. rewrite Htr in Hinfo. apply in_app_or in Hinfo. destruct Hinfo as [Hinfo | Hinfo].
    + absurd_in_pre Hpre Hinfo.
    + destruct Hinfo as [Hinfo | []]. apply (f_equal view) in Hinfo. discriminate.
  - absurd_in_pre Hpre Hinfo.
  - destruct (revalidate_budget h d0 bucket object rs hd lt opts cached m' w')
      as [_ (_ & _ & _ & _ & _ & _ & Hnoget & _)].
    cbv zeta in Hnoget.
    rewrite Htr in Hget, Hinfo.
    apply in_app_or in Hget. destruct Hget as [Hget | Hget];
      [| apply (count_zero _ _ _ Hnoget) in Hget; discriminate].
    destruct (Hone _ _ _ _ _ Hget) as [<- <-].
    apply in_app_or in Hinfo. destruct Hinfo as [Hinfo | Hinfo];
      [absurd_in_pre Hpre Hinfo |].
    destruct (revalidate_changed h d bucket object rs hd lt opts cacheReader objInfo m' w'
                Hnil Hinfo Hcacheable Hetag)
      as (c1 & lk & post & Hr & Hlk & Hupd & a & Ha & Hres).
    exists pre, c1, lk, post. rewrite Htr, Hout, Hr.
    split; [reflexivity |]. split; [| split].
    + rewrite count_app, (count_readPhase isDelete pre) by (no_such_call || exact Hpre).
      destruct lk as [e |].
      * rewrite !count_cons, Hlk. reflexivity.
      * destruct Hlk as (a0 & u & post' & -> & Hpost').
        exists a0, u, post'. split; [reflexivity |].
        rewrite !count_cons, Hpost'. reflexivity.
    + rewrite Hr in Hupd.
      rewrite count_app, (count_readPhase isUpdate pre) by (no_such_call || exact Hpre).
      exact Hupd.
    + exists a. split; [exact Ha | exact Hres].
Qed.

(** Turn the tests on negations left by the exploration into equations. *)
Ltac plain_tests :=
  repeat match goal with
         | Hc : negb _ = false |- _ => apply negb_false_iff in Hc
         | Hc : negb _ = true |- _ => apply negb_true_iff in Hc
         end;
  subst.

Section Revalidation3.
Context `{Externals}.
Context {W : Type} (h : Handler W).

(** A goroutine is started only for a cacheable object that the drive has
    room for; the purger is signalled exactly when the disk usage is not
    low. *)
Lemma revalidate_tasks d bucket object rs hd lt opts cached m w :
  let r := run h (CacheObjects.GetObjectNInfo_revalidate d bucket object rs hd lt opts
                    cached) m w in
  (forall t, In t (startedTasks (trace r)) ->
     exists objInfo,
       In (Call (GetObjectInfoFn bucket object opts) (inl objInfo)) (trace r) /\
       IsCacheable objInfo = true /\
       In (Call (dcache_diskAvailable d (Size objInfo)) true) (trace r) /\
       match rs with
       | Some _ => t = rangeFillTask d bucket object hd lt opts
       | None => exists p bkReader,
           t = teeFillTask d bucket object p bkReader /\
           In (Call (GetObjectNInfoFn bucket object rs hd lt opts) (inl bkReader))
              (trace r) /\
           In (Call io_Pipe p) (trace r)
       end) /\
  (forall d' a, In (Call (purgeChan_trySend d') a) (trace r) ->
     d' = d /\ In (Call (dcache_diskUsageLow d) false) (trace r)) /\
  (forall d', In (Call (dcache_diskUsageLow d') false) (trace r) ->
     exists a, In (Call (purgeChan_trySend d') a) (trace r)).
Proof.
  cbv zeta.
  unfold CacheObjects.GetObjectNInfo_revalidate, CacheObjects.GetObjectNInfo_fill,
    CacheObjects.delete.
  explore h; plain_tests;
    (split;
     [ intros t Ht; cbn in Ht;
       lazymatch type of Ht with
       | False => destruct Ht
       | _ =>
           destruct Ht as [<- | []];
           eexists; split; [find_in |]; split; [assumption |]; split; [find_in |];
           first [ reflexivity
                 | do 2 eexists; split; [reflexivity |]; split; find_in ]
       end
     | split;
       [ intros d' a' Hin; view_in Hin ltac:(fun H => idtac);
         (split; [reflexivity | find_in])
       | intros d' Hin; view_in Hin ltac:(fun H => idtac); eexists; find_in ] ]).
Qed.

(** An error of the backend's [GetObjectInfo] other than [ObjectNotFound]
    and backend-down ends the read. *)
Lemma revalidate_error d bucket object rs hd lt opts cached m w e :
  let r := run h (CacheObjects.GetObjectNInfo_revalidate d bucket object rs hd lt opts
                    cached) m w in
  In (Call (GetObjectInfoFn bucket object opts) (inr e)) (trace r) ->
  (forall b' o', e <> ObjectNotFound b' o') ->
  backendDownError (Some e) = false ->
  trace r = [Call (GetObjectInfoFn bucket object opts) (inr e)] /\
  outcome r = Returned (inr e).
Proof.
  cbv zeta.
  remember (run h (CacheObjects.GetObjectNInfo_revalidate d bucket object rs hd lt opts
                     cached) m w) as R eqn:HR.
  revert HR.
  unfold CacheObjects.GetObjectNInfo_revalidate, CacheObjects.GetObjectNInfo_fill,
    CacheObjects.delete.
  explore h; intros -> Hinfo Hne Hdown; cbn [trace outcome] in *; leaf.
  all: view_in Hinfo ltac:(fun H => idtac); leaf.
  all: try (exfalso; eapply Hne; reflexivity).
  all: split; reflexivity.
Qed.

(** An object that is not cacheable is read from the backend. *)
Lemma revalidate_uncacheable d bucket object rs hd lt opts cached m w objInfo :
  let r := run h (CacheObjects.GetObjectNInfo_revalidate d bucket object rs hd lt opts
                    cached) m w in
  backendDownError None = false ->
  In (Call (GetObjectInfoFn bucket object opts) (inl objInfo)) (trace r) ->
  IsCacheable objInfo = false ->
  exists a,
    trace r = [Call (GetObjectInfoFn bucket object opts) (inl objInfo);
               Call (GetObjectNInfoFn bucket object rs hd lt opts) a] /\
    outcome r = Returned a.
Proof.
  cbv zeta. intros Hnil.
  remember (run h (CacheObjects.GetObjectNInfo_revalidate d bucket object rs hd lt opts
                     cached) m w) as R eqn:HR.
  revert HR.
  unfold CacheObjects.GetObjectNInfo_revalidate, CacheObjects.GetObjectNInfo_fill,
    CacheObjects.delete.
  explore h; intros -> Hinfo Hcacheable; cbn [trace outcome] in *; leaf.
  all: view_in Hinfo ltac:(fun H => idtac); leaf.
  all: try (rewrite Hcacheable in *; discriminate).
  all: eexists; split; reflexivity.
Qed.

(** The revalidation keeps the locking discipline but for the delete that
    follows the backend's [ObjectNotFound]. *)
Lemma revalidate_framed d bucket object rs hd lt opts cached m w :
  let r := run h (CacheObjects.GetObjectNInfo_revalidate d bucket object rs hd lt opts
                    cached) m w in
  framed (trace r) = true \/
  (framed (trace r) = false /\
   exists cacheReader b' o' a1 a2,
     cached = inl cacheReader /\
     trace r = [Call (GetObjectInfoFn bucket object opts) (inr (ObjectNotFound b' o'));
                Call (reader_Close cacheReader) a1;
                Call (dcache_Delete d bucket object) a2]).
Proof.
  cbv zeta.
  unfold CacheObjects.GetObjectNInfo_revalidate, CacheObjects.GetObjectNInfo_fill,
    CacheObjects.delete.
  explore h.
  all: first
    [ left; unfold framed; cbn [framedFrom frameStep isGlobalObjectTimeout];
      rewrite ?sameObject_refl; reflexivity
    | right; split; [reflexivity |]; do 5 eexists; split; reflexivity ].
Qed.

End Revalidation3.

(** X7. [GetObjectNInfo] starts a goroutine only after the backend answered
    with a cacheable object and the located drive answered that it has room
    for the object's size; for a range request the goroutine is the range
    fill with the caller's headers, lock type and options, otherwise it is
    the tee fill on the pipe just created and the backend reader just
    obtained.  The purger of a drive is signalled exactly when that drive's
    disk usage is not low. *)
Theorem cache_fill_needs_admission `{Externals} {W : Type} (h : Handler W)
    (c : cacheObjects) (bucket object : string) (rs : option HTTPRangeSpec) (hd : Header)
    (lt : LockType) (opts : ObjectOptions) (m : bool) (w : W) :
  let r := run h (CacheObjects.GetObjectNInfo c bucket object rs hd lt opts) m w in
  (forall t, In t (startedTasks (trace r)) ->
     exists d objInfo,
       In (Call (GetObjectInfoFn bucket object opts) (inl objInfo)) (trace r) /\
       IsCacheable objInfo = true /\
       In (Call (dcache_diskAvailable d (Size objInfo)) true) (trace r) /\
       match rs with
       | Some _ => t = rangeFillTask d bucket object hd lt opts
       | None => exists p bkReader,
           t = teeFillTask d bucket object p bkReader /\
           In (Call (GetObjectNInfoFn bucket object rs hd lt opts) (inl bkReader))
              (trace r) /\
           In (Call io_Pipe p) (trace r)
       end) /\
  (forall d a, In (Call (purgeChan_trySend d) a) (trace r) ->
     In (Call (dcache_diskUsageLow d) false) (trace r)) /\
  (forall d, In (Call (dcache_diskUsageLow d) false) (trace r) ->
     exists a, In (Call (purgeChan_trySend d) a) (trace r)).
Proof.
  cbv zeta.
  destruct (GetObjectNInfo_phases h c bucket object rs hd lt opts m w)
    as [(pre & a & Htr & _ & Hpre & _)
       | [(d0 & cr0 & _ & _ & Hpre & _)
         | (pre & d0 & cached & m' & w' & Htr & _ & Hpre & _)]];
    cbv zeta in *.
  - rewrite Htr. split; [| split].
    + intros t Ht. rewrite startedTasks_app, (startedTasks_readPhase pre Hpre) in Ht.
      destruct Ht.
    + intros d a' Hin. apply in_app_or in Hin. destruct Hin as [Hin | [Hin | []]];
        [absurd_in_pre Hpre Hin | apply (f_equal view) in Hin; discriminate].
    + intros d Hin. apply in_app_or in Hin. destruct Hin as [Hin | [Hin | []]];
        [absurd_in_pre Hpre Hin | apply (f_equal view) in Hin; discriminate].
  - split; [| split].
    + intros t Ht. rewrite (startedTasks_readPhase _ Hpre) in Ht. destruct Ht.
    + intros d a' Hin. absurd_in_pre Hpre Hin.
    + intros d Hin. absurd_in_pre Hpre Hin.
  - destruct (revalidate_tasks h d0 bucket object rs hd lt opts cached m' w')
      as (Htask & Hsend & Hlow).
    cbv zeta in Htask, Hsend, Hlow. rewrite Htr. split; [| split].
    + intros t Ht. rewrite startedTasks_app, (startedTasks_readPhase pre Hpre) in Ht.
      destruct (Htask t Ht) as (objInfo & Hinfo & Hcacheable & Havail & Hshape).
      exists d0, objInfo.
      split; [apply in_or_app; right; exact Hinfo |].
      split; [exact Hcacheable |].
      split; [apply in_or_app; right; exact Havail |].
      destruct rs as [r0 |]; [exact Hshape |].
      destruct Hshape as (p & bkReader & Ht' & Hbk & Hpipe).
      exists p, bkReader. split; [exact Ht' |].
      split; apply in_or_app; right; assumption.
    + intros d a' Hin. apply in_app_or in Hin. destruct Hin as [Hin | Hin];
        [absurd_in_pre Hpre Hin |].
      destruct (Hsend d a' Hin) as [-> Hl]. apply in_or_app. right. exact Hl.
    + intros d Hin. apply in_app_or in Hin. destruct Hin as [Hin | Hin];
        [absurd_in_pre Hpre Hin |].
      destruct (Hlow d Hin) as [a' Ha']. exists a'. apply in_or_app. right. exact Ha'.
Qed.

Section InfoErrors.
Context `{Externals}.
Context {W : Type} (h : Handler W).

Lemma GetObjectInfo_error c bucket object opts m w e :
  let r := run h (CacheObjects.GetObjectInfo c bucket object opts) m w in
  In (Call (GetObjectInfoFn bucket object opts) (inr e)) (trace r) ->
  (forall b' o', e <> ObjectNotFound b' o') ->
  backendDownError (Some e) = false ->
  outcome r = Returned (inr e) /\
  exists rest, List.rev (trace r) = Call (GetObjectInfoFn bucket object opts) (inr e) :: rest.
Proof.
  cbv zeta.
  remember (run h (CacheObjects.GetObjectInfo c bucket object opts) m w) as R eqn:HR.
  revert HR. unfold CacheObjects.GetObjectInfo.
  enter h c bucket object m w Hprobes;
    unfold CacheObjects.stat, CacheObjects.freshByCacheControl, CacheObjects.delete;
    explore h; intros -> Hinfo Hne Hdown; cbn [trace outcome] in *; leaf.
  all: view_in Hinfo ltac:(not_a_probe Hprobes); leaf.
  all: try (exfalso; eapply Hne; reflexivity).
  all: try (rewrite Hdown in *; discriminate).
  all: split; [reflexivity |].
  all: last_calls; eexists; reflexivity.
Qed.

End InfoErrors.

(** X8. An error of the backend's [GetObjectInfo] that is neither
    [ObjectNotFound] nor a backend-down error is returned unchanged by
    [GetObjectNInfo] and by [GetObjectInfo], and the backend call is the
    last call of the run: nothing is deleted, closed or written after it. *)
Theorem backend_error_is_returned_as_is `{Externals} {W : Type} (h : Handler W)
    (c : cacheObjects) (bucket object : string) (rs : option HTTPRangeSpec) (hd : Header)
    (lt : LockType) (opts : ObjectOptions) (m : bool) (w : W) (e : error) :
  (forall b' o', e <> ObjectNotFound b' o') ->
  backendDownError (Some e) = false ->
  let rN := run h (CacheObjects.GetObjectNInfo c bucket object rs hd lt opts) m w in
  let rI := run h (CacheObjects.GetObjectInfo c bucket object opts) m w in
  (In (Call (GetObjectInfoFn bucket object opts) (inr e)) (trace rN) ->
   outcome rN = Returned (inr e) /\
   exists rest,
     List.rev (trace rN) = Call (GetObjectInfoFn bucket object opts) (inr e) :: rest) /\
  (In (Call (GetObjectInfoFn bucket object opts) (inr e)) (trace rI) ->
   outcome rI = Returned (inr e) /\
   exists rest,
     List.rev (trace rI) = Call (GetObjectInfoFn bucket object opts) (inr e) :: rest).
Proof.
  intros Hne Hdown rN rI. split.
  - subst rN. intros Hinfo.
    destruct (GetObjectNInfo_phases h c bucket object rs hd lt opts m w)
      as [(pre & a & Htr & _ & Hpre & _)
         | [(d0 & cr0 & _ & _ & Hpre & _)
           | (pre & d0 & cached & m' & w' & Htr & Hout & Hpre & _)]];
      cbv zeta in *.
    + rewrite Htr in Hinfo. apply in_app_or in Hinfo.
      destruct Hinfo as [Hinfo | [Hinfo | []]];
        [absurd_in_pre Hpre Hinfo | apply (f_equal view) in Hinfo; discriminate].
    + absurd_in_pre Hpre Hinfo.
    + rewrite Htr in Hinfo. apply in_app_or in Hinfo.
      destruct Hinfo as [Hinfo | Hinfo]; [absurd_in_pre Hpre Hinfo |].
      destruct (revalidate_error h d0 bucket object rs hd lt opts cached m' w' e
                  Hinfo Hne Hdown) as [Hr Ho].
      rewrite Htr, Hout, Hr, List.rev_app_distr.
      split; [exact Ho | eexists; reflexivity].
  - intros Hinfo. exact (GetObjectInfo_error h c bucket object opts m w e Hinfo Hne Hdown).
Qed.

(** X9. When the backend answers with an object that is not cacheable,
    [GetObjectNInfo] reads it from the backend with the caller's arguments
    and returns that answer; this is the only call after the backend's
    [GetObjectInfo], and the calls before it are those of the cache read:
    nothing is written to, deleted from or started for the cache. *)
Theorem uncacheable_object_is_read_from_backend `{Externals} {W : Type} (h : Handler W)
    (c : cacheObjects) (bucket object : string) (rs : option HTTPRangeSpec) (hd : Header)
    (lt : LockType) (opts : ObjectOptions) (m : bool) (w : W) (objInfo : ObjectInfo) :
  let r := run h (CacheObjects.GetObjectNInfo c bucket object rs hd lt opts) m w in
  backendDownError None = false ->
  In (Call (GetObjectInfoFn bucket object opts) (inl objInfo)) (trace r) ->
  IsCacheable objInfo = false ->
  exists a pre,
    trace r = pre ++ [Call (GetObjectInfoFn bucket object opts) (inl objInfo);
                      Call (GetObjectNInfoFn bucket object rs hd lt opts) a] /\
    outcome r = Returned a /\
    Forall (fun en => isReadPhase (view en) = true) pre.
Proof.
  cbv zeta. intros Hnil Hinfo Hcacheable.
  destruct (GetObjectNInfo_phases h c bucket object rs hd lt opts m w)
    as [(pre & a & Htr & _ & Hpre & _)
       | [(d0 & cr0 & _ & _ & Hpre & _)
         | (pre & d0 & cached & m' & w' & Htr & Hout & Hpre & _)]];
    cbv zeta in *.
  - rewrite Htr in Hinfo. apply in_app_or in Hinfo.
    destruct Hinfo as [Hinfo | [Hinfo | []]];
      [absurd_in_pre Hpre Hinfo | apply (f_equal view) in Hinfo; discriminate].
  - absurd_in_pre Hpre Hinfo.
  - rewrite Htr in Hinfo. apply in_app_or in Hinfo.
    destruct Hinfo as [Hinfo | Hinfo]; [absurd_in_pre Hpre Hinfo |].
    destruct (revalidate_uncacheable h d0 bucket object rs hd lt opts cached m' w' objInfo
                Hnil Hinfo Hcacheable) as (a & Hr & Ho).
    exists a, pre. rewrite Htr, Hout, Hr.
    split; [reflexivity |]. split; [exact Ho | exact Hpre].
Qed.

(** X10. [GetObjectNInfo] keeps the locking discipline (every [Get] and
    [Delete] on a drive inside one lock of the right kind on the object,
    taken with [globalObjectTimeout], and no lock left held) on every path
    but one: after the backend's [ObjectNotFound] on a cache hit, where the
    cached reader is closed and the drive's [Delete] is called with no lock
    held; these are then the last three calls of the run. *)
Theorem GetObjectNInfo_unlocked_delete_only_after_not_found `{Externals} {W : Type}
    (h : Handler W) (c : cacheObjects) (bucket object : string)
    (rs : option HTTPRangeSpec) (hd : Header) (lt : LockType) (opts : ObjectOptions)
    (m : bool) (w : W) :
  let r := run h (CacheObjects.GetObjectNInfo c bucket object rs hd lt opts) m w in
  framed (trace r) = true \/
  (framed (trace r) = false /\
   exists pre d cacheReader b' o' a1 a2,
     trace r = pre ++ [Call (GetObjectInfoFn bucket object opts)
                         (inr (ObjectNotFound b' o'));
                       Call (reader_Close cacheReader) a1;
                       Call (dcache_Delete d bucket object) a2] /\
     In (Call (dcache_Get d bucket object rs hd opts) (inl cacheReader)) pre).
Proof.
  cbv zeta.
  destruct (GetObjectNInfo_phases h c bucket object rs hd lt opts m w)
    as [(pre & a & Htr & _ & _ & _ & Hframe)
       | [(d0 & cr0 & _ & _ & _ & _ & Hframe)
         | (pre & d0 & cached & m' & w' & Htr & _ & _ & _ & Hframe & _ & Hhit)]];
    cbv zeta in *.
  - left. rewrite Htr. unfold framed. rewrite Hframe. reflexivity.
  - left. exact Hframe.
  - rewrite Htr. unfold framed. rewrite Hframe.
    destruct (revalidate_framed h d0 bucket object rs hd lt opts cached m' w')
      as [Hf | (Hf & cr & b' & o' & a1 & a2 & -> & Hr)]; cbv zeta in *.
    + left. exact Hf.
    + right. split; [exact Hf |].
      exists pre, d0, cr, b', o', a1, a2. rewrite Hr.
      split; [reflexivity | apply Hhit; reflexivity].
Qed.

(** ** [GetObjectInfo] when the backend answers *)

Section InfoRuns.
Context `{Externals}.
Context {W : Type} (h : Handler W).

Lemma count_around (P : View -> bool) (pre tr post : Trace) :
  (forall d a, P (vIsOnline d a) = false) ->
  (forall d b o a, P (vExists d b o a) = false) ->
  Forall (fun en => isProbeCall en = true) tr ->
  count P (pre ++ tr ++ post) = (count P pre + count P post)%nat.
Proof.
  intros Hon Hex Hprobes. rewrite !count_app, (count_probes P tr Hon Hex Hprobes).
  reflexivity.
Qed.

(** X12. Whatever the backend, the drives and the locks answer, one
    [GetObjectInfo] returns, asks the backend at most once, stats the cache
    at most once and deletes at most one entry; it never reads a body, never
    writes or updates an entry, never signals the purger and never starts a
    goroutine; and it keeps the locking discipline on every path. *)
Theorem GetObjectInfo_call_budget (c : cacheObjects) (bucket object : string)
    (opts : ObjectOptions) (m : bool) (w : W) :
  let r := run h (CacheObjects.GetObjectInfo c bucket object opts) m w in
  framed (trace r) = true /\
  (exists x, outcome r = Returned x) /\
  (count isHead (trace r) <= 1)%nat /\
  (count isStat (trace r) <= 1)%nat /\
  (count isDelete (trace r) <= 1)%nat /\
  count isBody (trace r) = 0%nat /\
  count isGet (trace r) = 0%nat /\
  count isPut (trace r) = 0%nat /\
  count isUpdate (trace r) = 0%nat /\
  count isGo (trace r) = 0%nat /\
  count isTrySend (trace r) = 0%nat.
Proof.
  cbv zeta. split; [apply GetObjectInfo_framed |].
  remember (run h (CacheObjects.GetObjectInfo c bucket object opts) m w) as R eqn:HR.
  revert HR. unfold CacheObjects.GetObjectInfo.
  enter h c bucket object m w Hprobes;
    unfold CacheObjects.stat, CacheObjects.freshByCacheControl, CacheObjects.delete;
    explore h; intros ->; cbn [trace outcome].
  all: split; [eexists; reflexivity |].
  all: rewrite ?(count_around isHead), ?(count_around isStat), ?(count_around isDelete),
         ?(count_around isBody), ?(count_around isGet), ?(count_around isPut),
         ?(count_around isUpdate), ?(count_around isGo), ?(count_around isTrySend)
         by (reflexivity || exact Hprobes).
  all: cbn; repeat split; lia.
Qed.

(** X11. When the backend's [GetObjectInfo] succeeds, [GetObjectInfo]
    returns the backend's info, never the cached one.  If the cache stat had
    succeeded with another ETag, the entry is then deleted through
    [c.delete]: the exclusive lock is requested and, when it is granted, the
    drive's [Delete] is called and the lock released, these being the last
    calls.  If the stat had failed, or the ETags are equal, the backend call
    is the last call: nothing is deleted and nothing is refreshed. *)
Theorem GetObjectInfo_returns_backend_info (c : cacheObjects) (bucket object : string)
    (opts : ObjectOptions) (m : bool) (w : W) (objInfo : ObjectInfo) :
  let r := run h (CacheObjects.GetObjectInfo c bucket object opts) m w in
  In (Call (GetObjectInfoFn bucket object opts) (inl objInfo)) (trace r) ->
  outcome r = Returned (inl objInfo) /\
  (forall d cachedObjInfo,
      In (Call (dcache_Stat d bucket object) (inl cachedObjInfo)) (trace r) ->
      ETag cachedObjInfo <> ETag objInfo ->
      (exists e rest,
          List.rev (trace r) =
          Call (cLock_GetLock bucket object globalObjectTimeout) (Some e) ::
          Call (GetObjectInfoFn bucket object opts) (inl objInfo) :: rest) \/
      (exists a u rest,
          List.rev (trace r) =
          Call (cLock_Unlock bucket object) u :: Call (dcache_Delete d bucket object) a ::
          Call (cLock_GetLock bucket object globalObjectTimeout) None ::
          Call (GetObjectInfoFn bucket object opts) (inl objInfo) :: rest)) /\
  ((forall d cachedObjInfo,
      In (Call (dcache_Stat d bucket object) (inl cachedObjInfo)) (trace r) ->
      ETag cachedObjInfo = ETag objInfo) ->
   exists rest,
     List.rev (trace r) = Call (GetObjectInfoFn bucket object opts) (inl objInfo) :: rest).
Proof.
  cbv zeta.
  remember (run h (CacheObjects.GetObjectInfo c bucket object opts) m w) as R eqn:HR.
  revert HR. unfold CacheObjects.GetObjectInfo.
  enter h c bucket object m w Hprobes;
    unfold CacheObjects.stat, CacheObjects.freshByCacheControl, CacheObjects.delete;
    explore h; intros -> Hinfo; cbn [trace outcome] in *; leaf.
  all: view_in Hinfo ltac:(not_a_probe Hprobes); leaf.
  all: plain_tests.
  all: split; [reflexivity |].
  all: split;
    [ intros d' ci Hstat Hne; view_in Hstat ltac:(not_a_probe Hprobes); leaf;
      try match goal with
          | Heq : String.eqb _ _ = true |- _ =>
              apply String.eqb_eq in Heq; contradiction
          end;
      last_calls;
      first [ left; do 2 eexists; reflexivity | right; do 3 eexists; reflexivity ]
    | intros Hall;
      first [ last_calls; eexists; reflexivity
            | exfalso;
              match goal with
              | Hne : String.eqb (ETag ?ci) _ = false |- _ =>
                  apply String.eqb_neq in Hne; apply Hne;
                  eapply Hall; find_in
              end ] ].
Qed.

End InfoRuns.

(** ** The range fill *)

(** X13. The goroutine that fills the cache after a range request reads the
    whole object from the backend (no range) and stops there when that
    fails.  Otherwise it closes the backend reader as its last call,
    whatever happens in between, and keeps the locking discipline.  It asks
    for the exclusive lock, to write the object with the metadata of
    [getMetadata], exactly when the entry is not already current: when the
    locked [Stat] failed, or answered another ETag than the backend
    reader's. *)
Theorem rangeFill_writes_unless_current `{Externals} {W : Type} (h : Handler W)
    (d : diskCache) (bucket object : string) (hd : Header) (lt : LockType)
    (opts : ObjectOptions) (m : bool) (w : W) :
  let r := run h (CacheObjects.rangeFill d bucket object hd lt opts) m w in
  framed (trace r) = true /\
  outcome r = Returned tt /\
  exists b rest,
    trace r = Call (GetObjectNInfoFn bucket object None hd lt opts) b :: rest /\
    match b with
    | inr _ => rest = []
    | inl bReader =>
        (exists a rest', List.rev rest = Call (reader_Close bReader) a :: rest') /\
        (forall lk, In (Call (cLock_GetLock bucket object globalObjectTimeout) lk) rest ->
           (forall oi, In (Call (dcache_Stat d bucket object) (inl oi)) rest ->
                       ETag oi <> ETag (ObjInfo bReader)) /\
           (lk = None ->
            exists a, In (Call (dcache_Put d bucket object (readerOf bReader)
                                  (Size (ObjInfo bReader))
                                  (mkOpts (CacheObjects.getMetadata (ObjInfo bReader)) None))
                               a) rest)) /\
        ((forall oi, In (Call (dcache_Stat d bucket object) (inl oi)) rest ->
                     ETag oi <> ETag (ObjInfo bReader)) ->
         exists lk, In (Call (cLock_GetLock bucket object globalObjectTimeout) lk) rest) /\
        (count isPut rest <= 1)%nat
    end.
Proof.
  cbv zeta. unfold CacheObjects.rangeFill, CacheObjects.stat, CacheObjects.put.
  explore h.
  all: split;
    [ unfold framed; cbn [framedFrom frameStep isGlobalObjectTimeout];
      rewrite ?sameObject_refl; reflexivity |].
  all: split; [reflexivity |].
  all: do 2 eexists; (split; [reflexivity |]).
  all: try reflexivity.
  all: split; [last_calls; do 2 eexists; reflexivity |].
  all: split;
    [ intros lk Hlk; view_in Hlk ltac:(fun H => idtac);
      (split;
       [ intros oi Hstat; view_in Hstat ltac:(fun H => idtac); plain_tests;
         match goal with
         | Hne : String.eqb _ _ = false |- _ => apply String.eqb_neq in Hne; exact Hne
         end
       | intros Hnone; first [discriminate Hnone | eexists; find_in] ])
    | ].
  all: split; [| cbn; lia].
  all: intros Hall;
    first [ eexists; find_in
          | exfalso;
            match goal with
            | Heq : match ?x with _ => _ end = false |- _ =>
                destruct x as [oi | err]; [| discriminate Heq]
            end;
            plain_tests;
            match goal with
            | Heq : String.eqb (ETag ?oi) _ = true |- _ =>
                apply String.eqb_eq in Heq; eapply Hall; [find_in | exact Heq]
            end ].
Qed.

(** ** The cache side of a delete *)

Section DeleteRuns.
Context `{Externals}.
Context {W : Type} (h : Handler W).

(** What [getCacheLoc] returns answered online, and the walk asks nothing
    else. *)
Lemma getCacheLoc_located (c : cacheObjects) (bucket object : string) (m : bool) (w : W) :
  let r := run h (CacheObjects.getCacheLoc c bucket object) m w in
  migrating r = m /\
  Forall (fun en => isProbeCall en = true) (trace r) /\
  (forall d b o a, ~ In (vExists d b o a) (map view (trace r))) /\
  exists x, outcome r = Returned x /\
    forall d, x = inl d -> In (Call (dcache_IsOnline d) true) (trace r).
Proof.
  cbv zeta.
  destruct (getCacheLoc_shape h c bucket object m w) as (Hm & Hprobes & _).
  cbv zeta in Hm, Hprobes.
  split; [exact Hm |]. split; [exact Hprobes |].
  destruct (getCacheLoc_loop_probes h c bucket object (length (cache c)) 0 m w eq_refl)
    as [(j & d & _ & _ & Hout & Htr) | [Hout Htr]];
    change (Z.of_nat 0) with 0 in *; fold (CacheObjects.getCacheLoc c bucket object) in *;
    rewrite Htr, Hout.
  - split.
    + intros d' b o a Hin. rewrite List.map_app, List.map_map in Hin.
      apply in_app_or in Hin. destruct Hin as [Hin | [Hin | []]]; [| discriminate].
      apply List.in_map_iff in Hin. destruct Hin as (x & Hx & _). discriminate.
    + exists (inl d). split; [reflexivity |]. intros d' [= <-].
      apply in_or_app. right. left. reflexivity.
  - split.
    + intros d' b o a Hin. rewrite List.map_map in Hin.
      apply List.in_map_iff in Hin. destruct Hin as (x & Hx & _). discriminate.
    + exists (inr errDiskNotFound). split; [reflexivity |]. intros d' [=].
Qed.

End DeleteRuns.

(** The cache side of [DeleteObject]. *)
Lemma DeleteObject_cache_side `{Externals} {W : Type} (h : Handler W)
    (c : cacheObjects) (bucket object : string) (m : bool) (w : W) :
  let r := run h (CacheObjects.DeleteObject c bucket object) m w in
  framed (trace r) = true /\
  (forall d x, In (Call (dcache_Delete d bucket object) x) (trace r) ->
     In (Call (dcache_IsOnline d) true) (trace r) /\
     In (Call (dcache_Exists d bucket object) true) (trace r) /\
     outcome r = Returned None) /\
  (forall d, In (Call (dcache_Exists d bucket object) true) (trace r) ->
     exists lk,
       In (Call (cLock_GetLock bucket object globalObjectTimeout) lk) (trace r) /\
       (lk = None -> exists x, In (Call (dcache_Delete d bucket object) x) (trace r))) /\
  (forall d, In (Call (dcache_Exists d bucket object) false) (trace r) ->
     exists rest, List.rev (trace r) = Call (dcache_Exists d bucket object) false :: rest).
Proof.
  cbv zeta.
  remember (run h (CacheObjects.DeleteObject c bucket object) m w) as R eqn:HR.
  revert HR. unfold CacheObjects.DeleteObject.
  cbn [run bind trigger step fst snd trace outcome world migrating].
  destruct (h (option error) (DeleteObjectFn bucket object) w) as [w0 a] eqn:E.
  cbn [fst snd]. destruct a as [err |].
  - cbn [run trace outcome world migrating]. intros ->. cbn [trace outcome].
    split; [reflexivity |].
    split; [intros d x Hin; view_in Hin ltac:(fun H => idtac) |].
    split; intros d Hin; view_in Hin ltac:(fun H => idtac).
  - rewrite run_bind, bypass_run.
    destruct (CacheObjects.isCacheExclude c bucket object) eqn:Hexcl;
      [| destruct m eqn:Hm]; unfold andThen;
      cbn [run trace outcome world migrating].
    + intros ->. cbn [trace outcome].
      split; [reflexivity |].
      split; [intros d x Hin; view_in Hin ltac:(fun H => idtac) |].
      split; intros d Hin; view_in Hin ltac:(fun H => idtac).
    + intros ->. cbn [trace outcome].
      split; [reflexivity |].
      split; [intros d x Hin; view_in Hin ltac:(fun H => idtac) |].
      split; intros d Hin; view_in Hin ltac:(fun H => idtac).
    + rewrite run_bind.
      pose proof (getCacheLoc_located h c bucket object false w0) as Hloc.
      cbv zeta in Hloc.
      destruct (run h (CacheObjects.getCacheLoc c bucket object) false w0)
        as [m1 w1 tr1 out1].
      cbn [migrating trace outcome] in Hloc.
      destruct Hloc as (-> & Hprobes & Hnoex & [loc [-> Hon]]).
      unfold andThen; cbn [outcome trace migrating world].
      destruct loc as [dcache | err];
        [specialize (Hon dcache eq_refl) | clear Hon];
        unfold CacheObjects.delete; explore h.
      all: intros ->; cbn [trace outcome].
      all: split;
        [ unfold framed; cbn [List.app framedFrom frameStep];
          rewrite ?framedFrom_probes by exact Hprobes;
          cbn [framedFrom frameStep isGlobalObjectTimeout];
          rewrite ?sameObject_refl; reflexivity |].
      all: split;
        [ intros d' x Hin; view_in Hin ltac:(not_a_probe Hprobes);
          (split; [find_in | split; [find_in | reflexivity]]) |].
      all: split;
        [ intros d' Hin;
          view_in Hin ltac:(fun H => exact (False_ind _ (Hnoex _ _ _ _ H)));
          eexists; (split; [find_in |]);
          intros Hnone; first [discriminate Hnone | eexists; find_in]
        | intros d' Hin;
          view_in Hin ltac:(fun H => exact (False_ind _ (Hnoex _ _ _ _ H)));
          cbn [List.rev]; last_calls; eexists; reflexivity ].
Qed.

(** X14. [DeleteObject] keeps the locking discipline.  On the cache side it
    asks one drive, the one its walk located, whether it holds the object:
    a drive's [Delete] is called only on a drive that answered online and
    answered that it holds the object, and it is called, through [c.delete],
    whenever the exclusive lock is granted; when the drive answers that it
    does not hold the object this is the last call.  A failure on the cache
    side never reaches the caller: the result is the backend's nil. *)
Theorem DeleteObject_drops_the_entry_it_finds `{Externals} {W : Type} (h : Handler W)
    (c : cacheObjects) (bucket object : string) (m : bool) (w : W) :
  let r := run h (CacheObjects.DeleteObject c bucket object) m w in
  framed (trace r) = true /\
  (forall d x, In (Call (dcache_Delete d bucket object) x) (trace r) ->
     In (Call (dcache_IsOnline d) true) (trace r) /\
     In (Call (dcache_Exists d bucket object) true) (trace r) /\
     outcome r = Returned None) /\
  (forall d, In (Call (dcache_Exists d bucket object) true) (trace r) ->
     exists lk,
       In (Call (cLock_GetLock bucket object globalObjectTimeout) lk) (trace r) /\
       (lk = None -> exists x, In (Call (dcache_Delete d bucket object) x) (trace r))) /\
  (forall d, In (Call (dcache_Exists d bucket object) false) (trace r) ->
     exists rest, List.rev (trace r) = Call (dcache_Exists d bucket object) false :: rest).
Proof. exact (DeleteObject_cache_side h c bucket object m w). Qed.


Section BatchDeletes.
Context `{Externals}.
Context {W : Type} (h : Handler W).
Variables (c : cacheObjects) (bucket : string).

Lemma framedFrom_app (held : Held) (tr1 tr2 : Trace) :
  framedFrom held tr1 = true ->
  framedFrom held (tr1 ++ tr2) = framedFrom holdsNothing tr2.
Proof.
  revert held. induction tr1 as [| en tr1 IH]; intros held Hf.
  - destruct held; (discriminate || reflexivity).
  - cbn [List.app framedFrom] in *. destruct (frameStep held en); [| discriminate].
    apply IH. exact Hf.
Qed.

Lemma backendDeletes_app (tr1 tr2 : Trace) :
  backendDeletes (tr1 ++ tr2) = backendDeletes tr1 ++ backendDeletes tr2.
Proof. apply omap_app. Qed.

Lemma backendDeletes_none (tr : Trace) :
  Forall (fun en => isBackendCall en = false) tr -> backendDeletes tr = [].
Proof.
  induction 1 as [| [T e a] tr Hen _ IH]; [reflexivity |].
  unfold backendDeletes in *. cbn [omap list_omap]. rewrite IH.
  destruct e; try discriminate Hen; reflexivity.
Qed.

Lemma deleteEach_traces (objects : list string) (m : bool) (w : W)
    (es : list (option error)) :
  Forall2 (fun ri e => outcome ri = Returned e) (deleteEach h c bucket objects m w) es ->
  let tr := concat (map trace (deleteEach h c bucket objects m w)) in
  backendDeletes tr = zip_with (fun o e => (bucket, o, e)) objects es /\
  framed tr = true.
Proof.
  revert m w es. induction objects as [| object rest IH]; intros m w es Hall.
  - apply Forall2_nil_inv_l in Hall. subst es. split; reflexivity.
  - cbn [deleteEach] in Hall |- *.
    destruct (DeleteObject_run h c bucket object m w)
      as (rest1 & Htr & Hout & _ & Hback & _).
    destruct (DeleteObject_cache_side h c bucket object m w) as (Hframed & _).
    cbv zeta in Htr, Hout, Hframed.
    remember (run h (CacheObjects.DeleteObject c bucket object) m w) as r1 eqn:Hr1.
    apply Forall2_cons_inv_l in Hall. destruct Hall as (e1 & es' & He1 & Hrest & ->).
    destruct (IH _ _ _ Hrest) as [Hdel Hfr]. cbv zeta in Hdel, Hfr.
    cbn [map concat zip_with]. split.
    + rewrite backendDeletes_app, Hdel, Htr.
      rewrite Hout in He1. injection He1 as <-.
      unfold backendDeletes at 1. cbn [omap list_omap view].
      fold (backendDeletes rest1).
      rewrite (backendDeletes_none rest1 Hback). reflexivity.
    + unfold framed in *. rewrite (framedFrom_app _ _ _ Hframed). exact Hfr.
Qed.

End BatchDeletes.

(** X15. [DeleteObjects] calls the backend's delete once per object, in
    input order, and the error it reports for an object is exactly what the
    backend answered for it: a failure on the cache side is never reported.
    The whole run keeps the locking discipline. *)
Theorem DeleteObjects_reports_the_backend_answers `{Externals} {W : Type} (h : Handler W)
    (c : cacheObjects) (bucket : string) (objects : list string) (m : bool) (w : W) :
  let r := run h (CacheObjects.DeleteObjects c bucket objects) m w in
  exists errs : list (option error),
    outcome r = Returned (errs, None) /\
    length errs = length objects /\
    backendDeletes (trace r) = zip_with (fun o e => (bucket, o, e)) objects errs /\
    framed (trace r) = true.
Proof.
  cbv zeta. unfold CacheObjects.DeleteObjects. rewrite run_bind.
  destruct (DeleteObjects_loop_run h c bucket objects 0 (replicate (length objects) None)
              m w) as (es & Hout & Hall & Htr & _).
  { rewrite length_replicate. reflexivity. }
  cbv zeta in Hout, Hall, Htr. rewrite take_0, app_nil_l in Hout.
  unfold andThen. rewrite Hout. cbn [run trace outcome migrating world].
  exists es. split; [reflexivity |].
  destruct (deleteEach_traces h c bucket objects m w es Hall) as [Hdel Hfr].
  cbv zeta in Hdel, Hfr. rewrite Htr, app_nil_r.
  split; [| split; [exact Hdel | exact Hfr]].
  rewrite <- (Forall2_length _ _ _ Hall).
  clear. revert m w. induction objects as [| o rest IH]; intros m w; simpl;
    [reflexivity | rewrite IH; reflexivity].
Qed.

(** X19. With the drives' online states fixed, the only drive that
    [DeleteObject] asks for the object, and the only one it deletes from, is
    the placement drive: the first online drive of the circular walk, which
    is where [getCacheLoc] sends a write.  An entry that sits on another
    drive, where [getCacheToLoc] finds it for a read, is neither looked for
    nor deleted. *)
Theorem DeleteObject_only_asks_the_placement_drive `{Externals} {W : Type}
    (h : Handler W) (c : cacheObjects) (bucket object : string)
    (online : diskCache -> bool) (m : bool) (w : W) :
  let w0 := fst (h _ (DeleteObjectFn bucket object) w) in
  (forall d, h bool (dcache_IsOnline d) w0 = (w0, online d)) ->
  let r := run h (CacheObjects.DeleteObject c bucket object) m w in
  forall d,
    (exists a, In (Call (dcache_Exists d bucket object) a) (trace r)) \/
    (exists a, In (Call (dcache_Delete d bucket object) a) (trace r)) ->
    LocateForWrite online c bucket object = inl d.
Proof.
  cbv zeta.
  remember (run h (CacheObjects.DeleteObject c bucket object) m w) as R eqn:HR.
  revert HR. unfold CacheObjects.DeleteObject.
  cbn [run bind trigger step fst snd trace outcome world migrating].
  destruct (h (option error) (DeleteObjectFn bucket object) w) as [w0 a] eqn:E.
  cbn [fst snd]. destruct a as [err |].
  - cbn [run trace outcome world migrating]. intros -> Hon d. cbn [trace].
    intros [[a Hin] | [a Hin]]; view_in Hin ltac:(fun H => idtac).
  - rewrite run_bind, bypass_run.
    destruct (CacheObjects.isCacheExclude c bucket object) eqn:Hexcl;
      [| destruct m eqn:Hm]; unfold andThen;
      cbn [run trace outcome world migrating].
    + intros -> Hon d. cbn [trace].
      intros [[a Hin] | [a Hin]]; view_in Hin ltac:(fun H => idtac).
    + intros -> Hon d. cbn [trace].
      intros [[a Hin] | [a Hin]]; view_in Hin ltac:(fun H => idtac).
    + intros HR Hon. revert HR. rewrite run_bind.
      pose proof (getCacheLoc_loop_fixed h c bucket object online w0 Hon
                    (length (cache c)) 0 false eq_refl) as [Hout _].
      pose proof (getCacheLoc_located h c bucket object false w0) as Hloc.
      cbv zeta in Hout, Hloc. change (Z.of_nat 0) with 0 in Hout.
      fold (CacheObjects.getCacheLoc c bucket object) in Hout.
      rewrite drop_0 in Hout. fold (LocateForWrite online c bucket object) in Hout.
      destruct (run h (CacheObjects.getCacheLoc c bucket object) false w0)
        as [m1 w1 tr1 out1].
      cbn [migrating trace outcome] in Hout, Hloc.
      destruct Hloc as (-> & Hprobes & Hnoex & _). subst out1.
      unfold andThen; cbn [outcome trace migrating world].
      destruct (LocateForWrite online c bucket object) as [dcache | err];
        unfold CacheObjects.delete; explore h.
      all: intros -> d; cbn [trace].
      all: intros [[a' Hin] | [a' Hin]].
      all: first
        [ view_in Hin ltac:(fun H => exact (False_ind _ (Hnoex _ _ _ _ H))); reflexivity
        | view_in Hin ltac:(not_a_probe Hprobes); reflexivity ].
Qed.

(** ** Migration: purgers and logged errors *)

Section MigrationCalls.
Context `{Externals}.
Context {W : Type} (h : Handler W).




End MigrationCalls.


(** ** Statistics and start-up *)

Section Executions.
Context {E : Type -> Type} {W : Type} (h : forall T : Type, E T -> W -> W * T).

Lemma exec_andAlso {A B : Type} (p : Proc E A) (f : A -> Proc E B) (w : W) :
  exec h (andAlso p f) w =
  match result (exec h p w) with
  | Returned a =>
      let r2 := exec h (f a) (after (exec h p w)) in
      mkExec (after r2) (calls (exec h p w) ++ calls r2) (result r2)
  | Panicked msg => mkExec (after (exec h p w)) (calls (exec h p w)) (Panicked msg)
  end.
Proof.
  revert w. induction p as [a | msg | T e k IH]; intros w.
  - simpl. destruct (exec h (f a) w); reflexivity.
  - reflexivity.
  - simpl. rewrite IH. destruct (result (exec h (k _) _)); reflexivity.
Qed.

End Executions.

Lemma uint64_add_l (a b : Z) : uint64 (uint64 a + b) = uint64 (a + b).
Proof. unfold uint64. apply Zplus_mod_idemp_l. Qed.

Section StorageRuns.
Context {W : Type} (h : forall T : Type, Storage.StorageE T -> W -> W * T).

Lemma sumZ_cons (a : Z) (l : list Z) : sumZ (a :: l) = a + sumZ l.
Proof. reflexivity. Qed.

Lemma StorageInfo_step (p : string) (a : disk.Info * option error) (u2 u3 : unit)
    (tr : list (Asked Storage.StorageE)) :
  let tr' := Answered (Storage.getDiskInfo p) a ::
             Answered (Storage.logger_AppendTags "cachePath" p) u2 ::
             Answered (Storage.logger_LogIf (snd a)) u3 :: tr in
  Storage.diskInfos tr' = (p, a) :: Storage.diskInfos tr /\
  Storage.logged tr' = snd a :: Storage.logged tr /\
  Storage.tagged tr' = ("cachePath", p) :: Storage.tagged tr.
Proof. split; [reflexivity |]. split; reflexivity. Qed.

Lemma StorageInfo_loop_sums (slots : list (option diskCache)) (total free : Z) (w : W) :
  let r := exec h (Storage.StorageInfo_loop slots total free) w in
  let infos := Storage.diskInfos (calls r) in
  map fst infos = map dir (omap id slots) /\
  (exists tf, result r = Returned tf /\
     uint64 (fst tf) = uint64 (total + sumZ (map (fun x => disk.Total (fst (snd x))) infos)) /\
     uint64 (snd tf) = uint64 (free + sumZ (map (fun x => disk.Free (fst (snd x))) infos)) /\
     (uint64 total = total -> uint64 (fst tf) = fst tf) /\
     (uint64 free = free -> uint64 (snd tf) = snd tf)) /\
  Storage.logged (calls r) = map (fun x => snd (snd x)) infos /\
  Storage.tagged (calls r) = map (fun x => ("cachePath", fst x)) infos.
Proof.
  revert total free w. induction slots as [| s slots IH]; intros total free w; cbv zeta.
  - cbn. split; [reflexivity |]. split; [| split; reflexivity].
    exists (total, free). cbn. rewrite !Z.add_0_r.
    repeat split; try reflexivity; intros Heq; exact Heq.
  - destruct s as [cache |]; [| exact (IH total free w)].
    cbn [Storage.StorageInfo_loop andAlso ask exec fst snd calls result after].
    destruct (h _ (Storage.getDiskInfo (dir cache)) w) as [w1 a] eqn:E1.
    cbn [fst snd].
    destruct (h _ (Storage.logger_AppendTags "cachePath" (dir cache)) w1) as [w2 u2] eqn:E2.
    cbn [fst snd].
    destruct (h _ (Storage.logger_LogIf (snd a)) w2) as [w3 u3] eqn:E3.
    cbn [fst snd].
    destruct (IH (uint64 (total + disk.Total (fst a))) (uint64 (free + disk.Free (fst a))) w3)
      as (Hpaths & (tf & Hres & Htotal & Hfree & Hwt & Hwf) & Hlog & Htag).
    cbv zeta in Hpaths, Hres, Htotal, Hfree, Hlog, Htag.
    match goal with
    | |- context [Storage.diskInfos (_ :: _ :: _ :: ?tr)] =>
        destruct (StorageInfo_step (dir cache) a u2 u3 tr) as (Hd & Hl & Ht)
    end.
    cbv zeta in Hd, Hl, Ht. rewrite Hd, Hl, Ht.
    cbn [map fst snd id omap list_omap]. rewrite !sumZ_cons.
    split; [rewrite Hpaths; reflexivity |].
    split; [| split; [rewrite Hlog; reflexivity | rewrite Htag; reflexivity]].
    exists tf. split; [exact Hres |].
    split; [rewrite Htotal, uint64_add_l, Z.add_assoc; reflexivity |].
    split; [rewrite Hfree, uint64_add_l, Z.add_assoc; reflexivity |].
    split; intros _; [apply Hwt | apply Hwf]; unfold uint64; apply Zmod_mod.
Qed.

End StorageRuns.

(** X17. [StorageInfo] asks the disk information of every non-nil drive
    once, in slice order, skipping the nil slots; its totals are the sums of
    the totals and of the free space that were answered, in [uint64]
    arithmetic.  The error of every answer is handed to the logger, with the
    drive's path as the tag "cachePath"; an error does not stop the loop and
    the numbers answered with it are still added. *)
Theorem StorageInfo_sums_the_drives {W : Type}
    (h : forall T : Type, Storage.StorageE T -> W -> W * T) (c : cacheObjects) (w : W) :
  let r := exec h (Storage.StorageInfo c) w in
  let infos := Storage.diskInfos (calls r) in
  map fst infos = map dir (omap id (cache c)) /\
  result r =
    Returned (Storage.mkCacheStorageInfo
                (uint64 (sumZ (map (fun x => disk.Total (fst (snd x))) infos)))
                (uint64 (sumZ (map (fun x => disk.Free (fst (snd x))) infos)))) /\
  Storage.logged (calls r) = map (fun x => snd (snd x)) infos /\
  Storage.tagged (calls r) = map (fun x => ("cachePath", fst x)) infos.
Proof.
  cbv zeta. unfold Storage.StorageInfo. rewrite exec_andAlso.
  destruct (StorageInfo_loop_sums h (cache c) 0 0 w)
    as (Hpaths & (tf & Hres & Htotal & Hfree & Hwt & Hwf) & Hlog & Htag).
  cbv zeta in Hpaths, Hres, Htotal, Hfree, Hlog, Htag.
  rewrite Hres. cbn [exec calls result after]. rewrite !app_nil_r.
  split; [exact Hpaths |]. split; [| split; [exact Hlog | exact Htag]].
  rewrite Z.add_0_l in Htotal, Hfree.
  rewrite <- Htotal, <- Hfree, (Hwt eq_refl), (Hwf eq_refl). reflexivity.
Qed.

Section BootRuns.
Context {formatCacheV2 : Type} {W : Type}.
Context (h : forall T : Type, Boot.BootE formatCacheV2 T -> W -> W * T).
Variable config : CacheConfig.

Lemma newCache_loop_slots (formats : list (option formatCacheV2)) (mig : bool) (i : nat)
    (drives : list string) (caches : list (option diskCache)) (w : W) :
  (i + length drives <= length formats)%nat ->
  let r := exec h (Boot.newCache_loop config formats mig i drives caches) w in
  exists x, result r = Returned x /\
    match x with
    | inl (caches', mig') =>
        mig' = mig /\
        exists new, caches' = caches ++ new /\ length new = length drives /\
          (forall j : nat, new !! j = Some None <->
                           (j < length drives)%nat /\ formats !! (i + j)%nat = Some None) /\
          Boot.made (calls r) = omap (Boot.madeFor config) (zip drives new) /\
          Boot.purgers (calls r) = (if mig then [] else omap id new)
    | inr e =>
        (e = errorString "Atime support required for disk caching" /\
         exists dir e0, In (dir, Some e0) (Boot.atimeChecks (calls r))) \/
        (exists dir, In (dir, Expiry config, MaxUse config, inr e) (Boot.made (calls r)))
    end.
Proof.
  revert i caches w. induction drives as [| dir rest IH]; intros i caches w Hlen; cbv zeta.
  - cbn. eexists. split; [reflexivity |]. split; [reflexivity |].
    exists []. rewrite app_nil_r. split; [reflexivity |]. split; [reflexivity |].
    split; [| destruct mig; split; reflexivity].
    intros j. split; [intros Hj; destruct j; discriminate | intros [Hj _]; lia].
  - cbn [length] in Hlen. cbn [Boot.newCache_loop].
    destruct (lookup_lt_is_Some_2 formats i ltac:(lia)) as [f Hf]. rewrite Hf.
    assert (Hshift : forall j, formats !! (S i + j)%nat = formats !! (i + S j)%nat).
    { intros j. f_equal. lia. }
    destruct f as [f |].
    + cbn [andAlso ask exec fst snd calls result after].
      destruct (h _ (Boot.checkAtimeSupport dir) w) as [w1 aerr] eqn:E1. cbn [fst snd].
      destruct aerr as [e0 |]; cbn [andAlso ask exec fst snd calls result after].
      * eexists. split; [reflexivity |]. left. split; [reflexivity |].
        exists dir, e0. left. reflexivity.
      * match goal with
        | |- context [h ?T (Boot.newdiskCache dir (Expiry config) (MaxUse config)) w1] =>
            destruct (h T (Boot.newdiskCache dir (Expiry config) (MaxUse config)) w1)
              as [w2 created] eqn:E2
        end.
        cbn [fst snd].
        destruct created as [cache | err]; cbn [andAlso ask exec fst snd calls result after].
        -- assert (Hafter : forall w3 (pre : list (Asked (Boot.BootE formatCacheV2))),
                     Boot.made pre = [] ->
                     Boot.purgers pre = (if mig then [] else [cache]) ->
                     let r := exec h (Boot.newCache_loop config formats mig (S i) rest
                                        (caches ++ [Some cache])) w3 in
                     exists x, result r = Returned x /\
                       match x with
                       | inl (caches', mig') =>
                           mig' = mig /\
                           exists new, caches' = caches ++ new /\
                             length new = length (dir :: rest) /\
                             (forall j : nat, new !! j = Some None <->
                                (j < length (dir :: rest))%nat /\
                                formats !! (i + j)%nat = Some None) /\
                             Boot.made (Answered (Boot.checkAtimeSupport dir) None ::
                                        Answered (Boot.newdiskCache dir (Expiry config)
                                                    (MaxUse config)) (inl cache) ::
                                        pre ++ calls r) =
                               omap (Boot.madeFor config) (zip (dir :: rest) new) /\
                             Boot.purgers (Answered (Boot.checkAtimeSupport dir) None ::
                                           Answered (Boot.newdiskCache dir (Expiry config)
                                                       (MaxUse config)) (inl cache) ::
                                           pre ++ calls r) =
                               (if mig then [] else omap id new)
                       | inr e =>
                           (e = errorString "Atime support required for disk caching" /\
                            exists dir' e0,
                              In (dir', Some e0)
                                 (Boot.atimeChecks
                                    (Answered (Boot.checkAtimeSupport dir) None ::
                                     Answered (Boot.newdiskCache dir (Expiry config)
                                                 (MaxUse config)) (inl cache) ::
                                     pre ++ calls r))) \/
                           (exists dir',
                              In (dir', Expiry config, MaxUse config, inr e)
                                 (Boot.made
                                    (Answered (Boot.checkAtimeSupport dir) None ::
                                     Answered (Boot.newdiskCache dir (Expiry config)
                                                 (MaxUse config)) (inl cache) ::
                                     pre ++ calls r)))
                       end).
           { intros w3 pre Hmade Hpurge. cbv zeta.
             destruct (IH (S i) (caches ++ [Some cache]) w3 ltac:(lia)) as (x & Hres & Hx).
             cbv zeta in Hres, Hx. exists x. split; [exact Hres |].
             unfold Boot.made, Boot.purgers, Boot.atimeChecks in *.
             cbn [omap list_omap]. rewrite !omap_app, ?Hmade, ?Hpurge.
             destruct x as [[caches' mig'] | e].
             - destruct Hx as (-> & new & -> & Hnew & Hnil & Hmd & Hpg).
               split; [reflexivity |]. exists (Some cache :: new).
               split; [rewrite <- app_assoc; reflexivity |].
               split; [cbn [length]; rewrite Hnew; reflexivity |].
               split; [| split].
               + intros [| j]; cbn [lookup list_lookup length].
                 * rewrite Nat.add_0_r, Hf. split; [discriminate | intros [_ Hj]; discriminate].
                 * rewrite (Hnil j), Hshift. split; intros [Hj Hfj]; (split; [lia | exact Hfj]).
               + cbn [zip zip_with omap list_omap Boot.madeFor fst snd app].
                 rewrite Hmd. reflexivity.
               + rewrite Hpg. destruct mig; reflexivity.
             - destruct Hx as [(-> & dir' & e0 & Hin) | (dir' & Hin)].
               + left. split; [reflexivity |]. exists dir', e0.
                 right. apply in_or_app. right. exact Hin.
               + right. exists dir'. right. apply in_or_app. right. exact Hin. }
           destruct (negb mig) eqn:Hn; cbn [andAlso ask exec fst snd calls result after].
           ++ apply negb_true_iff in Hn.
              destruct (h _ (Boot.go_purge cache) w2) as [w3 u] eqn:E3. cbn [fst snd].
              apply (Hafter w3 [Answered (Boot.go_purge cache) u] eq_refl).
              rewrite Hn. reflexivity.
           ++ apply negb_false_iff in Hn.
              apply (Hafter w2 [] eq_refl). rewrite Hn. reflexivity.
        -- eexists. split; [reflexivity |]. right. exists dir. left. reflexivity.
    + destruct (IH (S i) (caches ++ [None]) w ltac:(lia)) as (x & Hres & Hx).
      cbv zeta in Hres, Hx. exists x. split; [exact Hres |].
      destruct x as [[caches' mig'] | e]; [| exact Hx].
      destruct Hx as (-> & new & -> & Hnew & Hnil & Hmd & Hpg).
      split; [reflexivity |]. exists (None :: new).
      split; [rewrite <- app_assoc; reflexivity |].
      split; [cbn [length]; rewrite Hnew; reflexivity |].
      split; [| split; [rewrite Hmd; reflexivity | rewrite Hpg; destruct mig; reflexivity]].
      intros [| j]; cbn [lookup list_lookup length].
      * rewrite Nat.add_0_r, Hf. split; [intros _; split; [lia | reflexivity] | reflexivity].
      * rewrite (Hnil j), Hshift. split; intros [Hj Hfj]; (split; [lia | exact Hfj]).
Qed.

End BootRuns.

(** X18. [newCache] returns the loader's error as it is, without touching
    a drive.  Otherwise, the loader having answered one format slot per
    configured drive, it does not fail on an index, and on success the
    result has one slot per drive, in order: nil exactly where the drive has
    no format, and elsewhere the drive that [newdiskCache] made for that
    directory with the configured expiry and quota; the migration flag is
    the loader's, and a purger is started for every drive made exactly when
    no migration is needed.  When it fails, a failed atime check has been
    replaced by the fixed error "Atime support required for disk caching",
    and any other error is the one [newdiskCache] answered. *)
Theorem newCache_one_slot_per_drive {formatCacheV2 : Type} {W : Type}
    (h : forall T : Type, Boot.BootE formatCacheV2 T -> W -> W * T)
    (config : CacheConfig) (w w' : W) (formats : list (option formatCacheV2))
    (mig : bool) (lerr : option error) :
  h _ (Boot.loadAndValidateCacheFormat (Drives config)) w = (w', (formats, mig, lerr)) ->
  let r := exec h (Boot.newCache config) w in
  match lerr with
  | Some e => result r = Returned (inr e) /\ length (calls r) = 1%nat
  | None =>
      (length (Drives config) <= length formats)%nat ->
      exists x, result r = Returned x /\
        match x with
        | inl (caches, mig') =>
            mig' = mig /\
            length caches = length (Drives config) /\
            (forall j : nat, caches !! j = Some None <->
                             (j < length (Drives config))%nat /\ formats !! j = Some None) /\
            Boot.made (calls r) = omap (Boot.madeFor config) (zip (Drives config) caches) /\
            Boot.purgers (calls r) = (if mig then [] else omap id caches)
        | inr e =>
            (e = errorString "Atime support required for disk caching" /\
             exists dir e0, In (dir, Some e0) (Boot.atimeChecks (calls r))) \/
            (exists dir, In (dir, Expiry config, MaxUse config, inr e) (Boot.made (calls r)))
        end
  end.
Proof.
  intros Hload. cbv zeta. unfold Boot.newCache.
  cbn [andAlso ask exec fst snd calls result after]. rewrite Hload. cbn [fst snd].
  destruct lerr as [e |].
  - cbn. split; reflexivity.
  - intros Hlen.
    destruct (newCache_loop_slots h config formats mig 0 (Drives config) [] w' Hlen)
      as (x & Hres & Hx).
    cbv zeta in Hres, Hx. exists x. split; [exact Hres |].
    destruct x as [[caches mig'] | e].
    + destruct Hx as (-> & new & -> & Hnew & Hnil & Hmd & Hpg).
      rewrite app_nil_l. split; [reflexivity |]. split; [exact Hnew |].
      split; [exact Hnil |]. split; [exact Hmd | exact Hpg].
    + destruct Hx as [(-> & dir & e0 & Hin) | (dir & Hin)].
      * left. split; [reflexivity |]. exists dir, e0. exact Hin.
      * right. exists dir. exact Hin.
Qed.

(** ** Degraded mode: no drive online *)

Section OfflineRuns.
Context `{Externals}.
Context {W : Type} (h : Handler W).
Variables (c : cacheObjects) (bucket object : string).

Lemma firstAnsweredExists_none (tr : Trace) :
  (forall d b o, ~ In (Call (dcache_Exists d b o) true) tr) -> firstAnsweredExists tr = None.
Proof.
  intros Hno. destruct (firstAnsweredExists tr) as [d |] eqn:Hf; [| reflexivity].
  apply firstAnsweredExists_In in Hf. destruct Hf as (b & o & Hin).
  exfalso. exact (Hno d b o Hin).
Qed.

Lemma firstAnsweredOnline_none (tr : Trace) :
  (forall d, ~ In (Call (dcache_IsOnline d) true) tr) ->
  firstAnsweredOnline tr = inr errDiskNotFound.
Proof.
  intros Hno. induction tr as [| [T e a] tr IH]; [reflexivity |].
  assert (Hrest : firstAnsweredOnline tr = inr errDiskNotFound).
  { apply IH. intros d Hin. apply (Hno d). right. exact Hin. }
  destruct e; cbn [firstAnsweredOnline view]; try exact Hrest.
  destruct a; [| exact Hrest]. exfalso. apply (Hno d). left. reflexivity.
Qed.

(** When no drive answers online the read walk finds nothing, having asked
    nothing else. *)
Lemma getCacheToLoc_offline (m : bool) (w : W) :
  let r := run h (CacheObjects.getCacheToLoc c bucket object) m w in
  (forall d, ~ In (Call (dcache_IsOnline d) true) (trace r)) ->
  outcome r = Returned (inr errDiskNotFound) /\
  Forall (fun en => isFlagOrOffline (view en) = true) (trace r).
Proof.
  cbv zeta. intros Hno.
  destruct (getCacheToLoc_loop_probes h c bucket object (length (cache c)) 0 None m w
              eq_refl) as (_ & Hall & Hout & Hex).
  cbv zeta in Hall, Hout, Hex. change (Z.of_nat 0) with 0 in *.
  fold (CacheObjects.getCacheToLoc c bucket object) in *.
  split.
  - rewrite Hout, firstAnsweredExists_none, firstAnsweredOnline_none; [reflexivity | exact Hno |].
    intros d b o Hin. exact (Hno d (Hex d b o true Hin)).
  - rewrite List.Forall_forall in Hall |- *. intros [T e a] Hin.
    destruct (Hall _ Hin) as (d & Hd & _).
    destruct e; try discriminate Hd; cbn [view isFlagOrOffline].
    + destruct a; [| reflexivity]. exfalso. exact (Hno _ Hin).
    + exfalso. exact (Hno _ (Hex _ _ _ _ Hin)).
Qed.

Lemma getCacheLoc_offline (m : bool) (w : W) :
  let r := run h (CacheObjects.getCacheLoc c bucket object) m w in
  (forall d, ~ In (Call (dcache_IsOnline d) true) (trace r)) ->
  outcome r = Returned (inr errDiskNotFound) /\
  Forall (fun en => isFlagOrOffline (view en) = true) (trace r).
Proof.
  cbv zeta. intros Hno.
  destruct (getCacheLoc_loop_probes h c bucket object (length (cache c)) 0 m w eq_refl)
    as [(j & d & _ & _ & _ & Htr) | [Hout Htr]];
    change (Z.of_nat 0) with 0 in *; fold (CacheObjects.getCacheLoc c bucket object) in *.
  - exfalso. apply (Hno d). rewrite Htr. apply in_or_app. right. left. reflexivity.
  - split; [exact Hout |]. rewrite Htr. apply List.Forall_forall.
    intros en Hin. apply List.in_map_iff in Hin. destruct Hin as (d & <- & _). reflexivity.
Qed.

End OfflineRuns.

(** X20. When no drive answers that it is online (all are offline or nil),
    the cache is bypassed: [GetObjectNInfo] and [GetObjectInfo] return what
    the backend answers to the caller's own request, [DeleteObject] what the
    backend's delete answers, and apart from that backend call the run only
    reads the migration flag and receives the drives' offline answers: no
    lock is requested and no drive is read, written or deleted from. *)
Theorem offline_cache_is_bypassed `{Externals} {W : Type} (h : Handler W)
    (c : cacheObjects) (bucket object : string) (rs : option HTTPRangeSpec) (hd : Header)
    (lt : LockType) (opts : ObjectOptions) (m : bool) (w : W) :
  let rN := run h (CacheObjects.GetObjectNInfo c bucket object rs hd lt opts) m w in
  let rI := run h (CacheObjects.GetObjectInfo c bucket object opts) m w in
  let rD := run h (CacheObjects.DeleteObject c bucket object) m w in
  ((forall d, ~ In (Call (dcache_IsOnline d) true) (trace rN)) ->
   exists a pre,
     trace rN = pre ++ [Call (GetObjectNInfoFn bucket object rs hd lt opts) a] /\
     outcome rN = Returned a /\
     Forall (fun en => isFlagOrOffline (view en) = true) pre) /\
  ((forall d, ~ In (Call (dcache_IsOnline d) true) (trace rI)) ->
   exists a pre,
     trace rI = pre ++ [Call (GetObjectInfoFn bucket object opts) a] /\
     outcome rI = Returned a /\
     Forall (fun en => isFlagOrOffline (view en) = true) pre) /\
  ((forall d, ~ In (Call (dcache_IsOnline d) true) (trace rD)) ->
   exists a post,
     trace rD = Call (DeleteObjectFn bucket object) a :: post /\
     outcome rD = Returned a /\
     Forall (fun en => isFlagOrOffline (view en) = true) post).
Proof.
  cbv zeta. split; [| split].
  - remember (run h (CacheObjects.GetObjectNInfo c bucket object rs hd lt opts) m w)
      as R eqn:HR.
    revert HR. unfold CacheObjects.GetObjectNInfo. rewrite run_bind, bypass_run.
    destruct (CacheObjects.isCacheExclude c bucket object); [| destruct m];
      unfold andThen at 1; cbn [outcome trace migrating world].
    + cbn [run bind trigger step fst snd trace outcome]. intros -> _.
      cbn [trace outcome]. eexists _, [].
      split; [reflexivity |]. split; [reflexivity | constructor].
    + cbn [run bind trigger step fst snd trace outcome List.app]. intros -> _.
      cbn [trace outcome]. eexists _, [_; _; _].
      split; [reflexivity |]. split; [reflexivity |]. repeat constructor.
    + rewrite run_bind.
      pose proof (getCacheToLoc_offline h c bucket object false w) as Hoff.
      cbv zeta in Hoff.
      destruct (run h (CacheObjects.getCacheToLoc c bucket object) false w)
        as [m1 w1 tr1 out1].
      cbn [trace outcome] in Hoff. unfold andThen. cbn [outcome trace migrating world].
      destruct out1 as [loc | msg]; intros -> Hno; cbn [trace outcome List.app] in *.
      * destruct Hoff as [Hout Hall].
        { intros d Hin. apply (Hno d). right. right. right.
          apply in_or_app. left. exact Hin. }
        injection Hout as ->. cbn [run bind trigger step fst snd trace outcome].
        eexists _, (_ :: _ :: _ :: tr1). split; [reflexivity |].
        split; [reflexivity |].
        repeat (constructor; [reflexivity |]). exact Hall.
      * destruct Hoff as [Hout _]; [| discriminate Hout].
        intros d Hin. apply (Hno d). right. right. right. exact Hin.
  - remember (run h (CacheObjects.GetObjectInfo c bucket object opts) m w) as R eqn:HR.
    revert HR. unfold CacheObjects.GetObjectInfo. rewrite run_bind, bypass_run.
    destruct (CacheObjects.isCacheExclude c bucket object); [| destruct m];
      unfold andThen at 1; cbn [outcome trace migrating world].
    + cbn [run bind trigger step fst snd trace outcome]. intros -> _.
      cbn [trace outcome]. eexists _, [].
      split; [reflexivity |]. split; [reflexivity | constructor].
    + cbn [run bind trigger step fst snd trace outcome List.app]. intros -> _.
      cbn [trace outcome]. eexists _, [_; _; _].
      split; [reflexivity |]. split; [reflexivity |]. repeat constructor.
    + rewrite run_bind.
      pose proof (getCacheToLoc_offline h c bucket object false w) as Hoff.
      cbv zeta in Hoff.
      destruct (run h (CacheObjects.getCacheToLoc c bucket object) false w)
        as [m1 w1 tr1 out1].
      cbn [trace outcome] in Hoff. unfold andThen. cbn [outcome trace migrating world].
      destruct out1 as [loc | msg]; intros -> Hno; cbn [trace outcome List.app] in *.
      * destruct Hoff as [Hout Hall].
        { intros d Hin. apply (Hno d). right. right. right.
          apply in_or_app. left. exact Hin. }
        injection Hout as ->. cbn [run bind trigger step fst snd trace outcome].
        eexists _, (_ :: _ :: _ :: tr1). split; [reflexivity |].
        split; [reflexivity |].
        repeat (constructor; [reflexivity |]). exact Hall.
      * destruct Hoff as [Hout _]; [| discriminate Hout].
        intros d Hin. apply (Hno d). right. right. right. exact Hin.
  - remember (run h (CacheObjects.DeleteObject c bucket object) m w) as R eqn:HR.
    revert HR. unfold CacheObjects.DeleteObject.
    cbn [run bind trigger step fst snd trace outcome world migrating].
    destruct (h (option error) (DeleteObjectFn bucket object) w) as [w0 a] eqn:E.
    cbn [fst snd]. destruct a as [err |].
    + cbn [run trace outcome]. intros -> _. cbn [trace outcome]. eexists _, [].
      split; [reflexivity |]. split; [reflexivity | constructor].
    + rewrite run_bind, bypass_run.
      destruct (CacheObjects.isCacheExclude c bucket object); [| destruct m];
        unfold andThen; cbn [run outcome trace migrating world List.app].
      * intros -> _. cbn [trace outcome]. eexists _, [].
        split; [reflexivity |]. split; [reflexivity | constructor].
      * intros -> _. cbn [trace outcome]. eexists _, [_; _; _].
        split; [reflexivity |]. split; [reflexivity |]. repeat constructor.
      * rewrite run_bind.
        pose proof (getCacheLoc_offline h c bucket object false w0) as Hoff.
        cbv zeta in Hoff.
        destruct (run h (CacheObjects.getCacheLoc c bucket object) false w0)
          as [m1 w1 tr1 out1].
        cbn [trace outcome] in Hoff. unfold andThen. cbn [outcome trace migrating world].
        destruct out1 as [loc | msg]; intros -> Hno; cbn [trace outcome List.app] in *.
        -- destruct Hoff as [Hout Hall].
           { intros d Hin. apply (Hno d). right. right. right. right.
             apply in_or_app. left. exact Hin. }
           injection Hout as ->. cbn [run trace outcome].
           eexists _, _. split; [reflexivity |]. split; [reflexivity |].
           rewrite app_nil_r. repeat (constructor; [reflexivity |]). exact Hall.
        -- destruct Hoff as [Hout _]; [| discriminate Hout].
           intros d Hin. apply (Hno d). right. right. right. right. exact Hin.
Qed.

(** ** More concrete runs *)

Example run_changed_N :
  run worldH (CacheObjects.GetObjectNInfo c1 "b" "obj" None [] noLock opts0) false w_changed
  = mkRun false (updateDrive drive0 (removeObject "b" "obj") w_changed) calls_changed_N
      (Returned (inl (mkReader 3 infoB))).
Proof. reflexivity. Qed.

Example run_changed_I :
  run worldH (CacheObjects.GetObjectInfo c1 "b" "obj" opts0) false w_changed
  = mkRun false (updateDrive drive0 (removeObject "b" "obj") w_changed) calls_changed_I
      (Returned (inl infoB)).
Proof. reflexivity. Qed.

Example run_denied_N :
  run deniedH (CacheObjects.GetObjectNInfo c1 "b" "obj" None [] noLock opts0) false w_stale
  = mkRun false w_stale calls_denied_N (Returned (inr accessDenied)).
Proof. reflexivity. Qed.

Example run_denied_I :
  run deniedH (CacheObjects.GetObjectInfo c1 "b" "obj" opts0) false w_stale
  = mkRun false w_stale calls_denied_I (Returned (inr accessDenied)).
Proof. reflexivity. Qed.

Example run_sse_N :
  run worldH (CacheObjects.GetObjectNInfo c1 "b" "obj" None [] noLock opts0) false w_sse
  = mkRun false w_sse calls_sse_N (Returned (inl (mkReader 1 infoSSE))).
Proof. reflexivity. Qed.

Example run_delete_affinity :
  run worldH (CacheObjects.DeleteObject c2 "b" "obj") false w_affinity
  = mkRun false w_deleted calls_delete_affinity (Returned None).
Proof. reflexivity. Qed.

(** The entry on drive 2 survives the delete, and being fresh it is what
    [GetObjectInfo] returns afterwards, without a call of the backend. *)
Example deleted_object_still_served_from_another_drive :
  let r := run worldH (CacheObjects.GetObjectInfo c2 "b" "obj" opts0) false w_deleted in
  hasIn w_deleted "b" "obj" drive2 = true /\
  outcome r = Returned (inl (infoA 9000)) /\
  count isHead (trace r) = 0%nat.
Proof. cbv zeta. split; [reflexivity |]. split; reflexivity. Qed.

(** Start-up with the second drive unformatted: its slot is nil, and the
    two other drives get a purger. *)
Example run_newCache :
  exec bootH (Boot.newCache config0) tt =
  mkExec tt
    [Answered (Boot.loadAndValidateCacheFormat (Drives config0)) (formats0, false, None);
     Answered (Boot.checkAtimeSupport "/mnt/cache0") None;
     Answered (Boot.newdiskCache "/mnt/cache0" 90 80) (inl drive0);
     Answered (Boot.go_purge drive0) tt;
     Answered (Boot.checkAtimeSupport "/mnt/cache2") None;
     Answered (Boot.newdiskCache "/mnt/cache2" 90 80) (inl drive2);
     Answered (Boot.go_purge drive2) tt]
    (Returned (inl (cache c3, false))).
Proof. reflexivity. Qed.

Lemma changed_entry_is_dropped_and_refetched_witness :
  backendDownError None = false /\
  IsCacheable infoB = true /\
  ETag (ObjInfo (readerA 3000)) <> ETag infoB /\
  let r := run worldH (CacheObjects.GetObjectNInfo c1 "b" "obj" None [] noLock opts0)
               false w_changed in
  exists pre c1 lk post,
    trace r = pre ++ Call (GetObjectInfoFn "b" "obj" opts0) (inl infoB) ::
                     Call (reader_Close (readerA 3000)) c1 ::
                     Call (cLock_GetLock "b" "obj" globalObjectTimeout) lk :: post /\
    match lk with
    | None => exists a u post',
        post = Call (dcache_Delete drive0 "b" "obj") a ::
               Call (cLock_Unlock "b" "obj") u :: post' /\
        count isDelete (trace r) = 1%nat
    | Some _ => count isDelete (trace r) = 0%nat
    end /\
    count isUpdate (trace r) = 0%nat /\
    exists a, In (Call (GetObjectNInfoFn "b" "obj" None [] noLock opts0) a) post /\
      (outcome r = Returned a \/
       exists bkReader p a',
         a = inl bkReader /\
         In (Call (NewGetObjectReaderFromReader (TeeReader (readerOf bkReader) p)
                     (ObjInfo bkReader) (CheckCopyPrecondFn opts0)
                     [closeReader bkReader; closePipeReader p]) a') post /\
         outcome r = Returned a').
Proof.
  split; [reflexivity |]. split; [reflexivity |]. split; [discriminate |].
  apply (changed_entry_is_dropped_and_refetched worldH c1 "b" "obj" None [] noLock opts0
           false w_changed drive0 (readerA 3000) infoB).
  - reflexivity.
  - rewrite run_changed_N. in_list.
  - rewrite run_changed_N. in_list.
  - reflexivity.
  - discriminate.
Defined.

Lemma backend_error_is_returned_as_is_witness :
  (forall b' o', accessDenied <> ObjectNotFound b' o') /\
  backendDownError (Some accessDenied) = false /\
  outcome (run deniedH (CacheObjects.GetObjectNInfo c1 "b" "obj" None [] noLock opts0)
             false w_stale) = Returned (inr accessDenied) /\
  outcome (run deniedH (CacheObjects.GetObjectInfo c1 "b" "obj" opts0) false w_stale)
    = Returned (inr accessDenied).
Proof.
  split; [intros b' o'; discriminate |]. split; [reflexivity |].
  destruct (backend_error_is_returned_as_is deniedH c1 "b" "obj" None [] noLock opts0
              false w_stale accessDenied ltac:(intros b' o'; discriminate) eq_refl)
    as [HN HI].
  split.
  - apply HN. rewrite run_denied_N. in_list.
  - apply HI. rewrite run_denied_I. in_list.
Defined.

Lemma uncacheable_object_is_read_from_backend_witness :
  backendDownError None = false /\
  IsCacheable infoSSE = false /\
  let r := run worldH (CacheObjects.GetObjectNInfo c1 "b" "obj" None [] noLock opts0)
               false w_sse in
  exists a pre,
    trace r = pre ++ [Call (GetObjectInfoFn "b" "obj" opts0) (inl infoSSE);
                      Call (GetObjectNInfoFn "b" "obj" None [] noLock opts0) a] /\
    outcome r = Returned a /\
    Forall (fun en => isReadPhase (view en) = true) pre.
Proof.
  split; [reflexivity |]. split; [reflexivity |].
  apply (uncacheable_object_is_read_from_backend worldH c1 "b" "obj" None [] noLock opts0
           false w_sse infoSSE).
  - reflexivity.
  - rewrite run_sse_N. in_list.
  - reflexivity.
Defined.

Lemma GetObjectInfo_returns_backend_info_witness :
  outcome (run worldH (CacheObjects.GetObjectInfo c1 "b" "obj" opts0) false w_changed)
  = Returned (inl infoB).
Proof.
  apply (GetObjectInfo_returns_backend_info worldH c1 "b" "obj" opts0 false w_changed infoB).
  rewrite run_changed_I. in_list.
Defined.

Lemma newCache_one_slot_per_drive_witness :
  bootH _ (Boot.loadAndValidateCacheFormat (Drives config0)) tt
    = (tt, (formats0, false, None)) /\
  (length (Drives config0) <= length formats0)%nat /\
  let r := exec bootH (Boot.newCache config0) tt in
  exists x, result r = Returned x /\
    match x with
    | inl (caches, mig') =>
        mig' = false /\
        length caches = length (Drives config0) /\
        (forall j : nat, caches !! j = Some None <->
                         (j < length (Drives config0))%nat /\ formats0 !! j = Some None) /\
        Boot.made (calls r) = omap (Boot.madeFor config0) (zip (Drives config0) caches) /\
        Boot.purgers (calls r) = omap id caches
    | inr e =>
        (e = errorString "Atime support required for disk caching" /\
         exists dir e0, In (dir, Some e0) (Boot.atimeChecks (calls r))) \/
        (exists dir, In (dir, Expiry config0, MaxUse config0, inr e) (Boot.made (calls r)))
    end.
Proof.
  split; [reflexivity |]. split; [apply le_n |].
  exact (newCache_one_slot_per_drive bootH config0 tt tt formats0 false None eq_refl
           (le_n 3)).
Defined.

Lemma DeleteObject_only_asks_the_placement_drive_witness :
  (forall d, worldH bool (dcache_IsOnline d) w_deleted = (w_deleted, onlineIn w_deleted d)) /\
  LocateForWrite (onlineIn w_deleted) c2 "b" "obj" = inl drive0.
Proof.
  split; [intros d; reflexivity |].
  apply (DeleteObject_only_asks_the_placement_drive worldH c2 "b" "obj" (onlineIn w_deleted)
           false w_affinity (fun d => eq_refl) drive0).
  left. exists false. rewrite run_delete_affinity. in_list.
Defined.
